(** * Subtitle generator: orchestrator (main.py) and audio preparation
      (obrabotka.py)

    A shallow embedding of the two Python modules of the subtitle pipeline.
    Calls into libraries and into the collaborating components (pydub,
    librosa, ffmpeg, the file system, the transcription manager, ...) are
    oracles of an environment record acting on an abstract world; every
    oracle call and every log line is recorded as an event, so that a run
    of a method yields its result (a value or a raised exception), the
    world after it and the events it performed. *)

From Stdlib Require Import String Ascii List ZArith QArith Qround Bool Lia DecimalString.
Import ListNotations.
Local Open Scope string_scope.
Local Open Scope Z_scope.
Set Warnings "-register-all".

(** ** Python strings and paths *)

Module Py.

(** [str(n)] for an [int]. *)
Definition str_of_Z (z : Z) : string := NilZero.string_of_int (Z.to_int z).

Definition len {A} (l : list A) : Z := Z.of_nat (List.length l).

(** Strings are held as their UTF-8 bytes. *)

(** [str.lower] and [str.upper] on an ASCII character. *)
Definition lower_ascii (c : ascii) : ascii :=
  let n := nat_of_ascii c in
  if (andb (Nat.leb 65 n) (Nat.leb n 90)) then ascii_of_nat (n + 32) else c.

Definition upper_ascii (c : ascii) : ascii :=
  let n := nat_of_ascii c in
  if (andb (Nat.leb 97 n) (Nat.leb n 122)) then ascii_of_nat (n - 32) else c.

Fixpoint map_string (f : ascii -> ascii) (s : string) : string :=
  match s with
  | EmptyString => EmptyString
  | String c r => String (f c) (map_string f r)
  end.

(** [s.lower()], as far as comparisons with ASCII strings go: ASCII letters
    are lowered, and so is the KELVIN SIGN (U+212A, the bytes 226 132 170),
    the one character outside ASCII whose lower case lies in ASCII; the
    other characters outside ASCII, whose lower case lies outside ASCII
    too, are kept as they are. *)
Fixpoint lower (s : string) : string :=
  match s with
  | EmptyString => EmptyString
  | String "226" (String "132" (String "170" r)) => String "k" (lower r)
  | String c r => String (lower_ascii c) (lower r)
  end.

(** [s.upper()] on ASCII letters; the other characters are kept as they
    are. *)
Definition upper := map_string upper_ascii.

(** A byte that continues a character of several bytes. *)
Definition continues (c : ascii) : bool :=
  let n := nat_of_ascii c in
  andb (Nat.leb 128 n) (Nat.ltb n 192).

(** The string goes on in the middle of a character. *)
Definition resumes (s : string) : bool :=
  match s with
  | EmptyString => false
  | String c _ => continues c
  end.

(** The characters of a string, as [for c in s] visits them. *)
Fixpoint chars (s : string) : list string :=
  match s with
  | EmptyString => []
  | String c r =>
      match chars r with
      | x :: xs =>
          if resumes r then String c x :: xs
          else String c EmptyString :: x :: xs
      | [] => [String c EmptyString]
      end
  end.

(** [len(s)] for a string: the number of its characters. *)
Definition len_str (s : string) : Z := len (chars s).

(** [sep.join(l)]. *)
Definition join (sep : string) (l : list string) : string := String.concat sep l.

(** [s.startswith(p)]. *)
Definition startswith (s p : string) : bool := String.prefix p s.

(** [s.split(c)] for a one-character separator. *)
Fixpoint split_on (c : ascii) (s : string) : list string :=
  match s with
  | EmptyString => [EmptyString]
  | String a r =>
      if Ascii.eqb a c then EmptyString :: split_on c r
      else match split_on c r with
           | [] => [String a EmptyString]
           | w :: ws => String a w :: ws
           end
  end.

(** [s.rfind(c)]: index of the last occurrence of [c], [-1] when absent. *)
Fixpoint rfind_from (c : ascii) (s : string) (i : Z) (last : Z) : Z :=
  match s with
  | EmptyString => last
  | String a r => rfind_from c r (i + 1) (if Ascii.eqb a c then i else last)
  end.

Definition rfind (c : ascii) (s : string) : Z := rfind_from c s 0 (-1).

Definition slice_from (s : string) (i : Z) : string :=
  substring (Z.to_nat i) (String.length s - Z.to_nat i) s.

Definition slice_to (s : string) (i : Z) : string :=
  substring 0 (Z.to_nat i) s.

(** [s * n]. *)
Fixpoint repeat (s : string) (n : nat) : string :=
  match n with
  | O => EmptyString
  | S k => s ++ repeat s k
  end.

(** [l[:n]] for a list. *)
Definition take {A} (n : Z) (l : list A) : list A :=
  if n <? 0 then firstn (Z.to_nat (Z.of_nat (List.length l) + n)) l
  else firstn (Z.to_nat n) l.

(** [x in l] for a list of strings. *)
Definition mem (x : string) (l : list string) : bool :=
  existsb (String.eqb x) l.

End Py.

(** [pathlib.Path] on a POSIX system: a path is kept as its string, parsed
    into components when one of its parts is asked for. *)
Module Path.

Definition is_abs (s : string) : bool := Py.startswith s "/".

(** The root of a path: "/" for an absolute path, except that exactly two
    leading slashes are kept (POSIX leaves their meaning to the system);
    empty for a relative path. *)
Definition root (s : string) : string :=
  if (Py.startswith s "//" && negb (Py.startswith s "///"))%bool then "//"
  else if is_abs s then "/" else "".

(** The components of a path: empty components and "." are dropped. *)
Definition parts (s : string) : list string :=
  filter (fun c => negb (String.eqb c "" || String.eqb c "."))
         (Py.split_on "/"%char s).

Definition of_parts (root : string) (l : list string) : string :=
  match l with
  | [] => if String.eqb root "" then "." else root
  | _ => root ++ Py.join "/" l
  end.

(** [str(Path(s))]. *)
Definition str (s : string) : string := of_parts (root s) (parts s).

(** [Path(s).name]: the last component. *)
Definition name (s : string) : string := last (parts s) "".

(** [Path(s).parent]. *)
Definition parent (s : string) : string :=
  of_parts (root s) (removelast (parts s)).

(** [Path(s).suffix]: from the last dot of the name, unless that dot is the
    first or the last character of the name. *)
Definition suffix (s : string) : string :=
  let n := name s in
  let i := Py.rfind "."%char n in
  if ((0 <? i) && (i <? Z.of_nat (String.length n) - 1))%bool
  then Py.slice_from n i else "".

(** [Path(s).stem]. *)
Definition stem (s : string) : string :=
  let n := name s in
  let i := Py.rfind "."%char n in
  if ((0 <? i) && (i <? Z.of_nat (String.length n) - 1))%bool
  then Py.slice_to n i else n.

(** [Path(a) / b]. *)
Definition join (a b : string) : string :=
  if is_abs b then str b
  else of_parts (root a) (parts a ++ parts b).

End Path.


(** ** Exceptions and results

    The exceptions of the model are the subclasses of [Exception], which is
    what every [except Exception] clause of the two modules catches;
    [KeyboardInterrupt] and the like are not failures of the program and are
    left out.  [sys.exit] is called outside every [try] block of the
    sources and is modelled by the exit status that [main] returns. *)

Inductive exn_class :=
| KeyError | TypeError | ValueError | NameError | ZeroDivisionError
| OSError | FileNotFoundError | ImportError | FfmpegError | RuntimeError.

Record exn := mk_exn { exn_cls : exn_class; exn_msg : string }.

(** [str(e)], also what an f-string prints for [{e}]. *)
Definition str_exn (e : exn) : string := exn_msg e.

(** [isinstance(e, ImportError)]. *)
Definition is_ImportError (e : exn) : bool :=
  match exn_cls e with ImportError => true | _ => false end.

(** [isinstance(e, ffmpeg.Error)]. *)
Definition is_FfmpegError (e : exn) : bool :=
  match exn_cls e with FfmpegError => true | _ => false end.

Inductive Res (A : Type) :=
| Return (a : A)
| Raise (e : exn).
Arguments Return {A} a.
Arguments Raise {A} e.

Definition is_ok {A} (r : Res A) : bool :=
  match r with Return _ => true | Raise _ => false end.

(** A [KeyError] for a missing string key: its [str] is the [repr] of the
    key. *)
Definition key_error (k : string) : exn := mk_exn KeyError ("'" ++ k ++ "'").

(** ** Configuration values

    What [yaml.safe_load] returns, for the configuration language of the
    program: scalars, lists of strings and mappings with string keys. *)

Inductive yaml :=
| YNull
| YBool (b : bool)
| YInt (z : Z)
| YFloat (q : Q)
| YStr (s : string)
| YStrList (l : list string)
| YDict (d : list (string * yaml)).

Fixpoint assoc {A} (k : string) (d : list (string * A)) : option A :=
  match d with
  | [] => None
  | (k', v) :: r => if String.eqb k k' then Some v else assoc k r
  end.

(** [d[k] = v] on a dict kept in insertion order. *)
Fixpoint dict_set {A} (k : string) (v : A) (d : list (string * A)) : list (string * A) :=
  match d with
  | [] => [(k, v)]
  | (k', v') :: r =>
      if String.eqb k k' then (k, v) :: r else (k', v') :: dict_set k v r
  end.

Definition type_name (y : yaml) : string :=
  match y with
  | YNull => "NoneType" | YBool _ => "bool" | YInt _ => "int"
  | YFloat _ => "float" | YStr _ => "str" | YStrList _ => "list"
  | YDict _ => "dict"
  end.

(** [y[k]] for a string key [k]. *)
Definition subscript (y : yaml) (k : string) : Res yaml :=
  match y with
  | YDict d =>
      match assoc k d with
      | Some v => Return v
      | None => Raise (key_error k)
      end
  | YStr _ => Raise (mk_exn TypeError "string indices must be integers")
  | YStrList _ =>
      Raise (mk_exn TypeError "list indices must be integers or slices, not str")
  | _ => Raise (mk_exn TypeError
                  ("'" ++ type_name y ++ "' object is not subscriptable"))
  end.

(** [y[k1][k2]]. *)
Definition subscript2 (y : yaml) (k1 k2 : string) : Res yaml :=
  match subscript y k1 with
  | Return v => subscript v k2
  | Raise e => Raise e
  end.

(** Truth value of a configuration value, as tested by [if y:]. *)
Definition truthy (y : yaml) : bool :=
  match y with
  | YNull => false
  | YBool b => b
  | YInt z => negb (z =? 0)
  | YFloat q => negb (Qeq_bool q 0)
  | YStr s => negb (String.eqb s "")
  | YStrList l => match l with [] => false | _ => true end
  | YDict d => match d with [] => false | _ => true end
  end.

(** [y == n] for an [int] n ([True == 1] and [1.0 == 1] hold in Python). *)
Definition eq_int (y : yaml) (n : Z) : bool :=
  match y with
  | YInt z => z =? n
  | YBool b => (if b then 1 else 0) =? n
  | YFloat q => Qeq_bool q (inject_Z n)
  | _ => false
  end.

(** The items a [for] loop over a configuration value visits. *)
Definition iterate (y : yaml) : Res (list string) :=
  match y with
  | YStrList l => Return l
  | YStr s => Return (Py.chars s)
  | YDict d => Return (map fst d)
  | _ => Raise (mk_exn TypeError
                  ("'" ++ type_name y ++ "' object is not iterable"))
  end.

(** [a / b] on floats ([float] is modelled by the rationals). *)
Definition truediv (a b : Q) : Res Q :=
  if Qeq_bool b 0 then Raise (mk_exn ZeroDivisionError "float division by zero")
  else Return (a / b)%Q.

(** [sum(l)] for a list of floats. *)
Definition sumQ (l : list Q) : Q := fold_left Qplus l 0%Q.

Definition sumZ (l : list Z) : Z := fold_left Z.add l 0.

(** ** Data model *)

(** obrabotka.py, [AudioInfo]: a plain (not frozen) dataclass. *)
Record AudioInfo := mk_AudioInfo {
  source_path : string;
  processed_path : string;
  duration : Q;
  sample_rate : Z;
  channels : Z;
  format : string;
  size_mb : Q
}.

(** [audio_info.processed_path = p]. *)
Definition set_processed_path (a : AudioInfo) (p : string) : AudioInfo :=
  mk_AudioInfo (source_path a) p (duration a) (sample_rate a) (channels a)
               (format a) (size_mb a).

(** What an audio processor hands to main.py, which reads it with
    [audio_info['key']]: a mapping with the keys of [AudioInfo], or an
    [AudioInfo] object itself (a dataclass instance has no [__getitem__]). *)
Inductive audio_value :=
| AsDict (a : AudioInfo)
| AsObject (a : AudioInfo).

(** [audio_info[key]], the key being given by the field it selects. *)
Definition audio_item {A} (field : AudioInfo -> A) (v : audio_value) : Res A :=
  match v with
  | AsDict a => Return (field a)
  | AsObject _ =>
      Raise (mk_exn TypeError "'AudioInfo' object is not subscriptable")
  end.

Record Word := mk_Word { w_text : string; w_start : Q; w_end : Q }.

Record Segment := mk_Segment { seg_start : Q; seg_end : Q; seg_text : string }.

(** The dict returned by [TranscriptionManager.transcribe]; main.py reads
    its optional keys 'provider' and 'language' with [.get]. *)
Record Transcription := mk_Transcription {
  tr_provider : option string;
  tr_language : option string;
  tr_segments : list Segment
}.

(** The dict returned by [PostProcessor.process]: key 'segments', optional
    key 'words'. *)
Record ProcessedData := mk_ProcessedData {
  pd_segments : list Segment;
  pd_words : option (list Word)
}.

(** [processed_data.get('words', [])]. *)
Definition get_words (d : ProcessedData) : list Word :=
  match pd_words d with Some l => l | None => [] end.

(** The dict returned by [QualityChecker.check]. *)
Record QualityReport := mk_QualityReport {
  total_issues : Z;
  errors : list string;
  warnings : list string
}.

Record TranscriptionStats := mk_Stats {
  st_words : Z;
  st_segments : Z;
  st_provider : string;
  st_language : string
}.

(** The dict returned by [process_file]: the keys of the successful result,
    or 'success', 'error' and 'input_file' for a failed one. *)
Inductive FileResult :=
| Succeeded (input_file : string) (output_files : list (string * string))
            (report : string) (audio_info : audio_value)
            (transcription_stats : TranscriptionStats)
            (quality_report : QualityReport)
| Failed (error : string) (input_file : string).

(** [r['success']]. *)
Definition success (r : FileResult) : bool :=
  match r with Succeeded _ _ _ _ _ _ => true | Failed _ _ => false end.

(** [r['input_file']]. *)
Definition result_input_file (r : FileResult) : string :=
  match r with Succeeded f _ _ _ _ _ => f | Failed _ f => f end.

(** A [pydub.AudioSegment]: the stretch [a_from, a_to) in milliseconds of
    the recording it was decoded from. *)
Record AudioSegment := mk_AudioSegment {
  a_source : string;
  a_from : Z;
  a_to : Z;
  a_channels : Z;
  a_frame_rate : Z
}.

(** [len(audio)], in milliseconds. *)
Definition audio_len (a : AudioSegment) : Z := a_to a - a_from a.

(** [audio[start:end]] for non-negative bounds: both are clamped to the
    length. *)
Definition audio_slice (a : AudioSegment) (start stop : Z) : AudioSegment :=
  mk_AudioSegment (a_source a)
                  (a_from a + Z.min start (audio_len a))
                  (a_from a + Z.min stop (audio_len a))
                  (a_channels a) (a_frame_rate a).

(** A numpy array of samples, as [librosa.load] returns it. *)
Record Samples := mk_Samples { s_ndim : Z; s_values : list Z }.

(** What is read from an open [soundfile.SoundFile]. *)
Record SoundFile := mk_SoundFile {
  sf_samplerate : Z;
  sf_channels : Z;
  sf_frames : Z;
  sf_format : string
}.

(** ** Events *)

Inductive level := INFO | WARNING | ERROR.

(** Library calls made by obrabotka.py. *)
Inductive ACall :=
| CMkdtemp (prefix : string)
| CGetDuration (path : string)
| CSoundFile (path : string)
| CGetSize (path : string)
| CFfmpegRun (src dst : string) (ac ar : yaml)
| CFromFile (path : string)
| CSetChannels (n : Z)
| CSetFrameRate (rate : yaml)
| CExport (a : AudioSegment) (path : string)
| CNormalize (a : AudioSegment)
| CRemove (path : string)
| CImportNoisereduce
| CLibrosaLoad (path : string)
| CToMono
| CReduceNoise (sr : Z)
| CSfWrite (path : string) (sr : Z)
| CExists (path : string)
| CRmtree (path : string).

Inductive AEvent :=
| ALog (l : level) (msg : string)
| ACalled (c : ACall) (ok : bool).

(** Calls made by main.py into libraries and into the components it
    imports. *)
Inductive Call :=
| COpenYaml (path : string)
| CImport (module : string)
| CConstruct (class : string)
| CMkdir (path : string)
| CSelectBestProvider (d s : Q)
| CTranscribe (path provider : string) (language : option string)
| CPostProcess (t : Transcription)
| CAutoCorrect (segments : list Segment)
| CFormat (segments : list Segment) (format_name : string)
| CWriteText (path content : string)
| CNow
| CGlob (dir pattern : string)
| CIsFile (path : string)
| CPathExists (path : string)
| CIsDir (path : string).

(** [Checked] is the call of [QualityChecker.check], with what it
    returned. *)
Inductive Event :=
| Log (l : level) (msg : string)
| Called (c : Call) (ok : bool)
| Checked (segments : list Segment) (r : Res QualityReport)
| Audio (a : AEvent).

(** ** Runs: results, worlds and events *)

(** A computation over worlds [W] that performs events [Ev]. *)
Definition M (W Ev A : Type) : Type := W -> Res A * W * list Ev.

Definition result {W Ev A} (o : Res A * W * list Ev) : Res A := fst (fst o).
Definition world {W Ev A} (o : Res A * W * list Ev) : W := snd (fst o).
Definition events {W Ev A} (o : Res A * W * list Ev) : list Ev := snd o.

Definition ret {W Ev A} (a : A) : M W Ev A := fun w => (Return a, w, []).

Definition raise {W Ev A} (e : exn) : M W Ev A := fun w => (Raise e, w, []).

Definition bind {W Ev A B} (m : M W Ev A) (k : A -> M W Ev B) : M W Ev B :=
  fun w =>
    match m w with
    | (Return a, w1, t1) =>
        match k a w1 with
        | (r, w2, t2) => (r, w2, (t1 ++ t2)%list)
        end
    | (Raise e, w1, t1) => (Raise e, w1, t1)
    end.

(** [try: m  except C as e: h e], where [catches e] tells whether [e] is an
    instance of [C]. *)
Definition try_except {W Ev A} (m : M W Ev A) (catches : exn -> bool)
    (h : exn -> M W Ev A) : M W Ev A :=
  fun w =>
    match m w with
    | (Return a, w1, t1) => (Return a, w1, t1)
    | (Raise e, w1, t1) =>
        if catches e then
          match h e w1 with
          | (r, w2, t2) => (r, w2, (t1 ++ t2)%list)
          end
        else (Raise e, w1, t1)
    end.

(** [except Exception]. *)
Definition any_exception (e : exn) : bool := true.

(** A pure step that may raise (a subscript, a division). *)
Definition lift_res {W Ev A} (r : Res A) : M W Ev A := fun w => (r, w, []).

(** A call of an oracle, recorded as the event [ev r] for its outcome
    [r]. *)
Definition invoke {W Ev A} (ev : Res A -> Ev) (f : W -> Res A * W) : M W Ev A :=
  fun w => match f w with (r, w1) => (r, w1, [ev r]) end.

(** A computation of the audio module run inside main.py. *)
Definition within {W A} (m : M W AEvent A) : M W Event A :=
  fun w => match m w with (r, w1, t) => (r, w1, map Audio t) end.

Declare Scope monad_scope.
Delimit Scope monad_scope with monad.
Notation "x <- m ;; k" := (bind m (fun x => k))
  (at level 61, m at next level, right associativity) : monad_scope.
Notation "m ;; k" := (bind m (fun _ => k))
  (at level 61, right associativity) : monad_scope.
Local Open Scope monad_scope.

(** [l + l'] on lists. *)
Infix "+++" := List.app (at level 60, right associativity).

(** [for x in l: acc = body acc x], stopping at the first exception. *)
Fixpoint for_each {W Ev A S} (l : list A) (acc : S)
    (body : S -> A -> M W Ev S) : M W Ev S :=
  match l with
  | [] => ret acc
  | x :: r => acc' <- body acc x ;; for_each r acc' body
  end.

(** [range(start, stop, step)], iterated: the values from [start] by [step]
    that stay before [stop]. *)
Fixpoint range_up (fuel : nat) (i stop step : Z) : list Z :=
  match fuel with
  | O => []
  | S f => if i <? stop then i :: range_up f (i + step) stop step else []
  end.

Fixpoint range_down (fuel : nat) (i stop step : Z) : list Z :=
  match fuel with
  | O => []
  | S f => if stop <? i then i :: range_down f (i + step) stop step else []
  end.

Definition range (start stop step : Z) : Res (list Z) :=
  if step =? 0 then Raise (mk_exn ValueError "range() arg 3 must not be zero")
  else if 0 <? step then Return (range_up (Z.to_nat (stop - start)) start stop step)
  else Return (range_down (Z.to_nat (start - stop)) start stop step).

(** ** Libraries used by obrabotka.py

    Each call is given the world and returns its outcome with the world it
    leaves; [lib_stderr e] is [e.stderr.decode()] for an exception of
    ffmpeg, which may fail itself. *)

Record AEnv (W : Type) := mk_AEnv {
  lib_mkdtemp : string -> W -> Res string * W;
  lib_get_duration : string -> W -> Res Q * W;
  lib_soundfile : string -> W -> Res SoundFile * W;
  lib_getsize : string -> W -> Res Z * W;
  lib_ffmpeg_run : string -> string -> yaml -> yaml -> W -> Res unit * W;
  lib_from_file : string -> W -> Res AudioSegment * W;
  lib_set_channels : AudioSegment -> Z -> W -> Res AudioSegment * W;
  lib_set_frame_rate : AudioSegment -> yaml -> W -> Res AudioSegment * W;
  lib_export : AudioSegment -> string -> W -> Res unit * W;
  lib_normalize : AudioSegment -> W -> Res AudioSegment * W;
  lib_remove : string -> W -> Res unit * W;
  lib_import_noisereduce : W -> Res unit * W;
  lib_librosa_load : string -> W -> Res (Samples * Z) * W;
  lib_to_mono : Samples -> W -> Res Samples * W;
  lib_reduce_noise : Samples -> Z -> Samples -> Q -> W -> Res Samples * W;
  lib_sf_write : string -> Samples -> Z -> W -> Res unit * W;
  lib_exists : string -> W -> Res bool * W;
  lib_rmtree : string -> W -> Res unit * W;
  lib_stderr : exn -> Res string
}.
Arguments lib_mkdtemp {W}.
Arguments lib_get_duration {W}.
Arguments lib_soundfile {W}.
Arguments lib_getsize {W}.
Arguments lib_ffmpeg_run {W}.
Arguments lib_from_file {W}.
Arguments lib_set_channels {W}.
Arguments lib_set_frame_rate {W}.
Arguments lib_export {W}.
Arguments lib_normalize {W}.
Arguments lib_remove {W}.
Arguments lib_import_noisereduce {W}.
Arguments lib_librosa_load {W}.
Arguments lib_to_mono {W}.
Arguments lib_reduce_noise {W}.
Arguments lib_sf_write {W}.
Arguments lib_exists {W}.
Arguments lib_rmtree {W}.
Arguments lib_stderr {W}.

(** ** obrabotka.py: class [AudioProcessor] *)

Module Obrabotka.

(** The attributes of an [AudioProcessor] instance. *)
Record AudioProcessor := mk_AudioProcessor {
  config : yaml;
  temp_dir : string
}.

Definition SUPPORTED_FORMATS : list string :=
  [".mp3"; ".wav"; ".m4a"; ".flac"; ".ogg"; ".mp4"; ".avi"; ".mkv"; ".mov"].

(** [is_supported_format]. *)
Definition is_supported_format (filepath : string) : bool :=
  let ext := Py.lower (Path.suffix filepath) in
  Py.mem ext SUPPORTED_FORMATS.

(** [is_video_file]. *)
Definition is_video_file (filepath : string) : bool :=
  let video_extensions := [".mp4"; ".avi"; ".mkv"; ".mov"; ".wmv"; ".flv"] in
  Py.mem (Py.lower (Path.suffix filepath)) video_extensions.

Section Methods.
Context {W : Type} (L : AEnv W).

Local Abbreviation Run := (M W AEvent).

Definition log (l : level) (msg : string) : Run unit :=
  fun w => (Return tt, w, [ALog l msg]).

Definition call {A} (c : ACall) (f : W -> Res A * W) : Run A :=
  invoke (fun r => ACalled c (is_ok r)) f.

(** [self.config[k1][k2]]. *)
Definition cfg (self : AudioProcessor) (k1 k2 : string) : Run yaml :=
  lift_res (subscript2 (config self) k1 k2).

(** [__init__]. *)
Definition init (config : yaml) : Run AudioProcessor :=
  temp_dir <- call (CMkdtemp "subtitle_audio_") (lib_mkdtemp L "subtitle_audio_") ;;
  log INFO ("Временная директория для аудио: " ++ temp_dir) ;;
  ret (mk_AudioProcessor config temp_dir).

(** [analyze_audio]. *)
Definition analyze_audio (self : AudioProcessor) (filepath : string) : Run AudioInfo :=
  try_except
    (duration <- call (CGetDuration filepath) (lib_get_duration L filepath) ;;
     f <- call (CSoundFile filepath) (lib_soundfile L filepath) ;;
     let sample_rate := sf_samplerate f in
     let channels := sf_channels f in
     let format_info := sf_format f in
     size <- call (CGetSize filepath) (lib_getsize L filepath) ;;
     let size_mb := (inject_Z size / inject_Z (1024 * 1024))%Q in
     ret (mk_AudioInfo filepath "" duration sample_rate channels format_info size_mb))
    any_exception
    (fun e =>
       log ERROR ("Ошибка анализа аудиофайла " ++ filepath ++ ": " ++ str_exn e) ;;
       raise e).

(** [extract_audio_from_video]; [output_dir] is [None] by default. *)
Definition extract_audio_from_video (self : AudioProcessor) (video_path : string)
    (output_dir : option string) : Run string :=
  log INFO ("Извлечение аудио из видео: " ++ video_path) ;;
  let output_dir := match output_dir with None => temp_dir self | Some d => d end in
  let output_path := Path.join output_dir (Path.stem video_path ++ "_audio.wav") in
  try_except
    (ac <- cfg self "audio_preprocessing" "channels" ;;
     ar <- cfg self "audio_preprocessing" "target_sample_rate" ;;
     call (CFfmpegRun video_path output_path ac ar)
          (lib_ffmpeg_run L video_path output_path ac ar) ;;
     log INFO ("Аудио извлечено: " ++ output_path) ;;
     ret output_path)
    is_FfmpegError
    (fun e =>
       stderr <- lift_res (lib_stderr L e) ;;
       log ERROR ("Ошибка ffmpeg при извлечении аудио: " ++ stderr) ;;
       raise e).

(** [prepare_audio_file]. *)
Definition prepare_audio_file (self : AudioProcessor) (audio_path : string)
    (output_dir : option string) : Run string :=
  log INFO ("Подготовка аудиофайла: " ++ audio_path) ;;
  let output_dir := match output_dir with None => temp_dir self | Some d => d end in
  let output_path := Path.join output_dir (Path.stem audio_path ++ "_prepared.wav") in
  try_except
    (audio <- call (CFromFile audio_path) (lib_from_file L audio_path) ;;
     target_sample_rate <- cfg self "audio_preprocessing" "target_sample_rate" ;;
     target_channels <- cfg self "audio_preprocessing" "channels" ;;
     audio <- (if (eq_int target_channels 1 && (1 <? a_channels audio))%bool
               then call (CSetChannels 1) (lib_set_channels L audio 1)
               else ret audio) ;;
     audio <- (if negb (eq_int target_sample_rate (a_frame_rate audio))
               then call (CSetFrameRate target_sample_rate)
                         (lib_set_frame_rate L audio target_sample_rate)
               else ret audio) ;;
     call (CExport audio output_path) (lib_export L audio output_path) ;;
     log INFO ("Аудио подготовлено: " ++ output_path) ;;
     ret output_path)
    any_exception
    (fun e =>
       log ERROR ("Ошибка подготовки аудио: " ++ str_exn e) ;;
       raise e).

(** The [try] block of [normalize_audio]. *)
Definition normalize_audio_try (self : AudioProcessor) (audio_path output_path : string)
    : Run string :=
  audio <- call (CFromFile audio_path) (lib_from_file L audio_path) ;;
  normalized <- call (CNormalize audio) (lib_normalize L audio) ;;
  call (CExport normalized output_path) (lib_export L normalized output_path) ;;
  (if Py.startswith audio_path (temp_dir self)
   then call (CRemove audio_path) (lib_remove L audio_path)
   else ret tt) ;;
  log INFO ("Аудио нормализовано: " ++ output_path) ;;
  ret output_path.

(** [normalize_audio]. *)
Definition normalize_audio (self : AudioProcessor) (audio_path : string) : Run string :=
  log INFO ("Нормализация громкости: " ++ audio_path) ;;
  let output_path :=
    Path.join (Path.parent audio_path) (Path.stem audio_path ++ "_normalized.wav") in
  try_except
    (normalize_audio_try self audio_path output_path)
    any_exception
    (fun e =>
       log ERROR ("Ошибка нормализации: " ++ str_exn e) ;;
       ret audio_path).

(** [audio[:n]] on an array of samples. *)
Definition samples_take (n : Z) (a : Samples) : Samples :=
  mk_Samples (s_ndim a) (Py.take n (s_values a)).

(** The [try] block of [reduce_noise]. *)
Definition reduce_noise_try (self : AudioProcessor) (audio_path : string) : Run string :=
  call CImportNoisereduce (lib_import_noisereduce L) ;;
  loaded <- call (CLibrosaLoad audio_path) (lib_librosa_load L audio_path) ;;
  let audio := fst loaded in
  let sample_rate := snd loaded in
  audio <- (if 1 <? s_ndim audio
            then call CToMono (lib_to_mono L audio)
            else ret audio) ;;
  let noise_samples := Z.quot sample_rate 2 in
  let noise_clip :=
    if noise_samples <? Py.len (s_values audio)
    then samples_take noise_samples audio
    else samples_take (Py.len (s_values audio) / 10) audio in
  reduced_noise <- call (CReduceNoise sample_rate)
                        (lib_reduce_noise L audio sample_rate noise_clip (75 # 100)) ;;
  let output_path :=
    Path.join (Path.parent audio_path) (Path.stem audio_path ++ "_denoised.wav") in
  call (CSfWrite output_path sample_rate)
       (lib_sf_write L output_path reduced_noise sample_rate) ;;
  (if Py.startswith audio_path (temp_dir self)
   then call (CRemove audio_path) (lib_remove L audio_path)
   else ret tt) ;;
  log INFO ("Шумоподавление завершено: " ++ output_path) ;;
  ret output_path.

(** [reduce_noise]: the [ImportError] clause comes first, then the clause
    for every other exception. *)
Definition reduce_noise (self : AudioProcessor) (audio_path : string) : Run string :=
  log INFO ("Подавление шума: " ++ audio_path) ;;
  try_except
    (reduce_noise_try self audio_path)
    any_exception
    (fun e =>
       if is_ImportError e then
         log WARNING "Библиотека noisereduce не установлена. Пропускаем шумоподавление." ;;
         ret audio_path
       else
         log ERROR ("Ошибка шумоподавления: " ++ str_exn e) ;;
         ret audio_path).

(** [process]. *)
Definition process (self : AudioProcessor) (input_path : string)
    (output_dir : option string) : Run AudioInfo :=
  log INFO ("Начало обработки аудио: " ++ input_path) ;;
  (if negb (is_supported_format input_path)
   then raise (mk_exn ValueError ("Неподдерживаемый формат файла: " ++ input_path))
   else ret tt) ;;
  audio_info <- analyze_audio self input_path ;;
  processed_path <- (if is_video_file input_path
                     then extract_audio_from_video self input_path output_dir
                     else prepare_audio_file self input_path output_dir) ;;
  let audio_info := set_processed_path audio_info processed_path in
  normalize <- cfg self "audio_preprocessing" "normalize" ;;
  r <- (if truthy normalize
        then processed_path <- normalize_audio self processed_path ;;
             ret (processed_path, set_processed_path audio_info processed_path)
        else ret (processed_path, audio_info)) ;;
  let processed_path := fst r in
  let audio_info := snd r in
  noise_reduction <- cfg self "audio_preprocessing" "noise_reduction" ;;
  r <- (if truthy noise_reduction
        then processed_path <- reduce_noise self processed_path ;;
             ret (processed_path, set_processed_path audio_info processed_path)
        else ret (processed_path, audio_info)) ;;
  let processed_path := fst r in
  let audio_info := snd r in
  log INFO ("Аудио обработано: " ++ processed_path) ;;
  ret audio_info.

(** The interval, in milliseconds of the recording, that the part starting
    at [i] covers. *)
Definition part_bounds (duration_ms max_duration_ms i : Z) : Z * Z :=
  (i, Z.min (i + max_duration_ms) duration_ms).

(** The body of the loop of [split_large_file]. *)
Definition split_step (audio : AudioSegment) (audio_path : string)
    (duration_ms max_duration_ms : Z) (parts : list string) (i : Z)
    : Run (list string) :=
  let start_ms := fst (part_bounds duration_ms max_duration_ms i) in
  let end_ms := snd (part_bounds duration_ms max_duration_ms i) in
  let part := audio_slice audio start_ms end_ms in
  let part_path :=
    Path.join (Path.parent audio_path)
      (Path.stem audio_path ++ "_part" ++ Py.str_of_Z (i / max_duration_ms) ++ ".wav") in
  call (CExport part part_path) (lib_export L part part_path) ;;
  let parts := parts +++ [part_path] in
  log INFO ("Создана часть " ++ Py.str_of_Z (Py.len parts) ++ ": " ++ part_path) ;;
  ret parts.

(** [split_large_file]; [max_duration] is an [int], 300 by default. *)
Definition split_large_file (self : AudioProcessor) (audio_path : string)
    (max_duration : Z) : Run (list string) :=
  log INFO ("Разделение файла на части: " ++ audio_path) ;;
  try_except
    (audio <- call (CFromFile audio_path) (lib_from_file L audio_path) ;;
     let duration_ms := audio_len audio in
     let max_duration_ms := max_duration * 1000 in
     starts <- lift_res (range 0 duration_ms max_duration_ms) ;;
     parts <- for_each starts []
                (split_step audio audio_path duration_ms max_duration_ms) ;;
     log INFO ("Файл разделен на " ++ Py.str_of_Z (Py.len parts) ++ " частей") ;;
     ret parts)
    any_exception
    (fun e =>
       log ERROR ("Ошибка разделения файла: " ++ str_exn e) ;;
       raise e).

(** [cleanup_temp_files]. *)
Definition cleanup_temp_files (self : AudioProcessor) : Run unit :=
  try_except
    (there <- call (CExists (temp_dir self)) (lib_exists L (temp_dir self)) ;;
     if (there : bool) then
       call (CRmtree (temp_dir self)) (lib_rmtree L (temp_dir self)) ;;
       log INFO ("Временная директория очищена: " ++ temp_dir self)
     else ret tt)
    any_exception
    (fun e =>
       log WARNING ("Не удалось очистить временные файлы: " ++ str_exn e)).

(** [__del__], run by the interpreter when the object is destroyed. *)
Definition del (self : AudioProcessor) : Run unit :=
  cleanup_temp_files self.

End Methods.
End Obrabotka.

(** ** Collaborators of main.py *)

(** The libraries and the components that main.py imports and whose code
    is not part of the sources: the file system and the clock, and the
    transcription manager, the post-processor, the quality checker and the
    formatter manager.  [fmt_float n x] is [f"{x:.nf}"]. *)
Record Env (W : Type) := mk_Env {
  sys_open_yaml : string -> W -> Res yaml * W;
  sys_import : string -> W -> Res unit * W;
  sys_construct : string -> yaml -> W -> Res unit * W;
  sys_mkdir : string -> W -> Res unit * W;
  tm_select_best_provider : Q -> Q -> W -> Res string * W;
  tm_transcribe : string -> string -> option string -> W -> Res Transcription * W;
  pp_process : Transcription -> W -> Res ProcessedData * W;
  qc_check : list Segment -> W -> Res QualityReport * W;
  qc_auto_correct : list Segment -> W -> Res (list Segment) * W;
  fm_format : list Segment -> string -> W -> Res string * W;
  sys_write_text : string -> string -> W -> Res unit * W;
  sys_now : W -> Res string * W;
  sys_glob : string -> string -> W -> Res (list string) * W;
  sys_is_file : string -> W -> Res bool * W;
  sys_path_exists : string -> W -> Res bool * W;
  sys_isdir : string -> W -> Res bool * W;
  fmt_float : nat -> Q -> string
}.
Arguments sys_open_yaml {W}.
Arguments sys_import {W}.
Arguments sys_construct {W}.
Arguments sys_mkdir {W}.
Arguments tm_select_best_provider {W}.
Arguments tm_transcribe {W}.
Arguments pp_process {W}.
Arguments qc_check {W}.
Arguments qc_auto_correct {W}.
Arguments fm_format {W}.
Arguments sys_write_text {W}.
Arguments sys_now {W}.
Arguments sys_glob {W}.
Arguments sys_is_file {W}.
Arguments sys_path_exists {W}.
Arguments sys_isdir {W}.
Arguments fmt_float {W}.

(** The class [AudioProcessor] that main.py imports from the module
    [audio_processor]: a constructor taking the configuration and a method
    [process(input_path, output_dir)]. *)
Record AudioComponent (W : Type) := mk_AudioComponent {
  ac_state : Type;
  ac_init : yaml -> M W AEvent ac_state;
  ac_process : ac_state -> string -> string -> M W AEvent audio_value
}.
Arguments ac_state {W}.
Arguments ac_init {W}.
Arguments ac_process {W}.

(** The class of obrabotka.py in that role: [process] returns the
    [AudioInfo] object. *)
Definition obrabotka_component {W} (L : AEnv W) : AudioComponent W :=
  mk_AudioComponent W Obrabotka.AudioProcessor
    (Obrabotka.init L)
    (fun self input_path output_dir =>
       bind (Obrabotka.process L self input_path (Some output_dir))
            (fun info => ret (AsObject info))).

(** The line feed. *)
Definition nl : string := String (ascii_of_nat 10) EmptyString.

(** ** main.py: class [AutoSubtitleGenerator] and [main] *)

Module Main.

(** The parsed command line. *)
Record Args := mk_Args {
  arg_input : string;
  arg_output : string;
  arg_language : option string;
  arg_provider : string;
  arg_batch : bool;
  arg_config : string
}.

(** [get_default_config]. *)
Definition get_default_config : yaml :=
  YDict [("subtitle_settings",
          YDict [("max_chars_per_line", YInt 42);
                 ("max_lines", YInt 2);
                 ("min_duration", YFloat 1);
                 ("max_duration", YFloat 4)])].

(** [processed_data['segments'] = segments]. *)
Definition set_segments (d : ProcessedData) (segments : list Segment) : ProcessedData :=
  mk_ProcessedData segments (pd_words d).

(** [if l:] for a list. *)
Definition nonempty {A} (l : list A) : bool :=
  match l with [] => false | _ => true end.

Section Methods.
Context {W : Type} (E : Env W) (AC : AudioComponent W).

Local Abbreviation Run := (M W Event).

(** The attributes of an [AutoSubtitleGenerator] that main.py uses. *)
Record Generator := mk_Generator {
  config : yaml;
  audio_processor : ac_state AC
}.

Definition log (l : level) (msg : string) : Run unit :=
  fun w => (Return tt, w, [Log l msg]).

Definition call {A} (c : Call) (f : W -> Res A * W) : Run A :=
  invoke (fun r => Called c (is_ok r)) f.

(** [load_config]: returns the value assigned to [self.config]. *)
Definition load_config (config_path : string) : Run yaml :=
  try_except
    (config <- call (COpenYaml config_path) (sys_open_yaml E config_path) ;;
     log INFO ("Конфигурация загружена из " ++ config_path) ;;
     ret config)
    any_exception
    (fun e =>
       log ERROR ("Ошибка загрузки конфигурации: " ++ str_exn e) ;;
       ret get_default_config).

(** [setup_components]: returns the audio processor it stores. *)
Definition setup_components (config : yaml) : Run (ac_state AC) :=
  call (CImport "audio_processor") (sys_import E "audio_processor") ;;
  call (CImport "transcription_manager") (sys_import E "transcription_manager") ;;
  call (CImport "post_processor") (sys_import E "post_processor") ;;
  call (CImport "formatter_manager") (sys_import E "formatter_manager") ;;
  call (CImport "quality_checker") (sys_import E "quality_checker") ;;
  audio_processor <- within (ac_init AC config) ;;
  call (CConstruct "TranscriptionManager") (sys_construct E "TranscriptionManager" config) ;;
  call (CConstruct "PostProcessor") (sys_construct E "PostProcessor" config) ;;
  call (CConstruct "FormatterManager") (sys_construct E "FormatterManager" config) ;;
  call (CConstruct "QualityChecker") (sys_construct E "QualityChecker" config) ;;
  log INFO "Все компоненты системы инициализированы" ;;
  ret audio_processor.

(** [__init__]. *)
Definition init (config_path : string) : Run Generator :=
  config <- load_config config_path ;;
  audio_processor <- setup_components config ;;
  ret (mk_Generator config audio_processor).

(** [generate_report]. *)
Definition generate_report (report_path : string) (audio_info : audio_value)
    (transcription : Transcription) (processed_data : ProcessedData)
    (quality_report : QualityReport) (output_files : list (string * string))
    : Run unit :=
  source <- lift_res (audio_item source_path audio_info) ;;
  dur <- lift_res (audio_item duration audio_info) ;;
  size <- lift_res (audio_item size_mb audio_info) ;;
  fmt <- lift_res (audio_item format audio_info) ;;
  let report_content :=
    [ Py.repeat "=" 60;
      "ОТЧЕТ О ГЕНЕРАЦИИ СУБТИТРОВ";
      Py.repeat "=" 60;
      nl ++ "Исходный файл: " ++ source;
      "Длительность: " ++ fmt_float E 2 dur ++ " сек";
      "Размер: " ++ fmt_float E 2 size ++ " МБ";
      "Формат: " ++ fmt;
      nl ++ "--- РАСПОЗНАВАНИЕ РЕЧИ ---";
      "Провайдер: " ++ match tr_provider transcription with
                       | Some p => p | None => "unknown" end;
      "Язык: " ++ match tr_language transcription with
                  | Some l => l | None => "auto" end;
      "Распознано слов: " ++ Py.str_of_Z (Py.len (get_words processed_data));
      "Сегментов: " ++ Py.str_of_Z (Py.len (pd_segments processed_data));
      nl ++ "--- КАЧЕСТВО ---";
      "Всего проблем: " ++ Py.str_of_Z (total_issues quality_report);
      "Ошибки: " ++ Py.str_of_Z (Py.len (errors quality_report));
      "Предупреждения: " ++ Py.str_of_Z (Py.len (warnings quality_report)) ] in
  let report_content :=
    if nonempty (warnings quality_report)
    then report_content +++ [nl ++ "Предупреждения:"]
         +++ map (fun warning => "  • " ++ warning)
                 (Py.take 5 (warnings quality_report))
    else report_content in
  let report_content :=
    if nonempty (errors quality_report)
    then report_content +++ [nl ++ "Критические ошибки:"]
         +++ map (fun error => "  • " ++ error)
                 (Py.take 5 (errors quality_report))
    else report_content in
  let report_content :=
    report_content +++ [nl ++ "--- ВЫХОДНЫЕ ФАЙЛЫ ---"]
    +++ map (fun item => Py.upper (fst item) ++ ": " ++ snd item) output_files
    +++ [nl ++ "--- СТАТИСТИКА ---"] in
  let total_chars :=
    sumZ (map (fun s => Py.len_str (seg_text s))
              (pd_segments processed_data)) in
  let report_content :=
    report_content +++ ["Всего символов: " ++ Py.str_of_Z total_chars] in
  dur <- lift_res (audio_item duration audio_info) ;;
  rate <- lift_res (truediv (inject_Z total_chars) dur) ;;
  let report_content :=
    report_content +++ ["Символов/сек: " ++ fmt_float E 1 rate] in
  report_content <-
    (if nonempty (get_words processed_data) then
       dur <- lift_res (audio_item duration audio_info) ;;
       words_per_min <-
         lift_res (truediv (inject_Z (Py.len (get_words processed_data)))
                           (dur / 60)%Q) ;;
       ret (report_content +++ ["Слов/минуту: " ++ fmt_float E 1 words_per_min])
     else ret report_content) ;;
  let report_content := report_content +++ [nl ++ Py.repeat "=" 60] in
  now <- call CNow (sys_now E) ;;
  let report_content := report_content +++ ["Сгенерировано: " ++ now] in
  call (CWriteText report_path (Py.join nl report_content))
       (sys_write_text E report_path (Py.join nl report_content)).

(** The quality stage of [process_file]: the check, and the automatic
    correction when it is needed.  Returns the report and the processed
    data to render. *)
Definition quality_stage (processed_data : ProcessedData)
    : Run (QualityReport * ProcessedData) :=
  log INFO "Этап 4: Проверка качества..." ;;
  quality_report <- invoke (Checked (pd_segments processed_data))
                           (qc_check E (pd_segments processed_data)) ;;
  processed_data <-
    (if 0 <? total_issues quality_report then
       log WARNING ("Обнаружено проблем: "
                    ++ Py.str_of_Z (total_issues quality_report)) ;;
       if nonempty (errors quality_report) then
         segments <- call (CAutoCorrect (pd_segments processed_data))
                          (qc_auto_correct E (pd_segments processed_data)) ;;
         ret (set_segments processed_data segments)
       else ret processed_data
     else ret processed_data) ;;
  ret (quality_report, processed_data).

(** The body of the loop over the enabled formats. *)
Definition render_step (input_path output_dir : string) (segments : list Segment)
    (output_files : list (string * string)) (format_name : string)
    : Run (list (string * string)) :=
  let output_path :=
    Path.join output_dir (Path.stem input_path ++ "." ++ format_name) in
  content <- call (CFormat segments format_name)
                  (fm_format E segments format_name) ;;
  call (CWriteText output_path content) (sys_write_text E output_path content) ;;
  let output_files := dict_set format_name output_path output_files in
  log INFO ("Создан файл: " ++ output_path) ;;
  ret output_files.

(** The [try] block of [process_file]. *)
Definition process_file_try (self : Generator) (input_path output_dir : string)
    (language : option string) (provider : string) : Run FileResult :=
  log INFO ("Начало обработки: " ++ input_path) ;;
  call (CMkdir output_dir) (sys_mkdir E output_dir) ;;
  log INFO "Этап 1: Подготовка аудио..." ;;
  audio_info <- within (ac_process AC (audio_processor self) input_path output_dir) ;;
  provider <-
    (if String.eqb provider "auto" then
       d <- lift_res (audio_item duration audio_info) ;;
       s <- lift_res (audio_item size_mb audio_info) ;;
       call (CSelectBestProvider d s) (tm_select_best_provider E d s)
     else ret provider) ;;
  log INFO ("Выбран провайдер: " ++ provider) ;;
  log INFO "Этап 2: Распознавание речи..." ;;
  path <- lift_res (audio_item processed_path audio_info) ;;
  transcription <- call (CTranscribe path provider language)
                        (tm_transcribe E path provider language) ;;
  log INFO "Этап 3: Пост-обработка текста..." ;;
  processed_data <- call (CPostProcess transcription) (pp_process E transcription) ;;
  checked <- quality_stage processed_data ;;
  let quality_report := fst checked in
  let processed_data := snd checked in
  log INFO "Этап 5: Создание файлов субтитров..." ;;
  enabled <- lift_res (subscript2 (config self) "output_formats" "enabled") ;;
  names <- lift_res (iterate enabled) ;;
  output_files <- for_each names []
                    (render_step input_path output_dir (pd_segments processed_data)) ;;
  let report_path := Path.join output_dir (Path.stem input_path ++ "_report.txt") in
  generate_report report_path audio_info transcription processed_data
                  quality_report output_files ;;
  log INFO "Обработка завершена успешно!" ;;
  ret (Succeeded input_path output_files report_path audio_info
         (mk_Stats (Py.len (get_words processed_data))
                   (Py.len (pd_segments processed_data))
                   provider
                   (match tr_language transcription with
                    | Some l => l | None => "unknown" end))
         quality_report).

(** [process_file]. *)
Definition process_file (self : Generator) (input_path output_dir : string)
    (language : option string) (provider : string) : Run FileResult :=
  try_except
    (process_file_try self input_path output_dir language provider)
    any_exception
    (fun e =>
       log ERROR ("Ошибка при обработке файла: " ++ str_exn e) ;;
       ret (Failed (str_exn e) input_path)).

(** [r['audio_info']['duration']] for a result dict. *)
Definition result_duration (r : FileResult) : Res Q :=
  match r with
  | Succeeded _ _ _ audio_info _ _ => audio_item duration audio_info
  | Failed _ _ => Raise (key_error "audio_info")
  end.

(** [r['transcription_stats']['words']]. *)
Definition result_words (r : FileResult) : Res Z :=
  match r with
  | Succeeded _ _ _ _ stats _ => Return (st_words stats)
  | Failed _ _ => Raise (key_error "transcription_stats")
  end.

(** [r['error']]. *)
Definition result_error (r : FileResult) : Res string :=
  match r with
  | Succeeded _ _ _ _ _ _ => Raise (key_error "error")
  | Failed error _ => Return error
  end.

(** [[f(x) for x in l]] for an [f] that may raise. *)
Fixpoint collect {A B} (f : A -> Res B) (l : list A) : Res (list B) :=
  match l with
  | [] => Return []
  | x :: r =>
      match f x with
      | Raise e => Raise e
      | Return y =>
          match collect f r with
          | Raise e => Raise e
          | Return ys => Return (y :: ys)
          end
      end
  end.

(** The line of the aggregate report for a failed result. *)
Definition failure_line (fail : FileResult) : Res string :=
  match result_error fail with
  | Raise e => Raise e
  | Return error => Return ("  • " ++ result_input_file fail ++ ": " ++ error)
  end.

(** The lines of the aggregate report. *)
Definition batch_report_content (results : list FileResult) : Res (list string) :=
  let successful := filter success results in
  let failed := filter (fun r => negb (success r)) results in
  let report_content :=
    [ Py.repeat "=" 60;
      "СВОДНЫЙ ОТЧЕТ ПАКЕТНОЙ ОБРАБОТКИ";
      Py.repeat "=" 60;
      nl ++ "Всего файлов: " ++ Py.str_of_Z (Py.len results);
      "Успешно: " ++ Py.str_of_Z (Py.len successful);
      "С ошибками: " ++ Py.str_of_Z (Py.len failed);
      nl ++ "--- СТАТИСТИКА ---" ] in
  match
    (if nonempty successful then
       match collect result_duration successful with
       | Raise e => Raise e
       | Return durations =>
           let total_duration := sumQ durations in
           match collect result_words successful with
           | Raise e => Raise e
           | Return words =>
               let total_words := sumZ words in
               match truediv (inject_Z total_words) (total_duration / 60)%Q with
               | Raise e => Raise e
               | Return per_minute =>
                   Return (report_content +++
                     [ "Общая длительность: "
                         ++ fmt_float E 1 (total_duration / 60)%Q ++ " мин";
                       "Всего слов: " ++ Py.str_of_Z total_words;
                       "Слов в минуту: " ++ fmt_float E 1 per_minute ])
               end
           end
       end
     else Return report_content)
  with
  | Raise e => Raise e
  | Return report_content =>
      if nonempty failed then
        match collect failure_line failed with
        | Raise e => Raise e
        | Return lines =>
            Return (report_content +++ [nl ++ "--- ФАЙЛЫ С ОШИБКАМИ ---"] +++ lines)
        end
      else Return report_content
  end.

(** [generate_batch_report]. *)
Definition generate_batch_report (results : list FileResult) (output_dir : string)
    : Run unit :=
  report_content <- lift_res (batch_report_content results) ;;
  let report_path := Path.join output_dir "batch_report.txt" in
  call (CWriteText report_path (Py.join nl report_content))
       (sys_write_text E report_path (Py.join nl report_content)) ;;
  log INFO ("Сводный отчет сохранен: " ++ report_path).

(** The body of the inner loop of [batch_process]. *)
Definition batch_step (self : Generator) (output_dir : string)
    (results : list FileResult) (file_path : string) : Run (list FileResult) :=
  is_file <- call (CIsFile file_path) (sys_is_file E file_path) ;;
  if (is_file : bool) then
    log INFO ("Обработка файла: " ++ file_path) ;;
    result <- process_file self file_path
                (Path.join output_dir (Path.stem file_path)) None "auto" ;;
    ret (results +++ [result])
  else ret results.

Definition default_patterns : list string := ["*.mp3"; "*.wav"; "*.mp4"; "*.m4a"].

(** [batch_process]; [file_patterns] is [None] by default. *)
Definition batch_process (self : Generator) (input_dir output_dir : string)
    (file_patterns : option (list string)) : Run (list FileResult) :=
  let file_patterns :=
    match file_patterns with None => default_patterns | Some l => l end in
  results <- for_each file_patterns []
               (fun results pattern =>
                  files <- call (CGlob input_dir pattern) (sys_glob E input_dir pattern) ;;
                  for_each files results (batch_step self output_dir)) ;;
  generate_batch_report results output_dir ;;
  ret results.

(** [main], after [parse_args]: returns the status it exits with, 0 when
    it runs to its end. *)
Definition main (args : Args) : Run Z :=
  there <- call (CPathExists (arg_input args)) (sys_path_exists E (arg_input args)) ;;
  if negb there then
    log ERROR ("Файл или директория не существует: " ++ arg_input args) ;;
    ret 1
  else
    started <- try_except
                 (generator <- init (arg_config args) ;; ret (Some generator))
                 any_exception
                 (fun e =>
                    log ERROR ("Ошибка инициализации: " ++ str_exn e) ;;
                    ret None) ;;
    match started with
    | None => ret 1
    | Some generator =>
        is_dir <- (if arg_batch args
                   then call (CIsDir (arg_input args)) (sys_isdir E (arg_input args))
                   else ret false) ;;
        if (arg_batch args && is_dir)%bool then
          log INFO ("Пакетная обработка директории: " ++ arg_input args) ;;
          results <- batch_process generator (arg_input args) (arg_output args) None ;;
          let successful := Py.len (filter success results) in
          log INFO ("Обработка завершена. Успешно: " ++ Py.str_of_Z successful
                    ++ "/" ++ Py.str_of_Z (Py.len results)) ;;
          ret 0
        else
          log INFO ("Обработка файла: " ++ arg_input args) ;;
          result <- process_file generator (arg_input args) (arg_output args)
                      (arg_language args) (arg_provider args) ;;
          match result with
          | Succeeded _ output_files _ _ _ _ =>
              log INFO ("Файлы сохранены в: " ++ arg_output args) ;;
              for_each output_files tt
                (fun _ item =>
                   log INFO ("  " ++ Py.upper (fst item) ++ ": " ++ snd item)) ;;
              ret 0
          | Failed error _ =>
              log ERROR ("Ошибка: " ++ error) ;;
              ret 1
          end
    end.

(** The status with which the interpreter ends a run of [main]: the one
    [main] exits with, or 1 after an exception that nothing caught. *)
Definition exit_status {A} (o : Res Z * W * list A) : Z :=
  match result o with
  | Return code => code
  | Raise _ => 1
  end.

End Methods.
End Main.

(** An audio processor that works as the one of obrabotka.py and hands
    the fields of the [AudioInfo] over as a mapping. *)
Definition mapping_component {W} (L : AEnv W) : AudioComponent W :=
  mk_AudioComponent W Obrabotka.AudioProcessor
    (Obrabotka.init L)
    (fun self input_path output_dir =>
       bind (Obrabotka.process L self input_path (Some output_dir))
            (fun info => ret (AsDict info))).

(** ** Stages of a file's pipeline, as [process_file] announces them *)

Inductive Stage := Preparing | Transcribing | PostProcessing | Validating | Rendering.

Definition stage_of_log (msg : string) : option Stage :=
  if String.eqb msg "Этап 1: Подготовка аудио..." then Some Preparing
  else if String.eqb msg "Этап 2: Распознавание речи..." then Some Transcribing
  else if String.eqb msg "Этап 3: Пост-обработка текста..." then Some PostProcessing
  else if String.eqb msg "Этап 4: Проверка качества..." then Some Validating
  else if String.eqb msg "Этап 5: Создание файлов субтитров..." then Some Rendering
  else None.

(** The stage a run is in after the events [evs]: the last one announced. *)
Fixpoint stage_reached (evs : list Event) (current : option Stage) : option Stage :=
  match evs with
  | [] => current
  | Log INFO msg :: r =>
      stage_reached r (match stage_of_log msg with
                       | Some s => Some s
                       | None => current
                       end)
  | _ :: r => stage_reached r current
  end.

(** The event announces the rendering stage. *)
Definition announces_rendering (ev : Event) : bool :=
  match ev with
  | Log INFO msg =>
      match stage_of_log msg with Some Rendering => true | _ => false end
  | _ => false
  end.

(** ** Observations on events *)

Definition is_auto_correct (ev : Event) : bool :=
  match ev with Called (CAutoCorrect _) _ => true | _ => false end.

Definition is_open_yaml (ev : Event) : bool :=
  match ev with Called (COpenYaml _) _ => true | _ => false end.

Definition is_analysis (ev : AEvent) : bool :=
  match ev with ACalled (CSoundFile _) _ => true | _ => false end.

Definition is_rmtree (ev : AEvent) : bool :=
  match ev with ACalled (CRmtree _) _ => true | _ => false end.

(** The paths that a run removed with [os.remove]. *)
Fixpoint removed (evs : list AEvent) : list string :=
  match evs with
  | [] => []
  | ACalled (CRemove p) _ :: r => p :: removed r
  | _ :: r => removed r
  end.

(** The stretches of the recording, in milliseconds, that a run exported
    successfully, in order. *)
Fixpoint exported (evs : list AEvent) : list (Z * Z) :=
  match evs with
  | [] => []
  | ACalled (CExport a _) true :: r => (a_from a, a_to a) :: exported r
  | _ :: r => exported r
  end.

(** An export that failed. *)
Definition failed_export (ev : AEvent) : bool :=
  match ev with ACalled (CExport _ _) false => true | _ => false end.

(** The texts that a run wrote successfully to the file [path]. *)
Fixpoint written (path : string) (evs : list Event) : list string :=
  match evs with
  | [] => []
  | Called (CWriteText p content) true :: r =>
      if String.eqb p path then content :: written path r else written path r
  | _ :: r => written path r
  end.

(** The configuration files that a run opened, in order. *)
Fixpoint opened (evs : list Event) : list string :=
  match evs with
  | [] => []
  | Called (COpenYaml path) _ :: r => path :: opened r
  | _ :: r => opened r
  end.

(** The events of the audio module among those of a run of main.py. *)
Fixpoint audio_events (evs : list Event) : list AEvent :=
  match evs with
  | [] => []
  | Audio a :: r => a :: audio_events r
  | _ :: r => audio_events r
  end.

(** ** A simulated machine

    A small file system (the directories and the files that exist) with
    libraries and components that behave in the simplest way on it.  It is
    used to run the methods on concrete inputs. *)

Module Sim.

Record World := mk_World {
  dirs : list string;
  files : list string
}.

(** What the absent components answer in a scenario. *)
Record Script := mk_Script {
  sc_config : yaml;
  sc_transcribe_error : string -> option exn;
  sc_post_error : option exn;
  sc_report : QualityReport
}.

Definition has_dir (w : World) (p : string) : bool :=
  let p := Path.str p in
  (String.eqb p "." || String.eqb p "/" || String.eqb p "//" || Py.mem p (dirs w))%bool.

Definition has_file (w : World) (p : string) : bool := Py.mem (Path.str p) (files w).

Definition add_file (w : World) (p : string) : World :=
  mk_World (dirs w) (if has_file w p then files w else files w +++ [Path.str p]).

Definition no_such (p : string) : exn :=
  mk_exn FileNotFoundError
         ("[Errno 2] No such file or directory: '" ++ Path.str p ++ "'").

(** Creating or overwriting a file needs its directory. *)
Definition create (p : string) (w : World) : Res unit * World :=
  if has_dir w (Path.parent p) then (Return tt, add_file w p)
  else (Raise (no_such p), w).

(** The ancestors of a path and the path itself, outermost first. *)
Fixpoint prefixes (root : string) (done todo : list string) : list string :=
  match todo with
  | [] => []
  | c :: r => Path.of_parts root (done +++ [c]) :: prefixes root (done +++ [c]) r
  end.

Definition add_dirs (w : World) (l : list string) : World :=
  mk_World (fold_left (fun ds d => if Py.mem d ds then ds else ds +++ [d]) l (dirs w))
           (files w).

(** [Path(p).mkdir(parents=True, exist_ok=True)]. *)
Definition mkdir (p : string) (w : World) : Res unit * World :=
  (Return tt, add_dirs w (prefixes (Path.root p) [] (Path.parts p))).

Definition read {A} (p : string) (a : A) (w : World) : Res A * World :=
  if has_file w p then (Return a, w) else (Raise (no_such p), w).

Definition pure {A} (a : A) (w : World) : Res A * World := (Return a, w).

Definition under (d p : string) : bool :=
  Py.startswith (Path.str p) (Path.str d).

(** The libraries of obrabotka.py: every recording lasts 90 seconds, in
    stereo at 44.1 kHz, and takes 2 MB; noisereduce is not installed. *)
Definition libs : AEnv World :=
  mk_AEnv World
    (fun prefix w =>
       let d := "/tmp/" ++ prefix ++ "0001" in
       (Return d, add_dirs w [d]))
    (fun path => read path 90%Q)
    (fun path => read path (mk_SoundFile 44100 2 3969000 "WAV"))
    (fun path => read path 2097152)
    (fun src dst ac ar w =>
       if has_file w src then create dst w
       else (Raise (mk_exn FfmpegError "ffmpeg error (see stderr output for detail)"), w))
    (fun path => read path (mk_AudioSegment path 0 90000 2 44100))
    (fun a n => pure (mk_AudioSegment (a_source a) (a_from a) (a_to a) n (a_frame_rate a)))
    (fun a rate =>
       match rate with
       | YInt r => pure (mk_AudioSegment (a_source a) (a_from a) (a_to a) (a_channels a) r)
       | _ => fun w => (Raise (mk_exn TypeError "frame rate must be an integer"), w)
       end)
    (fun a path => create path)
    (fun a => pure a)
    (fun path w =>
       if has_file w path
       then (Return tt,
             mk_World (dirs w)
               (filter (fun f => negb (String.eqb f (Path.str path))) (files w)))
       else (Raise (no_such path), w))
    (fun w => (Raise (mk_exn ImportError "No module named 'noisereduce'"), w))
    (fun path => read path (mk_Samples 1 [], 44100))
    (fun a => pure a)
    (fun a sr clip prop => pure a)
    (fun path a sr => create path)
    (fun path w => (Return (has_file w path || has_dir w path)%bool, w))
    (fun path w =>
       if has_dir w path
       then (Return tt,
             mk_World (filter (fun d => negb (under path d)) (dirs w))
                      (filter (fun f => negb (under path f)) (files w)))
       else (Raise (no_such path), w))
    (fun e => Return "No such file or directory").

(** [glob] for the patterns [*.ext]: the files of the directory with that
    extension. *)
Definition glob (dir pattern : string) (w : World) : list string :=
  filter (fun f => (String.eqb (Path.parent f) (Path.str dir)
                    && String.eqb ("*" ++ Path.suffix f) pattern)%bool)
         (files w).

(** [f"{x:.nf}"]: the decimal nearest to [x], a tie going to the even
    digit. *)
Definition show_float (n : nat) (x : Q) : string :=
  let unit := 10 ^ Z.of_nat n in
  let y := (x * inject_Z unit)%Q in
  let below := Qfloor y in
  let twice := Qfloor (2 * y)%Q in
  let scaled :=
    if twice =? 2 * below then below
    else if (Qeq_bool (2 * y)%Q (inject_Z twice) && Z.even below)%bool then below
    else below + 1 in
  let sign := if Qle_bool 0 x then "" else "-" in
  let whole := Z.abs scaled / unit in
  let digits := Py.str_of_Z (Z.abs scaled mod unit) in
  match n with
  | O => sign ++ Py.str_of_Z whole
  | _ => sign ++ Py.str_of_Z whole ++ "."
         ++ Py.repeat "0" (n - String.length digits) ++ digits
  end.

(** The collaborators of main.py: every component can be imported and
    built, the transcription fails where the script says so, the
    post-processor passes the segments on, the quality checker answers with
    the report of the script and corrects nothing. *)
Definition env (sc : Script) : Env World :=
  mk_Env World
    (fun path => read path (sc_config sc))
    (fun module => pure tt)
    (fun class config => pure tt)
    mkdir
    (fun d s => pure "nexara")
    (fun path provider language w =>
       match sc_transcribe_error sc path with
       | Some e => (Raise e, w)
       | None =>
           (Return (mk_Transcription (Some provider) (Some "ru")
                      [mk_Segment 0 (1 # 2) "a"]), w)
       end)
    (fun t w =>
       match sc_post_error sc with
       | Some e => (Raise e, w)
       | None => (Return (mk_ProcessedData (tr_segments t) None), w)
       end)
    (fun segments => pure (sc_report sc))
    (fun segments => pure segments)
    (fun segments name => pure ("subtitles in " ++ name))
    (fun path content => create path)
    (pure "2025-01-01 12:00:00")
    (fun dir pattern w => (Return (glob dir pattern w), w))
    (fun path w => (Return (has_file w path), w))
    (fun path w => (Return (has_file w path || has_dir w path)%bool, w))
    (fun path w => (Return (has_dir w path), w))
    show_float.

Definition full_config : yaml :=
  YDict [("subtitle_settings",
          YDict [("max_chars_per_line", YInt 42); ("max_lines", YInt 2);
                 ("min_duration", YFloat 1); ("max_duration", YFloat 4)]);
         ("audio_preprocessing",
          YDict [("normalize", YBool true); ("noise_reduction", YBool true);
                 ("channels", YInt 1); ("target_sample_rate", YInt 16000)]);
         ("output_formats", YDict [("enabled", YStrList ["srt"; "vtt"])])].

Definition clean_report : QualityReport := mk_QualityReport 0 [] [].

(** The report of the scenario with one segment that is too short. *)
Definition short_report : QualityReport :=
  mk_QualityReport 1 [] ["too-short-duration"].

Definition overlap_report : QualityReport :=
  mk_QualityReport 1 ["overlap"] [].

Definition calm : Script :=
  mk_Script full_config (fun _ => None) None clean_report.

(** A script in which the transcription of one prepared recording fails. *)
Definition failing_on (path : string) (msg : string) : Script :=
  mk_Script full_config
    (fun p => if String.eqb p path then Some (mk_exn RuntimeError msg) else None)
    None clean_report.

Definition failing_post (msg : string) : Script :=
  mk_Script full_config (fun _ => None) (Some (mk_exn RuntimeError msg)) clean_report.

Definition reporting (r : QualityReport) : Script :=
  mk_Script full_config (fun _ => None) None r.

(** A machine with the directory [in] holding the given files and, when
    [with_config] is set, the configuration file. *)
Definition machine (with_config : bool) (inputs : list string) : World :=
  mk_World ["in"] ((if with_config then ["config.yaml"] else []) +++ inputs).

(** The audio processor as [__init__] leaves it on this machine. *)
Definition processor (config : yaml) : Obrabotka.AudioProcessor :=
  Obrabotka.mk_AudioProcessor config "/tmp/subtitle_audio_0001".

(** A generator whose audio processor hands mappings over. *)
Definition generator (config : yaml) : Main.Generator (mapping_component libs) :=
  Main.mk_Generator (mapping_component libs) config (processor config).

(** A generator whose audio processor is the class of obrabotka.py. *)
Definition linked_generator (config : yaml)
    : Main.Generator (obrabotka_component libs) :=
  Main.mk_Generator (obrabotka_component libs) config (processor config).

(** One file processed on a machine that holds it, under a script. *)
Definition run_file (sc : Script) (input_path : string)
    : Res FileResult * World * list Event :=
  Main.process_file (env sc) (mapping_component libs) (generator (sc_config sc))
    input_path "out" None "auto" (machine true [input_path]).

End Sim.

(** ** Vocabulary of the statements *)

(** Every event of every run of [m] satisfies [P]. *)
Definition emits {W Ev A} (P : Ev -> Prop) (m : M W Ev A) : Prop :=
  forall w, Forall P (events (m w)).

(** The event is not a read of the configuration file. *)
Definition loads_nothing (ev : Event) : Prop := is_open_yaml ev = false.

(** The event is not the reading of a file's audio properties. *)
Definition not_analysis (ev : AEvent) : Prop := is_analysis ev = false.

(** The event does not announce the rendering stage. *)
Definition unannounced (ev : Event) : Prop := announces_rendering ev = false.

(** The event removes no directory tree, and no file outside the
    directory [temp]. *)
Definition tidy (temp : string) (ev : AEvent) : bool :=
  match ev with
  | ACalled (CRmtree _) _ => false
  | ACalled (CRemove p) _ => Py.startswith p temp
  | _ => true
  end.

(** The same for an event of main.py. *)
Definition tidy_run (temp : string) (ev : Event) : Prop :=
  match ev with
  | Audio a => tidy temp a = true
  | _ => True
  end.

(** The number of events that satisfy [p]. *)
Definition count_events {Ev} (p : Ev -> bool) (evs : list Ev) : nat :=
  List.length (filter p evs).

(** No run of [m] performs more than [n] events that satisfy [p]. *)
Definition at_most {W Ev A} (n : nat) (p : Ev -> bool) (m : M W Ev A) : Prop :=
  forall w, (count_events p (events (m w)) <= n)%nat.

(** [m] raises in every run. *)
Definition fails {W Ev A} (m : M W Ev A) : Prop :=
  forall w, exists e, result (m w) = Raise e.

(** [m] never raises. *)
Definition total {W Ev A} (m : M W Ev A) : Prop :=
  forall w, exists a, result (m w) = Return a.

(** The quality-related calls of a run of [process_file]. *)
Inductive QualityCall :=
| QCheck (segments : list Segment) (r : Res QualityReport)
| QAutoCorrect (segments : list Segment)
| QFormat (segments : list Segment).

Definition quality_call (ev : Event) : list QualityCall :=
  match ev with
  | Checked s r => [QCheck s r]
  | Called (CAutoCorrect s) _ => [QAutoCorrect s]
  | Called (CFormat s _) _ => [QFormat s]
  | _ => []
  end.

Definition quality_calls (evs : list Event) : list QualityCall :=
  flat_map quality_call evs.

(** The condition under which [process_file] corrects the segments. *)
Definition needs_correction (r : QualityReport) : bool :=
  ((0 <? total_issues r) && Main.nonempty (errors r))%bool.

(** The event is none of the quality-related calls. *)
Definition quality_quiet (ev : Event) : Prop := quality_call ev = [].

(** The event is none of the quality-related calls, or it renders the
    segments [s]. *)
Definition renders_only (s : list Segment) (ev : Event) : Prop :=
  quality_call ev = [] \/ quality_call ev = [QFormat s].

(** The quality-related calls of a run of [process_file] have one of these
    forms: none (the check was not reached); a check that raised; a check
    that asked for no correction, followed by renderings of the checked
    segments; a check that asked for one, followed by the correction of the
    checked segments and by renderings. *)
Definition well_shaped (calls : list QualityCall) : Prop :=
  match calls with
  | [] => True
  | QCheck s (Raise _) :: rest => rest = []
  | QCheck s (Return r) :: rest =>
      if needs_correction r then
        exists rest', rest = QAutoCorrect s :: rest' /\
                      Forall (fun c => exists s', c = QFormat s') rest'
      else Forall (fun c => c = QFormat s) rest
  | _ => False
  end.

(** [ceil(a / b)] for a positive [b]. *)
Definition ceil_div (a b : Z) : Z := (a + b - 1) / b.

(** Part [i] of a recording of [d] milliseconds cut every [step]
    milliseconds: the interval [i * step, min ((i + 1) * step, d)). *)
Definition part_interval (step d i : Z) : Z * Z :=
  (i * step, Z.min ((i + 1) * step) d).

(** The numbers [0, 1, ..., n - 1]. *)
Definition indices (n : Z) : list Z := map Z.of_nat (seq 0 (Z.to_nat n)).

(** The parts of a recording of [d] milliseconds cut every [step]
    milliseconds. *)
Definition parts_of (step d : Z) : list (Z * Z) :=
  map (part_interval step d) (indices (ceil_div d step)).

(** The stretch of the recording that the part starting at [i] is cut
    from. *)
Definition slice_bounds (audio : AudioSegment) (d step i : Z) : Z * Z :=
  let b := Obrabotka.part_bounds d step i in
  (a_from (audio_slice audio (fst b) (snd b)),
   a_to (audio_slice audio (fst b) (snd b))).

(** ** Vocabulary of the further properties *)

(** The event writes to the log or reads a property of a file: it creates,
    changes and removes nothing. *)
Definition reads_only (ev : AEvent) : bool :=
  match ev with
  | ALog _ _ => true
  | ACalled (CGetDuration _) _ => true
  | ACalled (CSoundFile _) _ => true
  | ACalled (CGetSize _) _ => true
  | _ => false
  end.

(** The directory that [extract_audio_from_video] and [prepare_audio_file]
    write to: [output_dir] or, when it is [None], the temporary directory. *)
Definition target_dir (self : Obrabotka.AudioProcessor) (output_dir : option string) : string :=
  match output_dir with None => Obrabotka.temp_dir self | Some d => d end.

(** The file that [normalize_audio] writes for the file [p]. *)
Definition normalized_name (p : string) : string :=
  Path.join (Path.parent p) (Path.stem p ++ "_normalized.wav").

(** The file that [reduce_noise] writes for the file [p]. *)
Definition denoised_name (p : string) : string :=
  Path.join (Path.parent p) (Path.stem p ++ "_denoised.wav").

(** The file that the preparation step of [process] writes for an input. *)
Definition prepared_name (self : Obrabotka.AudioProcessor) (input_path : string)
    (output_dir : option string) : string :=
  Path.join (target_dir self output_dir)
    (Path.stem input_path ++
     (if Obrabotka.is_video_file input_path then "_audio.wav" else "_prepared.wav")).

(** The file of part [k] of a recording that [split_large_file] cuts. *)
Definition part_name (audio_path : string) (k : Z) : string :=
  Path.join (Path.parent audio_path)
    (Path.stem audio_path ++ "_part" ++ Py.str_of_Z k ++ ".wav").

(** The event is an export of audio, successful or not. *)
Definition is_export (ev : AEvent) : bool :=
  match ev with ACalled (CExport _ _) _ => true | _ => false end.

(** The subtitle file of the format [format_name] for an input. *)
Definition output_path (output_dir input_path format_name : string) : string :=
  Path.join output_dir (Path.stem input_path ++ "." ++ format_name).

(** The report of a file. *)
Definition report_path (output_dir input_path : string) : string :=
  Path.join output_dir (Path.stem input_path ++ "_report.txt").

(** [self.config['output_formats']['enabled']], iterated. *)
Definition enabled_formats (config : yaml) : Res (list string) :=
  match subscript2 config "output_formats" "enabled" with
  | Return enabled => iterate enabled
  | Raise e => Raise e
  end.

(** The event is a write that the pipeline of one file may leave: a text
    file is the report of the file or its subtitle file for an enabled
    format, in [output_dir], and [mkdir] is called on [output_dir] only. *)
Definition stays_in (config : yaml) (output_dir input_path : string) (ev : Event)
    : Prop :=
  match ev with
  | Called (CWriteText p _) _ =>
      p = report_path output_dir input_path \/
      exists names fmt,
        enabled_formats config = Return names /\ In fmt names /\
        p = output_path output_dir input_path fmt
  | Called (CMkdir p) _ => p = output_dir
  | _ => True
  end.

(** The event agrees with a request for a transcription in [language] by
    [provider] ([None]: chosen automatically): the best provider is asked for
    only when none is forced, and a transcription uses the language and the
    forced provider. *)
Definition transcribes_with (provider : option string) (language : option string)
    (ev : Event) : Prop :=
  match ev with
  | Called (CSelectBestProvider _ _) _ => provider = None
  | Called (CTranscribe _ p l) _ =>
      l = language /\ match provider with Some forced => p = forced | None => True end
  | _ => True
  end.

(** A text was written successfully to [path]. *)
Definition was_written (path : string) (evs : list Event) : Prop :=
  exists content, In (Called (CWriteText path content) true) evs.

(** The event is no rendering of subtitles and no write of a text file. *)
Definition renders_nothing (ev : Event) : Prop :=
  match ev with
  | Called (CFormat _ _) _ => False
  | Called (CWriteText _ _) _ => False
  | _ => True
  end.

(** Every run of [m] raises, and performs events that satisfy [P] only. *)
Definition inert {W A} (P : Event -> Prop) (m : M W Event A) : Prop :=
  emits P m /\ fails m.

(** The line of the aggregate report for a failed result. *)
Definition failure_text (r : FileResult) : string :=
  match r with
  | Failed error file => "  • " ++ file ++ ": " ++ error
  | Succeeded _ _ _ _ _ _ => ""
  end.

(** The event belongs to the start of the command line: no component is
    built, no directory listed or created, nothing transcribed or written,
    and the audio module is not entered. *)
Definition before_processing (ev : Event) : Prop :=
  match ev with
  | Called (CMkdir _) _ => False
  | Called (CTranscribe _ _ _) _ => False
  | Called (CWriteText _ _) _ => False
  | Called (CGlob _ _) _ => False
  | Called (CConstruct _) _ => False
  | Audio _ => False
  | _ => True
  end.

(** The event respects the layout of a batch: a text file is the aggregate
    report or is left, as by the pipeline of one file, in the directory
    [output_dir/stem] of some file; [mkdir] is called on such directories
    only. *)
Definition batch_layout (config : yaml) (output_dir : string) (ev : Event) : Prop :=
  match ev with
  | Called (CWriteText p _) _ =>
      p = Path.join output_dir "batch_report.txt" \/
      exists file, stays_in config (Path.join output_dir (Path.stem file)) file ev
  | Called (CMkdir p) _ =>
      exists file, stays_in config (Path.join output_dir (Path.stem file)) file ev
  | _ => True
  end.

(** The event is a call of [is_file]. *)
Definition is_file_check (ev : Event) : bool :=
  match ev with Called (CIsFile _) _ => true | _ => false end.

(** The file of the result [r] was checked with [is_file]. *)
Definition looked_at (evs : list Event) (r : FileResult) : Prop :=
  In (Called (CIsFile (result_input_file r)) true) evs.

(** The simulated collaborators on a machine where the component modules
    are not installed: every import raises [ImportError]. *)
Definition without_components (sc : Sim.Script) : Env Sim.World :=
  let E := Sim.env sc in
  mk_Env Sim.World
    (sys_open_yaml E)
    (fun module w =>
       (Raise (mk_exn ImportError ("No module named '" ++ module ++ "'")), w))
    (sys_construct E) (sys_mkdir E) (tm_select_best_provider E) (tm_transcribe E)
    (pp_process E) (qc_check E) (qc_auto_correct E) (fm_format E)
    (sys_write_text E) (sys_now E) (sys_glob E) (sys_is_file E)
    (sys_path_exists E) (sys_isdir E) (fmt_float E).

(** A configuration without the key 'output_formats'. *)
Definition no_formats_config : yaml :=
  YDict [("audio_preprocessing",
          YDict [("normalize", YBool false); ("noise_reduction", YBool false);
                 ("channels", YInt 1); ("target_sample_rate", YInt 16000)])].


(** * Properties *)

(** ** Runs of composed computations *)

Section Runs.
Context {W Ev : Type}.

Lemma result_bind {A B} (m : M W Ev A) (k : A -> M W Ev B) (w : W) :
  result (bind m k w) =
  match result (m w) with
  | Return a => result (k a (world (m w)))
  | Raise e => Raise e
  end.
Proof.
  unfold bind, result, world.
  destruct (m w) as [[[a|e] w1] t1]; simpl; [|reflexivity].
  destruct (k a w1) as [[r w2] t2]; reflexivity.
Qed.

Lemma world_bind {A B} (m : M W Ev A) (k : A -> M W Ev B) (w : W) :
  world (bind m k w) =
  match result (m w) with
  | Return a => world (k a (world (m w)))
  | Raise e => world (m w)
  end.
Proof.
  unfold bind, result, world.
  destruct (m w) as [[[a|e] w1] t1]; simpl; [|reflexivity].
  destruct (k a w1) as [[r w2] t2]; reflexivity.
Qed.

Lemma events_bind {A B} (m : M W Ev A) (k : A -> M W Ev B) (w : W) :
  events (bind m k w) =
  (events (m w) ++
   match result (m w) with
   | Return a => events (k a (world (m w)))
   | Raise e => []
   end)%list.
Proof.
  unfold bind, result, world, events.
  destruct (m w) as [[[a|e] w1] t1]; simpl; [|now rewrite app_nil_r].
  destruct (k a w1) as [[r w2] t2]; reflexivity.
Qed.

Lemma result_try_except {A} (m : M W Ev A) (c : exn -> bool) (h : exn -> M W Ev A) w :
  result (try_except m c h w) =
  match result (m w) with
  | Return a => Return a
  | Raise e => if c e then result (h e (world (m w))) else Raise e
  end.
Proof.
  unfold try_except, result, world.
  destruct (m w) as [[[a|e] w1] t1]; simpl; [reflexivity|].
  destruct (c e); [|reflexivity].
  destruct (h e w1) as [[r w2] t2]; reflexivity.
Qed.

Lemma world_try_except {A} (m : M W Ev A) (c : exn -> bool) (h : exn -> M W Ev A) w :
  world (try_except m c h w) =
  match result (m w) with
  | Return a => world (m w)
  | Raise e => if c e then world (h e (world (m w))) else world (m w)
  end.
Proof.
  unfold try_except, result, world.
  destruct (m w) as [[[a|e] w1] t1]; simpl; [reflexivity|].
  destruct (c e); [|reflexivity].
  destruct (h e w1) as [[r w2] t2]; reflexivity.
Qed.

Lemma events_try_except {A} (m : M W Ev A) (c : exn -> bool) (h : exn -> M W Ev A) w :
  events (try_except m c h w) =
  (events (m w) ++
   match result (m w) with
   | Return a => []
   | Raise e => if c e then events (h e (world (m w))) else []
   end)%list.
Proof.
  unfold try_except, result, world, events.
  destruct (m w) as [[[a|e] w1] t1]; simpl; [now rewrite app_nil_r|].
  destruct (c e); [|now rewrite app_nil_r].
  destruct (h e w1) as [[r w2] t2]; reflexivity.
Qed.

Lemma result_invoke {A} (ev : Res A -> Ev) (f : W -> Res A * W) w :
  result (invoke ev f w) = fst (f w).
Proof. unfold invoke, result. destruct (f w); reflexivity. Qed.

Lemma world_invoke {A} (ev : Res A -> Ev) (f : W -> Res A * W) w :
  world (invoke ev f w) = snd (f w).
Proof. unfold invoke, world. destruct (f w); reflexivity. Qed.

Lemma events_invoke {A} (ev : Res A -> Ev) (f : W -> Res A * W) w :
  events (invoke ev f w) = [ev (fst (f w))].
Proof. unfold invoke, events. destruct (f w); reflexivity. Qed.

(** *** Frame rules for [emits] *)

Lemma emits_ret {A} (P : Ev -> Prop) (a : A) : emits P (ret (W := W) a).
Proof. intros w. constructor. Qed.

Lemma emits_raise {A} (P : Ev -> Prop) e : emits P (raise (W := W) (A := A) e).
Proof. intros w. constructor. Qed.

Lemma emits_lift_res {A} (P : Ev -> Prop) (r : Res A) : emits P (lift_res (W := W) r).
Proof. intros w. constructor. Qed.

Lemma emits_invoke {A} (P : Ev -> Prop) (ev : Res A -> Ev) (f : W -> Res A * W) :
  (forall r, P (ev r)) -> emits P (invoke ev f).
Proof. intros H w. rewrite events_invoke. constructor; [apply H | constructor]. Qed.

Lemma emits_bind {A B} (P : Ev -> Prop) (m : M W Ev A) (k : A -> M W Ev B) :
  emits P m -> (forall a, emits P (k a)) -> emits P (bind m k).
Proof.
  intros Hm Hk w. rewrite events_bind. apply Forall_app. split; [apply Hm|].
  destruct (result (m w)); [apply Hk | constructor].
Qed.

Lemma emits_try_except {A} (P : Ev -> Prop) (m : M W Ev A) c (h : exn -> M W Ev A) :
  emits P m -> (forall e, emits P (h e)) -> emits P (try_except m c h).
Proof.
  intros Hm Hh w. rewrite events_try_except. apply Forall_app. split; [apply Hm|].
  destruct (result (m w)); [constructor|].
  destruct (c e); [apply Hh | constructor].
Qed.

Lemma emits_for_each {A S} (P : Ev -> Prop) (l : list A) (body : S -> A -> M W Ev S) :
  (forall acc x, emits P (body acc x)) -> forall acc, emits P (for_each l acc body).
Proof.
  intros Hb. induction l as [|x r IH]; intros acc; simpl.
  - apply emits_ret.
  - apply emits_bind; [apply Hb | intros a; apply IH].
Qed.

Lemma emits_weaken {A} (P Q : Ev -> Prop) (m : M W Ev A) :
  (forall ev, P ev -> Q ev) -> emits P m -> emits Q m.
Proof. intros H Hm w. eapply Forall_impl; [apply H | apply Hm]. Qed.

End Runs.

Lemma emits_within {W A} (P : Event -> Prop) (m : M W AEvent A) :
  (forall a, P (Audio a)) -> emits P (within m).
Proof.
  intros H w. unfold within, events. destruct (m w) as [[r w1] t]; simpl.
  apply Forall_forall. intros ev Hin. apply in_map_iff in Hin.
  destruct Hin as [a [<- _]]. apply H.
Qed.

Lemma emits_within_audio {W A} (P : AEvent -> Prop) (Q : Event -> Prop)
    (m : M W AEvent A) :
  (forall a, P a -> Q (Audio a)) -> emits P m -> emits Q (within m).
Proof.
  intros H Hm w. specialize (Hm w). unfold within, events in *.
  destruct (m w) as [[r w1] t]; simpl in *.
  apply Forall_forall. intros ev Hin. apply in_map_iff in Hin.
  destruct Hin as [a [<- Ha]]. apply H. rewrite Forall_forall in Hm. now apply Hm.
Qed.

Lemma result_within {W A} (m : M W AEvent A) (w : W) :
  result (within m w) = result (m w).
Proof. unfold within, result. destruct (m w) as [[r w1] t]; reflexivity. Qed.

Lemma world_within {W A} (m : M W AEvent A) (w : W) :
  world (within m w) = world (m w).
Proof. unfold within, world. destruct (m w) as [[r w1] t]; reflexivity. Qed.

Lemma events_within {W A} (m : M W AEvent A) (w : W) :
  events (within m w) = map Audio (events (m w)).
Proof. unfold within, events. destruct (m w) as [[r w1] t]; reflexivity. Qed.

Lemma emits_log_audio {W} (P : AEvent -> Prop) l msg :
  P (ALog l msg) -> emits P (Obrabotka.log (W := W) l msg).
Proof. intros H w. repeat constructor. exact H. Qed.

Lemma emits_log {W} (P : Event -> Prop) l msg :
  P (Log l msg) -> emits P (Main.log (W := W) l msg).
Proof. intros H w. repeat constructor. exact H. Qed.

Lemma result_alog {W} l msg (w : W) : result (Obrabotka.log l msg w) = Return tt.
Proof. reflexivity. Qed.

Lemma world_alog {W} l msg (w : W) : world (Obrabotka.log l msg w) = w.
Proof. reflexivity. Qed.

Lemma result_log {W} l msg (w : W) : result (Main.log l msg w) = Return tt.
Proof. reflexivity. Qed.

Lemma world_log {W} l msg (w : W) : world (Main.log l msg w) = w.
Proof. reflexivity. Qed.

Lemma result_ret {W Ev A} (a : A) (w : W) : result (ret (Ev := Ev) a w) = Return a.
Proof. reflexivity. Qed.

Lemma world_ret {W Ev A} (a : A) (w : W) : world (ret (Ev := Ev) a w) = w.
Proof. reflexivity. Qed.

Lemma result_lift_res {W Ev A} (r : Res A) (w : W) :
  result (lift_res (Ev := Ev) r w) = r.
Proof. reflexivity. Qed.

Lemma world_lift_res {W Ev A} (r : Res A) (w : W) :
  world (lift_res (Ev := Ev) r w) = w.
Proof. reflexivity. Qed.

(** Discharges a frame goal by following the structure of the method. *)
Ltac frame :=
  repeat first
    [ apply emits_ret
    | apply emits_raise
    | apply emits_lift_res
    | apply emits_log; simpl; try easy
    | apply emits_log_audio; simpl; try easy
    | apply emits_invoke; intros; simpl; try easy
    | apply emits_bind; [| intros ?]
    | apply emits_try_except; [| intros ?]
    | apply emits_for_each; intros ? ?
    | apply emits_within; intros; simpl; try easy
    | progress cbv zeta
    | match goal with
      | |- emits _ (if ?b then _ else _) => destruct b
      | |- emits _ (match ?x with _ => _ end) => destruct x
      end ].

(** ** Audio enhancement never aborts the preparation *)

Section Enhancement.
Context {W : Type} (L : AEnv W).

Lemma normalize_audio_result self path w :
  result (Obrabotka.normalize_audio L self path w) =
  match result (Obrabotka.normalize_audio_try L self path
                  (Path.join (Path.parent path)
                             (Path.stem path ++ "_normalized.wav")) w) with
  | Return p => Return p
  | Raise _ => Return path
  end.
Proof.
  unfold Obrabotka.normalize_audio.
  rewrite result_bind, result_alog, world_alog, result_try_except.
  destruct (result (Obrabotka.normalize_audio_try L self path _ w)); reflexivity.
Qed.

Lemma reduce_noise_result self path w :
  result (Obrabotka.reduce_noise L self path w) =
  match result (Obrabotka.reduce_noise_try L self path w) with
  | Return p => Return p
  | Raise _ => Return path
  end.
Proof.
  unfold Obrabotka.reduce_noise.
  rewrite result_bind, result_alog, world_alog, result_try_except.
  destruct (result (Obrabotka.reduce_noise_try L self path w)) as [p|e];
    [reflexivity|].
  unfold any_exception. destruct (is_ImportError e); reflexivity.
Qed.

Lemma reduce_noise_try_import_error self path w e w1 :
  lib_import_noisereduce L w = (Raise e, w1) ->
  result (Obrabotka.reduce_noise_try L self path w) = Raise e.
Proof.
  intros H. unfold Obrabotka.reduce_noise_try, Obrabotka.call.
  rewrite result_bind, result_invoke, H. reflexivity.
Qed.

Lemma normalize_audio_total self path : total (Obrabotka.normalize_audio L self path).
Proof.
  intros w. rewrite normalize_audio_result.
  destruct (result (Obrabotka.normalize_audio_try L self path _ w)); eauto.
Qed.

Lemma reduce_noise_total self path : total (Obrabotka.reduce_noise L self path).
Proof.
  intros w. rewrite reduce_noise_result.
  destruct (result (Obrabotka.reduce_noise_try L self path w)); eauto.
Qed.

End Enhancement.

(** C10: [normalize_audio] and [reduce_noise] never raise to their caller.
    Whatever the libraries do, both return a path; when the body of
    [normalize_audio] fails, when importing noisereduce fails, or when the
    body of [reduce_noise] fails, the path returned is the one that was
    passed in. *)
Theorem enhancement_never_raises {W} (L : AEnv W) self path w :
  (exists p, result (Obrabotka.normalize_audio L self path w) = Return p) /\
  (exists p, result (Obrabotka.reduce_noise L self path w) = Return p) /\
  (forall e,
     result (Obrabotka.normalize_audio_try L self path
               (Path.join (Path.parent path) (Path.stem path ++ "_normalized.wav")) w)
       = Raise e ->
     result (Obrabotka.normalize_audio L self path w) = Return path) /\
  (forall e w1,
     lib_import_noisereduce L w = (Raise e, w1) ->
     result (Obrabotka.reduce_noise L self path w) = Return path) /\
  (forall e,
     result (Obrabotka.reduce_noise_try L self path w) = Raise e ->
     result (Obrabotka.reduce_noise L self path w) = Return path).
Proof.
  repeat split.
  - apply normalize_audio_total.
  - apply reduce_noise_total.
  - intros e H. rewrite normalize_audio_result, H. reflexivity.
  - intros e w1 H. rewrite reduce_noise_result.
    rewrite (reduce_noise_try_import_error L self path w e w1 H). reflexivity.
  - intros e H. rewrite reduce_noise_result, H. reflexivity.
Qed.

(** ** Counting events *)

Section Counting.
Context {W Ev : Type} (p : Ev -> bool).

Lemma count_events_app (l1 l2 : list Ev) :
  count_events p (l1 ++ l2) = (count_events p l1 + count_events p l2)%nat.
Proof. unfold count_events. now rewrite filter_app, length_app. Qed.

Lemma count_events_none (l : list Ev) :
  Forall (fun ev => p ev = false) l -> count_events p l = 0%nat.
Proof.
  unfold count_events. induction 1 as [|ev r H _ IH]; simpl; [reflexivity|].
  now rewrite H.
Qed.

Lemma at_most_silent {A} (m : M W Ev A) :
  emits (fun ev => p ev = false) m -> at_most 0 p m.
Proof. intros H w. rewrite count_events_none; [lia | apply H]. Qed.

Lemma at_most_le {A} n n' (m : M W Ev A) :
  (n <= n')%nat -> at_most n p m -> at_most n' p m.
Proof. intros Hle H w. specialize (H w). lia. Qed.

Lemma at_most_bind {A B} n n' (m : M W Ev A) (k : A -> M W Ev B) :
  at_most n p m -> (forall a, at_most n' p (k a)) -> at_most (n + n') p (bind m k).
Proof.
  intros Hm Hk w. rewrite events_bind, count_events_app.
  specialize (Hm w). destruct (result (m w)) as [a|e].
  - specialize (Hk a (world (m w))). lia.
  - unfold count_events in *. simpl. lia.
Qed.

Lemma at_most_try_except {A} n n' (m : M W Ev A) c (h : exn -> M W Ev A) :
  at_most n p m -> (forall e, at_most n' p (h e)) ->
  at_most (n + n') p (try_except m c h).
Proof.
  intros Hm Hh w. rewrite events_try_except, count_events_app.
  specialize (Hm w). destruct (result (m w)) as [a|e]; [unfold count_events in *; simpl; lia|].
  destruct (c e); [|unfold count_events in *; simpl; lia].
  specialize (Hh e (world (m w))). lia.
Qed.

Lemma at_most_invoke {A} (ev : Res A -> Ev) (f : W -> Res A * W) :
  at_most 1 p (invoke ev f).
Proof.
  intros w. rewrite events_invoke. unfold count_events. simpl.
  destruct (p (ev (fst (f w)))); simpl; lia.
Qed.

End Counting.

(** ** The configuration is loaded once, with a fallback *)

Section Configuration.
Context {W : Type} (E : Env W) (AC : AudioComponent W).

Lemma generate_report_loads_nothing path a t d q f :
  emits loads_nothing (Main.generate_report E path a t d q f).
Proof. unfold Main.generate_report, Main.call, loads_nothing. frame. Qed.

Lemma process_file_loads_nothing self input_path output_dir language provider :
  emits loads_nothing
        (Main.process_file E AC self input_path output_dir language provider).
Proof.
  unfold Main.process_file, Main.process_file_try.
  apply emits_try_except; [| intros e; unfold loads_nothing; frame].
  repeat (apply emits_bind; [| intros ?]);
    try apply generate_report_loads_nothing;
    unfold Main.quality_stage, Main.render_step, Main.call, loads_nothing; frame.
Qed.

Lemma batch_process_loads_nothing self input_dir output_dir patterns :
  emits loads_nothing (Main.batch_process E AC self input_dir output_dir patterns).
Proof.
  unfold Main.batch_process, Main.batch_step, Main.generate_batch_report.
  repeat first
    [ apply process_file_loads_nothing
    | apply emits_bind; [| intros ?]
    | apply emits_for_each; intros ? ?
    | progress cbv zeta
    | match goal with
      | |- emits _ (if ?b then _ else _) => destruct b
      end
    | (unfold Main.call, loads_nothing; frame; fail) ].
Qed.

Lemma load_config_result config_path w :
  result (Main.load_config E config_path w) =
  match fst (sys_open_yaml E config_path w) with
  | Return c => Return c
  | Raise _ => Return Main.get_default_config
  end.
Proof.
  unfold Main.load_config, Main.call.
  rewrite result_try_except, result_bind, result_invoke.
  destruct (fst (sys_open_yaml E config_path w)); reflexivity.
Qed.

Lemma load_config_at_most_once config_path :
  at_most 1 is_open_yaml (Main.load_config E config_path).
Proof.
  unfold Main.load_config, Main.call.
  apply (at_most_try_except is_open_yaml 1 0).
  - apply (at_most_bind is_open_yaml 1 0); [apply at_most_invoke|].
    intros c. apply at_most_silent. frame.
  - intros e. apply at_most_silent. frame.
Qed.

Lemma setup_components_loads_nothing c :
  emits loads_nothing (Main.setup_components E AC c).
Proof. unfold Main.setup_components, Main.call, loads_nothing. frame. Qed.

Lemma init_at_most_once config_path :
  at_most 1 is_open_yaml (Main.init E AC config_path).
Proof.
  unfold Main.init.
  apply (at_most_bind is_open_yaml 1 0); [apply load_config_at_most_once|].
  intros c. apply at_most_silent.
  apply emits_bind; [apply setup_components_loads_nothing | intros a; frame].
Qed.

Lemma main_at_most_once args : at_most 1 is_open_yaml (Main.main E AC args).
Proof.
  unfold Main.main.
  apply (at_most_bind is_open_yaml 0 1).
  { apply at_most_silent. unfold Main.call. frame. }
  intros there. destruct (negb there).
  { apply (at_most_le is_open_yaml 0); [lia|]. apply at_most_silent. frame. }
  apply (at_most_bind is_open_yaml 1 0).
  { apply (at_most_try_except is_open_yaml 1 0).
    - apply (at_most_bind is_open_yaml 1 0); [apply init_at_most_once|].
      intros g. apply at_most_silent. frame.
    - intros e. apply at_most_silent. frame. }
  intros [g|]; [| apply at_most_silent; frame].
  apply at_most_silent.
  apply emits_bind; [unfold Main.call; frame | intros is_dir].
  destruct (Main.arg_batch args && is_dir)%bool.
  - apply emits_bind; [frame | intros _].
    apply emits_bind; [apply batch_process_loads_nothing | intros results; frame].
  - apply emits_bind; [frame | intros _].
    apply emits_bind; [apply process_file_loads_nothing | intros r; frame].
Qed.

Lemma init_config config_path w g :
  result (Main.init E AC config_path w) = Return g ->
  result (Main.load_config E config_path w) = Return (Main.config AC g).
Proof.
  unfold Main.init. rewrite result_bind.
  destruct (result (Main.load_config E config_path w)) as [c|e]; [|discriminate].
  rewrite result_bind.
  destruct (result (Main.setup_components E AC c _)); [|discriminate].
  rewrite result_ret. intros H. injection H as <-. reflexivity.
Qed.

Lemma opened_app (l1 l2 : list Event) :
  opened (l1 ++ l2) = (opened l1 ++ opened l2)%list.
Proof.
  induction l1 as [|ev r IH]; [reflexivity|].
  destruct ev as [? ? | [] ? | ? ? | ?]; simpl; rewrite IH; reflexivity.
Qed.

Lemma opened_none (l : list Event) : Forall loads_nothing l -> opened l = [].
Proof.
  induction 1 as [|ev r H _ IH]; [reflexivity|].
  destruct ev as [? ? | [] ? | ? ? | ?]; simpl; try exact IH.
  discriminate H.
Qed.

Lemma opened_bind_left {A B} (m : M W Event A) (k : A -> M W Event B) w :
  (forall a, emits loads_nothing (k a)) ->
  opened (events (bind m k w)) = opened (events (m w)).
Proof.
  intros Hk. rewrite events_bind, opened_app.
  destruct (result (m w)) as [a|e]; [| now rewrite app_nil_r].
  rewrite (opened_none _ (Hk a _)). now rewrite app_nil_r.
Qed.

Lemma opened_bind_right {A B} (m : M W Event A) (k : A -> M W Event B) w :
  emits loads_nothing m ->
  opened (events (bind m k w)) =
  match result (m w) with
  | Return a => opened (events (k a (world (m w))))
  | Raise _ => []
  end.
Proof.
  intros Hm. rewrite events_bind, opened_app, (opened_none _ (Hm w)).
  destruct (result (m w)); reflexivity.
Qed.

Lemma opened_try_except {A} (m : M W Event A) c (h : exn -> M W Event A) w :
  (forall e, emits loads_nothing (h e)) ->
  opened (events (try_except m c h w)) = opened (events (m w)).
Proof.
  intros Hh. rewrite events_try_except, opened_app.
  destruct (result (m w)) as [a|e]; [now rewrite app_nil_r|].
  destruct (c e); [| now rewrite app_nil_r].
  rewrite (opened_none _ (Hh e _)). now rewrite app_nil_r.
Qed.

Lemma load_config_opens config_path w :
  opened (events (Main.load_config E config_path w)) = [config_path].
Proof.
  unfold Main.load_config.
  rewrite opened_try_except by (intros e; unfold loads_nothing; frame).
  rewrite opened_bind_left by (intros c; unfold loads_nothing; frame).
  unfold Main.call. rewrite events_invoke. reflexivity.
Qed.

Lemma init_opens config_path w :
  opened (events (Main.init E AC config_path w)) = [config_path].
Proof.
  unfold Main.init. rewrite opened_bind_left; [apply load_config_opens|].
  intros c. apply emits_bind; [apply setup_components_loads_nothing | intros a; frame].
Qed.

Lemma main_opens args w :
  opened (events (Main.main E AC args w)) =
  match fst (sys_path_exists E (Main.arg_input args) w) with
  | Return true => [Main.arg_config args]
  | _ => []
  end.
Proof.
  unfold Main.main.
  rewrite opened_bind_right by (unfold Main.call, loads_nothing; frame).
  unfold Main.call at 1 2. rewrite result_invoke.
  destruct (fst (sys_path_exists E (Main.arg_input args) w)) as [[|]|e];
    [| | reflexivity].
  - cbn [negb].
    rewrite opened_bind_left.
    + rewrite opened_try_except by (intros e; unfold loads_nothing; frame).
      rewrite opened_bind_left by (intros g; unfold loads_nothing; frame).
      apply init_opens.
    + intros [g|]; [| unfold loads_nothing; frame].
      apply emits_bind; [unfold Main.call, loads_nothing; frame | intros is_dir].
      destruct (Main.arg_batch args && is_dir)%bool.
      * apply emits_bind; [unfold loads_nothing; frame | intros _].
        apply emits_bind; [apply batch_process_loads_nothing
                          | intros results; unfold loads_nothing; frame].
      * apply emits_bind; [unfold loads_nothing; frame | intros _].
        apply emits_bind; [apply process_file_loads_nothing
                          | intros r; unfold loads_nothing; frame].
  - cbn [negb]. apply opened_none.
    match goal with
    | |- Forall _ (events (?m ?w0)) =>
        cut (emits loads_nothing m); [intros H; apply H | unfold loads_nothing; frame]
    end.
Qed.

End Configuration.

(** C6: [load_config] never raises.  When reading the configuration file
    fails, whatever the reason, it installs the built-in default
    configuration, and the generator that [__init__] builds carries that
    default; when the file is read, the value read is installed, and the
    generator carries it.  [load_config] opens the configuration file once
    and opens no other file, and so does [__init__]; a run of [main] opens
    the file named on the command line once when the input exists, and no
    file otherwise; neither [process_file] nor [batch_process] opens one. *)
Theorem config_loaded_once_with_fallback {W} (E : Env W) (AC : AudioComponent W)
    (config_path : string) (w : W) :
  (exists c, result (Main.load_config E config_path w) = Return c) /\
  (forall e w1,
     sys_open_yaml E config_path w = (Raise e, w1) ->
     result (Main.load_config E config_path w) = Return Main.get_default_config /\
     forall g, result (Main.init E AC config_path w) = Return g ->
               Main.config AC g = Main.get_default_config) /\
  (forall args, at_most 1 is_open_yaml (Main.main E AC args)) /\
  (forall self input_path output_dir language provider,
     at_most 0 is_open_yaml
       (Main.process_file E AC self input_path output_dir language provider)) /\
  (forall self input_dir output_dir patterns,
     at_most 0 is_open_yaml
       (Main.batch_process E AC self input_dir output_dir patterns)) /\
  (forall c w1,
     sys_open_yaml E config_path w = (Return c, w1) ->
     result (Main.load_config E config_path w) = Return c /\
     forall g, result (Main.init E AC config_path w) = Return g ->
               Main.config AC g = c) /\
  opened (events (Main.load_config E config_path w)) = [config_path] /\
  opened (events (Main.init E AC config_path w)) = [config_path] /\
  (forall args,
     opened (events (Main.main E AC args w)) =
     match fst (sys_path_exists E (Main.arg_input args) w) with
     | Return true => [Main.arg_config args]
     | _ => []
     end).
Proof.
  split; [| split; [| split; [| split; [| split; [| split; [| split; [| split]]]]]]].
  - rewrite load_config_result.
    destruct (fst (sys_open_yaml E config_path w)); eauto.
  - intros e w1 H.
    assert (Hl : result (Main.load_config E config_path w)
                 = Return Main.get_default_config).
    { rewrite load_config_result, H. reflexivity. }
    split; [exact Hl|].
    intros g Hg. apply init_config in Hg. rewrite Hl in Hg.
    now injection Hg as <-.
  - intros args. apply main_at_most_once.
  - intros. apply at_most_silent. apply process_file_loads_nothing.
  - intros. apply at_most_silent. apply batch_process_loads_nothing.
  - intros c w1 H.
    assert (Hl : result (Main.load_config E config_path w) = Return c).
    { rewrite load_config_result, H. reflexivity. }
    split; [exact Hl|].
    intros g Hg. apply init_config in Hg. rewrite Hl in Hg.
    now injection Hg as <-.
  - apply load_config_opens.
  - apply init_opens.
  - intros args. apply main_opens.
Qed.

(** ** Automatic correction is run exactly when the report has errors *)

Section Quality.
Context {W : Type} (E : Env W) (AC : AudioComponent W).

Lemma quality_calls_app (l1 l2 : list Event) :
  quality_calls (l1 ++ l2) = (quality_calls l1 ++ quality_calls l2)%list.
Proof. apply flat_map_app. Qed.

Lemma quality_calls_quiet (evs : list Event) :
  Forall quality_quiet evs -> quality_calls evs = [].
Proof.
  induction 1 as [|ev r H _ IH]; simpl; [reflexivity|].
  unfold quality_quiet in H. now rewrite H, IH.
Qed.

Lemma quality_calls_renders s (evs : list Event) :
  Forall (renders_only s) evs -> Forall (fun c => c = QFormat s) (quality_calls evs).
Proof.
  induction 1 as [|ev r H _ IH]; simpl; [constructor|].
  destruct H as [-> | ->]; simpl; [exact IH | constructor; [reflexivity | exact IH]].
Qed.

(** A step without quality-related calls can be skipped. *)
Lemma skip_quiet {A B} (P : list QualityCall -> Prop)
    (m : M W Event A) (k : A -> M W Event B) (w : W) :
  emits quality_quiet m ->
  P [] ->
  (forall a w', P (quality_calls (events (k a w')))) ->
  P (quality_calls (events (bind m k w))).
Proof.
  intros Hm Hnil Hk. rewrite events_bind, quality_calls_app.
  rewrite (quality_calls_quiet _ (Hm w)). simpl.
  destruct (result (m w)); [apply Hk | exact Hnil].
Qed.

Lemma quality_stage_run (d : ProcessedData) (w : W) :
  let s := pd_segments d in
  match qc_check E s w with
  | (Raise e, _) =>
      result (Main.quality_stage E d w) = Raise e /\
      quality_calls (events (Main.quality_stage E d w)) = [QCheck s (Raise e)]
  | (Return r, w1) =>
      if needs_correction r then
        quality_calls (events (Main.quality_stage E d w))
          = [QCheck s (Return r); QAutoCorrect s] /\
        result (Main.quality_stage E d w)
          = match fst (qc_auto_correct E s w1) with
            | Return s' => Return (r, Main.set_segments d s')
            | Raise e => Raise e
            end
      else
        quality_calls (events (Main.quality_stage E d w)) = [QCheck s (Return r)] /\
        result (Main.quality_stage E d w) = Return (r, d)
  end.
Proof.
  unfold Main.quality_stage, Main.call, needs_correction, bind, invoke, Main.log,
    ret, result, events.
  cbv zeta.
  destruct (qc_check E (pd_segments d) w) as [[r|e] w1]; [|split; reflexivity].
  destruct (0 <? total_issues r); [|split; reflexivity].
  destruct (errors r) as [|x l]; [split; reflexivity|].
  cbn [Main.nonempty andb].
  destruct (qc_auto_correct E (pd_segments d) w1) as [[s'|e] w2]; split; reflexivity.
Qed.

Lemma generate_report_quiet path a t d q f :
  emits quality_quiet (Main.generate_report E path a t d q f).
Proof. unfold Main.generate_report, Main.call, quality_quiet. frame. Qed.

Lemma rendering_renders_only input_path output_dir s names acc :
  emits (renders_only s)
        (for_each names acc (Main.render_step E input_path output_dir s)).
Proof.
  apply emits_for_each. intros files name.
  unfold Main.render_step, Main.call, renders_only. frame; auto.
Qed.

Lemma run_emits {A} (P : Event -> Prop) (m : M W Event A) (w : W) :
  emits P m -> Forall P (events (m w)).
Proof. intros H. apply H. Qed.

(** What follows the quality stage renders the segments it is given. *)
Ltac rendering_frame :=
  repeat first
    [ apply rendering_renders_only
    | apply emits_bind; [| intros ?]
    | (eapply emits_weaken; [| apply generate_report_quiet];
       let H := fresh in intros ? H; left; exact H)
    | solve [unfold renders_only; frame; auto] ].

Lemma process_file_well_shaped self input_path output_dir language provider w :
  well_shaped
    (quality_calls
       (events (Main.process_file E AC self input_path output_dir language provider w))).
Proof.
  unfold Main.process_file. rewrite events_try_except, quality_calls_app.
  match goal with
  | |- well_shaped (_ ++ quality_calls ?h) =>
      assert (Hh : quality_calls h = [])
  end.
  { destruct (result _); [reflexivity|].
    unfold any_exception. apply quality_calls_quiet.
    apply run_emits. unfold quality_quiet. frame. }
  rewrite Hh, app_nil_r. clear Hh.
  unfold Main.process_file_try.
  repeat (apply skip_quiet;
          [ solve [unfold Main.call, quality_quiet; frame] | exact I | intros ? ? ]).
  rewrite events_bind, quality_calls_app.
  match goal with
  | |- context [Main.quality_stage E ?d ?w0] =>
      pose proof (quality_stage_run d w0) as Hq; cbv zeta in Hq;
      destruct (qc_check E (pd_segments d) w0) as [[r|e] w1]
  end.
  2:{ destruct Hq as [Hr Hc]. rewrite Hr, Hc. reflexivity. }
  destruct (needs_correction r) eqn:Hn; destruct Hq as [Hc Hr]; rewrite Hc, Hr.
  - simpl. rewrite Hn.
    eexists. split; [reflexivity|].
    destruct (fst (qc_auto_correct E _ w1)) as [s'|e]; [|constructor].
    match goal with
    | |- Forall _ (quality_calls (events (?m ?w0))) =>
        assert (Hk : emits (renders_only s') m) by rendering_frame
    end.
    eapply Forall_impl; [| apply quality_calls_renders, Hk].
    intros c ->. eauto.
  - simpl. rewrite Hn.
    match goal with
    | |- Forall (fun c => c = QFormat ?s) (quality_calls (events (?m ?w0))) =>
        assert (Hk : emits (renders_only s) m) by rendering_frame
    end.
    apply quality_calls_renders, Hk.
Qed.

End Quality.

(** C3: in every run of [process_file], the automatic correction of the
    quality checker is called, on the checked segments, if and only if the
    check returned a report with [total_issues > 0] and a non-empty list of
    errors; and when the report has no errors (warnings only, for instance
    one too-short-duration warning), every rendering is given the segments
    that were checked, unchanged. *)
Theorem auto_correction_iff_errors {W} (E : Env W) (AC : AudioComponent W)
    self input_path output_dir language provider (w : W) :
  let calls :=
    quality_calls
      (events (Main.process_file E AC self input_path output_dir language provider w)) in
  (forall s,
     In (QAutoCorrect s) calls <->
     exists r, In (QCheck s (Return r)) calls /\
               0 < total_issues r /\ errors r <> []) /\
  (forall s r,
     In (QCheck s (Return r)) calls -> errors r = [] ->
     forall s', In (QFormat s') calls -> s' = s).
Proof.
  intros calls.
  pose proof (process_file_well_shaped E AC self input_path output_dir
                language provider w) as H.
  fold calls in H. clearbody calls.
  destruct calls as [|c rest].
  { split; [intros s; split; [intros [] | intros [r [[] _]]] | intros s r []]. }
  destruct c as [s0 [r0|e0] | s0 | s0]; simpl in H; try contradiction.
  2:{ subst rest. split.
      - intros s; split.
        + intros [Hin | []]; discriminate.
        + intros [r [[Hin | []] _]]; discriminate.
      - intros s r [Hin | []]; discriminate. }
  assert (Hcond : needs_correction r0 = true <->
                  0 < total_issues r0 /\ errors r0 <> []).
  { unfold needs_correction. rewrite andb_true_iff, Z.ltb_lt.
    destruct (errors r0); simpl; split; intros [H1 H2];
      (split; [exact H1|]); congruence. }
  destruct (needs_correction r0) eqn:Hn.
  - destruct H as [rest' [-> Hrest]].
    assert (Hfmt : forall c, In c rest' -> exists s', c = QFormat s').
    { apply Forall_forall. exact Hrest. }
    split.
    + intros s; split.
      * intros [Hin | [Hin | Hin]]; try discriminate.
        -- injection Hin as <-. exists r0. split; [left; reflexivity|].
           now apply Hcond.
        -- apply Hfmt in Hin. destruct Hin as [s' Hs']. discriminate.
      * intros [r [[Hin | [Hin | Hin]] _]]; try discriminate.
        -- injection Hin as <- _. right. left. reflexivity.
        -- apply Hfmt in Hin. destruct Hin as [s' Hs']. discriminate.
    + intros s r [Hin | [Hin | Hin]] Herr; try discriminate.
      * injection Hin as <- <-.
        destruct Hcond as [Hc _]. destruct (Hc eq_refl) as [_ Hne]. contradiction.
      * apply Hfmt in Hin. destruct Hin as [s' Hs']. discriminate.
  - assert (Hfmt : forall c, In c rest -> c = QFormat s0).
    { apply Forall_forall. exact H. }
    split.
    + intros s; split.
      * intros [Hin | Hin]; [discriminate|].
        apply Hfmt in Hin. discriminate.
      * intros [r [[Hin | Hin] Hc]].
        -- injection Hin as <- <-. apply Hcond in Hc. discriminate.
        -- apply Hfmt in Hin. discriminate.
    + intros s r [Hin | Hin] Herr.
      * injection Hin as <- <-.
        intros s' [Hs | Hs]; [discriminate|].
        apply Hfmt in Hs. now injection Hs.
      * apply Hfmt in Hin. discriminate.
Qed.

(** ** Failures of a file are turned into a failed result *)

Section Failures.
Context {W : Type} (E : Env W) (AC : AudioComponent W).

Lemma process_file_result self input_path output_dir language provider w :
  result (Main.process_file E AC self input_path output_dir language provider w) =
  match result (Main.process_file_try E AC self input_path output_dir
                  language provider w) with
  | Return r => Return r
  | Raise e => Return (Failed (str_exn e) input_path)
  end.
Proof.
  unfold Main.process_file. rewrite result_try_except.
  destruct (result (Main.process_file_try E AC self input_path output_dir
                      language provider w)); reflexivity.
Qed.

Lemma process_file_total self input_path output_dir language provider :
  total (Main.process_file E AC self input_path output_dir language provider).
Proof.
  intros w. rewrite process_file_result.
  destruct (result (Main.process_file_try E AC self input_path output_dir
                      language provider w)); eauto.
Qed.

End Failures.

(** C1, as the code has it: when any step of the processing of a file
    raises an exception [e], [process_file] does not propagate it; it
    returns the failed result whose 'input_file' is the path of the file and
    whose 'error' is the text of [e].  The result records no stage. *)
Theorem process_file_failure {W} (E : Env W) (AC : AudioComponent W)
    self input_path output_dir language provider (w : W) (e : exn) :
  result (Main.process_file_try E AC self input_path output_dir language provider w)
    = Raise e ->
  let r := Failed (str_exn e) input_path in
  result (Main.process_file E AC self input_path output_dir language provider w)
    = Return r /\
  success r = false /\ result_input_file r = input_path /\
  Main.result_error r = Return (str_exn e).
Proof.
  intros H r. rewrite process_file_result, H. repeat split.
Qed.

Lemma process_file_failure_witness :
  result (Main.process_file_try (Sim.env (Sim.failing_post "quota exhausted"))
            (mapping_component Sim.libs) (Sim.generator Sim.full_config)
            "in/talk.mp3" "out" None "auto" (Sim.machine true ["in/talk.mp3"]))
    = Raise (mk_exn RuntimeError "quota exhausted") /\
  result (Sim.run_file (Sim.failing_post "quota exhausted") "in/talk.mp3")
    = Return (Failed "quota exhausted" "in/talk.mp3").
Proof.
  split; [vm_compute; reflexivity|].
  apply (process_file_failure (Sim.env (Sim.failing_post "quota exhausted"))
           (mapping_component Sim.libs) (Sim.generator Sim.full_config)
           "in/talk.mp3" "out" None "auto" (Sim.machine true ["in/talk.mp3"])
           (mk_exn RuntimeError "quota exhausted")).
  vm_compute; reflexivity.
Defined.

(** C1, as stated, fails: a transcription that fails and a post-processing
    that fails with the same text, for the same file, give the same result,
    although the first run stopped in the stage "Этап 2" and the second in
    the stage "Этап 3"; so nothing computed from the result tells the stage
    at which the processing failed. *)
Lemma failed_result_hides_stage :
  let first := Sim.run_file (Sim.failing_on "out/talk_prepared_normalized.wav"
                                            "quota exhausted") "in/talk.mp3" in
  let second := Sim.run_file (Sim.failing_post "quota exhausted") "in/talk.mp3" in
  result first = Return (Failed "quota exhausted" "in/talk.mp3") /\
  result second = Return (Failed "quota exhausted" "in/talk.mp3") /\
  stage_reached (events first) None = Some Transcribing /\
  stage_reached (events second) None = Some PostProcessing /\
  ~ exists stage_of : Res FileResult -> option Stage,
      stage_of (result first) = stage_reached (events first) None /\
      stage_of (result second) = stage_reached (events second) None.
Proof.
  intros first second.
  assert (H1 : result first = Return (Failed "quota exhausted" "in/talk.mp3"))
    by (vm_compute; reflexivity).
  assert (H2 : result second = Return (Failed "quota exhausted" "in/talk.mp3"))
    by (vm_compute; reflexivity).
  assert (H3 : stage_reached (events first) None = Some Transcribing)
    by (vm_compute; reflexivity).
  assert (H4 : stage_reached (events second) None = Some PostProcessing)
    by (vm_compute; reflexivity).
  repeat split; try assumption.
  intros [stage_of [Ha Hb]].
  rewrite H1, H3 in Ha. rewrite H2, H4 in Hb. congruence.
Qed.

(** ** Cutting a long recording into parts *)

Lemma ceil_div_pos x step : 0 < step -> 0 < x -> ceil_div x step = ceil_div (x - step) step + 1.
Proof.
  intros Hs Hx. unfold ceil_div.
  replace (x + step - 1) with ((x - step + step - 1) + 1 * step) by lia.
  rewrite Z.div_add by lia. reflexivity.
Qed.

Lemma ceil_div_nonpos x step : 0 < step -> x <= 0 -> ceil_div x step <= 0.
Proof.
  intros Hs Hx. unfold ceil_div.
  assert ((x + step - 1) / step < 1); [|lia].
  apply Z.div_lt_upper_bound; lia.
Qed.

Lemma ceil_div_nonneg x step : 0 < step -> 0 <= x -> 0 <= ceil_div x step.
Proof.
  intros Hs Hx. unfold ceil_div. apply Z.div_pos; lia.
Qed.

Lemma range_up_spec fuel : forall i stop step,
  0 < step -> stop - i <= Z.of_nat fuel ->
  range_up fuel i stop step =
  map (fun k => i + k * step) (indices (ceil_div (stop - i) step)).
Proof.
  induction fuel as [|f IH]; intros i stop step Hs Hf.
  - simpl. unfold indices.
    assert (H := ceil_div_nonpos (stop - i) step Hs ltac:(lia)).
    replace (Z.to_nat (ceil_div (stop - i) step)) with 0%nat by lia. reflexivity.
  - simpl. destruct (i <? stop) eqn:Hlt.
    + apply Z.ltb_lt in Hlt.
      rewrite (ceil_div_pos (stop - i) step) by lia.
      assert (Hn := ceil_div_nonneg (stop - i - step + step - 1 + 1) step Hs ltac:(lia)).
      assert (0 <= ceil_div (stop - i - step) step).
      { unfold ceil_div. apply Z.div_pos; lia. }
      unfold indices.
      replace (Z.to_nat (ceil_div (stop - i - step) step + 1))
        with (S (Z.to_nat (ceil_div (stop - i - step) step))) by lia.
      simpl. f_equal; [lia|].
      rewrite IH by lia.
      replace (stop - (i + step)) with (stop - i - step) by lia.
      unfold indices. rewrite <- seq_shift, !map_map.
      apply map_ext. intros k. lia.
    + apply Z.ltb_ge in Hlt.
      assert (H := ceil_div_nonpos (stop - i) step Hs ltac:(lia)).
      unfold indices.
      replace (Z.to_nat (ceil_div (stop - i) step)) with 0%nat by lia. reflexivity.
Qed.

Lemma range_spec d step : 0 < step -> 0 <= d ->
  range 0 d step = Return (map (fun k => k * step) (indices (ceil_div d step))).
Proof.
  intros Hs Hd. unfold range.
  replace (step =? 0) with false by (symmetry; apply Z.eqb_neq; lia).
  replace (0 <? step) with true by (symmetry; apply Z.ltb_lt; lia).
  rewrite range_up_spec by lia.
  rewrite Z.sub_0_r. f_equal.
Qed.

Lemma exported_app l1 l2 : exported (l1 ++ l2) = (exported l1 ++ exported l2)%list.
Proof.
  induction l1 as [|ev r IH]; simpl; [reflexivity|].
  destruct ev as [|c ok]; [exact IH|].
  destruct c; try exact IH. destruct ok; simpl; [now rewrite IH | exact IH].
Qed.

Section Split.
Context {W : Type} (L : AEnv W).

Lemma split_step_run audio path d step parts i w :
  let o := Obrabotka.split_step L audio path d step parts i w in
  (existsb failed_export (events o) = false ->
   (exists parts', result o = Return parts' /\
                   List.length parts' = S (List.length parts))) /\
  exported (events o) =
    (if existsb failed_export (events o) then [] else [slice_bounds audio d step i]).
Proof.
  unfold Obrabotka.split_step, Obrabotka.call, Obrabotka.log, bind, invoke, ret,
    result, events, slice_bounds.
  cbv zeta.
  destruct (lib_export L _ _ w) as [[[]|e] w1]; simpl.
  - split; [|reflexivity]. intros _. eexists. split; [reflexivity|].
    rewrite length_app. simpl. lia.
  - split; [discriminate | reflexivity].
Qed.

Lemma split_loop audio path d step : forall starts acc w,
  let o := for_each starts acc (Obrabotka.split_step L audio path d step) w in
  existsb failed_export (events o) = false ->
  (exists parts, result o = Return parts /\
                 List.length parts = (List.length acc + List.length starts)%nat) /\
  exported (events o) = map (slice_bounds audio d step) starts.
Proof.
  induction starts as [|i r IH]; intros acc w o Hok.
  - subst o. simpl. split; [|reflexivity]. exists acc. split; [reflexivity|lia].
  - subst o. simpl for_each in *.
    rewrite events_bind, existsb_app in Hok.
    apply orb_false_iff in Hok. destruct Hok as [Hstep Hrest].
    destruct (split_step_run audio path d step acc i w) as [Hres Hexp].
    cbv zeta in Hres, Hexp. rewrite Hstep in Hexp.
    destruct (Hres Hstep) as [parts' [Hr Hlen]].
    rewrite Hr in Hrest.
    rewrite result_bind, events_bind, exported_app, Hr, Hexp.
    destruct (IH parts' _ Hrest) as [[parts [Hres' Hlen']] Hexp'].
    split.
    + exists parts. split; [exact Hres'|]. rewrite Hlen', Hlen. simpl. lia.
    + simpl. f_equal. exact Hexp'.
Qed.
End Split.

Lemma ceil_div_mul_lt d step k :
  0 < step -> 0 <= k < ceil_div d step -> k * step < d.
Proof.
  intros Hs [Hk0 Hk].
  destruct (Z_le_gt_dec d 0) as [Hd|Hd].
  - pose proof (ceil_div_nonpos d step Hs Hd). lia.
  - rewrite (ceil_div_pos d step) in Hk by lia.
    unfold ceil_div in Hk.
    replace (d - step + step - 1) with (d - 1) in Hk by lia.
    assert (k <= (d - 1) / step) by lia.
    assert ((d - 1) / step * step <= d - 1).
    { rewrite Z.mul_comm. apply Z.mul_div_le. lia. }
    nia.
Qed.

Lemma ceil_div_mul_ge d step : 0 < step -> d <= ceil_div d step * step.
Proof.
  intros Hs. unfold ceil_div.
  pose proof (Z.mod_pos_bound (d + step - 1) step Hs).
  pose proof (Z.div_mod (d + step - 1) step ltac:(lia)).
  nia.
Qed.

Lemma In_indices n k : In k (indices n) <-> 0 <= k < n.
Proof.
  unfold indices. rewrite in_map_iff. split.
  - intros [x [<- Hin]]. apply in_seq in Hin. lia.
  - intros H. exists (Z.to_nat k). split; [lia|]. apply in_seq. lia.
Qed.

Lemma length_indices n : List.length (indices n) = Z.to_nat n.
Proof. unfold indices. now rewrite length_map, length_seq. Qed.

Lemma parts_geometry d step :
  0 < step -> 0 <= d ->
  (forall i, 0 <= i < ceil_div d step ->
     0 <= fst (part_interval step d i) < snd (part_interval step d i) /\
     snd (part_interval step d i) <= d /\
     snd (part_interval step d i) - fst (part_interval step d i) <= step) /\
  (forall i, 0 <= i -> i + 1 < ceil_div d step ->
     snd (part_interval step d i) = fst (part_interval step d (i + 1))) /\
  (forall i j, 0 <= i < j -> j < ceil_div d step ->
     snd (part_interval step d i) <= fst (part_interval step d j)) /\
  (forall t, 0 <= t < d ->
     exists i, 0 <= i < ceil_div d step /\
               fst (part_interval step d i) <= t < snd (part_interval step d i)).
Proof.
  intros Hs Hd. unfold part_interval; simpl.
  split; [| split; [| split]].
  - intros i Hi.
    pose proof (ceil_div_mul_lt d step i Hs Hi).
    assert (0 <= i * step) by nia.
    assert ((i + 1) * step = i * step + step) by ring.
    lia.
  - intros i Hi0 Hi.
    pose proof (ceil_div_mul_lt d step (i + 1) Hs ltac:(lia)). lia.
  - intros i j Hij Hj.
    assert ((i + 1) * step <= j * step) by nia. lia.
  - intros t Ht. exists (t / step).
    pose proof (Z.mod_pos_bound t step Hs).
    pose proof (Z.div_mod t step ltac:(lia)).
    assert (0 <= t / step) by (apply Z.div_pos; lia).
    pose proof (ceil_div_mul_ge d step Hs).
    split; [nia|]. split; [nia|].
    apply Z.min_glb_lt; nia.
Qed.

(** C9: for a recording of [d] milliseconds and [max_duration = m > 0]
    seconds, when the recording can be decoded and no export fails,
    [split_large_file] returns exactly [ceil (d / (1000 * m))] paths; the
    parts exported are, in order, the intervals
    [i * 1000 * m, min ((i + 1) * 1000 * m, d)) of the recording; each
    is non-empty and at most [m] seconds long, consecutive parts are
    contiguous, distinct parts are disjoint, and every millisecond of the
    recording lies in a part. *)
Theorem split_large_file_parts {W} (L : AEnv W) self path m w audio w1 :
  0 < m ->
  lib_from_file L path w = (Return audio, w1) ->
  0 <= audio_len audio ->
  existsb failed_export (events (Obrabotka.split_large_file L self path m w)) = false ->
  let d := audio_len audio in
  let step := m * 1000 in
  let n := ceil_div d step in
  (exists parts,
     result (Obrabotka.split_large_file L self path m w) = Return parts /\
     Py.len parts = n) /\
  exported (events (Obrabotka.split_large_file L self path m w)) =
    map (fun b => (a_from audio + fst b, a_from audio + snd b)) (parts_of step d) /\
  (forall i, 0 <= i < n ->
     0 <= fst (part_interval step d i) < snd (part_interval step d i) /\
     snd (part_interval step d i) <= d /\
     snd (part_interval step d i) - fst (part_interval step d i) <= m * 1000) /\
  (forall i, 0 <= i -> i + 1 < n ->
     snd (part_interval step d i) = fst (part_interval step d (i + 1))) /\
  (forall i j, 0 <= i < j -> j < n ->
     snd (part_interval step d i) <= fst (part_interval step d j)) /\
  (forall t, 0 <= t < d ->
     exists i, 0 <= i < n /\
               fst (part_interval step d i) <= t < snd (part_interval step d i)).
Proof.
  intros Hm Hfrom Hd Hok d step n. subst n step d.
  assert (Hs : 0 < m * 1000) by lia.
  split; [| split; [| exact (parts_geometry _ _ Hs Hd)]].
  all: pose proof (split_loop L audio path (audio_len audio) (m * 1000)
                     (map (fun k => k * (m * 1000))
                          (indices (ceil_div (audio_len audio) (m * 1000))))
                     [] w1) as Hl.
  all: revert Hok Hl.
  all: unfold Obrabotka.split_large_file, Obrabotka.call, try_except, bind, invoke,
         Obrabotka.log, lift_res, ret, raise, result, events.
  all: cbv zeta; rewrite Hfrom.
  all: rewrite (range_spec (audio_len audio) (m * 1000) Hs Hd).
  all: destruct (for_each _ _ _ w1) as [[[parts|e] w2] t]; simpl.
  all: rewrite ?app_nil_r, existsb_app; intros Hok Hl.
  all: apply orb_false_iff in Hok; destruct Hok as [Hok _].
  all: destruct (Hl Hok) as [[parts' [Hres Hlen]] Hexp]; try discriminate.
  - exists parts. split; [reflexivity|].
    injection Hres as <-. unfold Py.len.
    rewrite Hlen, length_map, length_indices.
    pose proof (ceil_div_nonneg (audio_len audio) (m * 1000) Hs Hd). lia.
  - rewrite exported_app, Hexp. simpl. rewrite app_nil_r.
    unfold parts_of. rewrite !map_map.
    apply map_ext_in. intros k Hk. apply In_indices in Hk.
    pose proof (ceil_div_mul_lt (audio_len audio) (m * 1000) k Hs Hk) as Hlt.
    unfold slice_bounds, Obrabotka.part_bounds, part_interval, audio_slice. simpl.
    assert (0 <= k * (m * 1000)) by nia.
    assert ((k + 1) * (m * 1000) = k * (m * 1000) + m * 1000) by ring.
    f_equal; lia.
Qed.

Lemma split_large_file_parts_witness :
  exists parts,
    result (Obrabotka.split_large_file Sim.libs (Sim.processor Sim.full_config)
              "in/talk.mp3" 40 (Sim.machine false ["in/talk.mp3"]))
      = Return parts /\
    Py.len parts = 3.
Proof.
  refine (proj1 (split_large_file_parts Sim.libs (Sim.processor Sim.full_config)
                   "in/talk.mp3" 40 (Sim.machine false ["in/talk.mp3"])
                   (mk_AudioSegment "in/talk.mp3" 0 90000 2 44100)
                   (Sim.machine false ["in/talk.mp3"]) _ _ _ _)).
  - lia.
  - reflexivity.
  - unfold audio_len. simpl. lia.
  - vm_compute. reflexivity.
Defined.

(** ** The audio information of a file *)

Section Info.
Context {W : Type} (L : AEnv W).

Lemma analyze_audio_run self path w created :
  result (Obrabotka.analyze_audio L self path w) = Return created ->
  processed_path created = "" /\ source_path created = path /\
  count_events is_analysis (events (Obrabotka.analyze_audio L self path w)) = 1%nat.
Proof.
  unfold Obrabotka.analyze_audio, Obrabotka.call, try_except, bind, invoke, ret,
    raise, Obrabotka.log, result, events, count_events.
  destruct (lib_get_duration L path w) as [[dur|e] w1]; simpl; [|discriminate].
  destruct (lib_soundfile L path w1) as [[f|e] w2]; simpl; [|discriminate].
  destruct (lib_getsize L path w2) as [[size|e] w3]; simpl; [|discriminate].
  intros H. injection H as <-. simpl. repeat split.
Qed.

Lemma preparation_not_analysis self path output_dir :
  emits not_analysis
    (if Obrabotka.is_video_file path
     then Obrabotka.extract_audio_from_video L self path output_dir
     else Obrabotka.prepare_audio_file L self path output_dir).
Proof.
  unfold Obrabotka.extract_audio_from_video, Obrabotka.prepare_audio_file,
    Obrabotka.cfg, Obrabotka.call, not_analysis.
  frame.
Qed.

Lemma normalize_audio_not_analysis self path :
  emits not_analysis (Obrabotka.normalize_audio L self path).
Proof.
  unfold Obrabotka.normalize_audio, Obrabotka.normalize_audio_try, Obrabotka.call,
    not_analysis.
  frame.
Qed.

Lemma reduce_noise_not_analysis self path :
  emits not_analysis (Obrabotka.reduce_noise L self path).
Proof.
  unfold Obrabotka.reduce_noise, Obrabotka.reduce_noise_try, Obrabotka.call,
    not_analysis.
  frame.
Qed.

Lemma process_run self input_path output_dir w info :
  result (Obrabotka.process L self input_path output_dir w) = Return info ->
  exists created p,
    result (Obrabotka.analyze_audio L self input_path w) = Return created /\
    info = set_processed_path created p /\
    count_events is_analysis (events (Obrabotka.process L self input_path output_dir w))
      = 1%nat.
Proof.
  unfold Obrabotka.process.
  rewrite result_bind, result_alog, world_alog.
  rewrite events_bind, result_alog, world_alog, count_events_app.
  rewrite result_bind, events_bind, count_events_app.
  destruct (negb (Obrabotka.is_supported_format input_path)); [discriminate|].
  rewrite result_ret, world_ret.
  rewrite result_bind, events_bind, count_events_app.
  destruct (result (Obrabotka.analyze_audio L self input_path w)) as [created|e] eqn:Ha;
    [|discriminate].
  destruct (analyze_audio_run self input_path w created Ha) as [_ [_ Hc]].
  rewrite Hc.
  match goal with
  | |- result (bind ?m ?k ?w0) = _ -> _ =>
      assert (Hrest : emits not_analysis (bind m k))
  end.
  { apply emits_bind; [apply preparation_not_analysis | intros p].
    cbv zeta. unfold Obrabotka.cfg.
    repeat first
      [ apply normalize_audio_not_analysis
      | apply reduce_noise_not_analysis
      | apply emits_bind; [| intros ?]
      | solve [unfold not_analysis; frame] ]. }
  match goal with
  | |- result (bind ?m ?k ?w0) = _ -> _ =>
      rewrite (count_events_none is_analysis _ (Hrest w0))
  end.
  intros H. exists created.
  assert (Hinfo : exists p, info = set_processed_path created p).
  { revert H. generalize (world (Obrabotka.analyze_audio L self input_path w)).
    intros w1. unfold Obrabotka.cfg.
    rewrite result_bind.
    match goal with
    | |- match result (?m ?w2) with _ => _ end = _ -> _ =>
        destruct (result (m w2)) as [p0|]; [|discriminate]
    end.
    rewrite result_bind, result_lift_res, world_lift_res.
    destruct (subscript2 _ _ "normalize") as [normalize|]; [|discriminate].
    rewrite result_bind.
    match goal with
    | |- match result (?m ?w2) with _ => _ end = _ -> _ =>
        assert (Hn : match result (m w2) with
                     | Return r => exists p, snd r = set_processed_path created p
                     | Raise _ => True
                     end)
    end.
    { destruct (truthy normalize).
      - rewrite result_bind.
        destruct (result (Obrabotka.normalize_audio L self p0 _)) as [p1|]; [|exact I].
        rewrite result_ret. exists p1. reflexivity.
      - rewrite result_ret. exists p0. reflexivity. }
    revert Hn.
    match goal with
    | |- match result (?m ?w2) with _ => _ end -> _ =>
        destruct (result (m w2)) as [r|]; [|discriminate]
    end.
    intros [p1 Hp1].
    rewrite result_bind, result_lift_res, world_lift_res.
    destruct (subscript2 _ _ "noise_reduction") as [noise_reduction|]; [|discriminate].
    rewrite result_bind.
    match goal with
    | |- match result (?m ?w2) with _ => _ end = _ -> _ =>
        assert (Hr : match result (m w2) with
                     | Return r => exists p, snd r = set_processed_path created p
                     | Raise _ => True
                     end)
    end.
    { destruct (truthy noise_reduction).
      - rewrite result_bind.
        destruct (result (Obrabotka.reduce_noise L self (fst r) _)) as [p2|]; [|exact I].
        rewrite result_ret. exists p2. simpl. rewrite Hp1. reflexivity.
      - rewrite result_ret. exists p1. exact Hp1. }
    revert Hr.
    match goal with
    | |- match result (?m ?w2) with _ => _ end -> _ =>
        destruct (result (m w2)) as [r0|]; [|discriminate]
    end.
    intros [p2 Hp2].
    rewrite result_bind, result_alog, world_alog, result_ret.
    intros H. injection H as <-. exists p2. exact Hp2. }
  destruct Hinfo as [p Hp]. exists p.
  split; [reflexivity|]. split; [exact Hp|]. reflexivity.
Qed.
End Info.

(** C4, as the code has it: a run of [process] that returns builds one
    [AudioInfo], in [analyze_audio], with an empty processed path; the
    value returned differs from the one built at most in [processed_path],
    which [process] assigns afterwards; the other six fields are never
    assigned. *)
Theorem audio_info_only_path_assigned {W} (L : AEnv W) self input_path output_dir
    (w : W) (info : AudioInfo) :
  result (Obrabotka.process L self input_path output_dir w) = Return info ->
  exists created,
    result (Obrabotka.analyze_audio L self input_path w) = Return created /\
    processed_path created = "" /\
    source_path info = source_path created /\
    duration info = duration created /\
    sample_rate info = sample_rate created /\
    channels info = channels created /\
    format info = format created /\
    size_mb info = size_mb created /\
    count_events is_analysis
      (events (Obrabotka.process L self input_path output_dir w)) = 1%nat.
Proof.
  intros H.
  destruct (process_run L self input_path output_dir w info H)
    as [created [p [Ha [Hi Hc]]]].
  exists created. split; [exact Ha|].
  destruct (analyze_audio_run L self input_path w created Ha) as [Hp _].
  split; [exact Hp|]. subst info. repeat split. exact Hc.
Qed.

Lemma audio_info_only_path_assigned_witness :
  let w := Sim.mk_World ["in"; "out"] ["in/talk.mp3"] in
  let self := Sim.processor Sim.full_config in
  exists created,
    result (Obrabotka.analyze_audio Sim.libs self "in/talk.mp3" w) = Return created /\
    processed_path created = "" /\
    source_path created = "in/talk.mp3" /\
    count_events is_analysis
      (events (Obrabotka.process Sim.libs self "in/talk.mp3" (Some "out") w)) = 1%nat.
Proof.
  intros w self.
  destruct (audio_info_only_path_assigned Sim.libs self "in/talk.mp3" (Some "out") w
              (mk_AudioInfo "in/talk.mp3" "out/talk_prepared_normalized.wav"
                 90 44100 2 "WAV" (2097152 # 1048576)))
    as [created [Ha [Hp [Hs [_ [_ [_ [_ [_ Hc]]]]]]]]].
  - vm_compute. reflexivity.
  - exists created.
    split; [exact Ha|]. split; [exact Hp|]. split; [now rewrite <- Hs | exact Hc].
Defined.

(** C4, as stated, fails: on a recording that is prepared and normalised,
    the [AudioInfo] is built with an empty processed path and is returned
    with the path of the normalised file in that field. *)
Lemma processed_path_assigned_after_creation :
  let w := Sim.mk_World ["in"; "out"] ["in/talk.mp3"] in
  let self := Sim.processor Sim.full_config in
  exists created info,
    result (Obrabotka.analyze_audio Sim.libs self "in/talk.mp3" w) = Return created /\
    result (Obrabotka.process Sim.libs self "in/talk.mp3" (Some "out") w)
      = Return info /\
    processed_path created = "" /\
    processed_path info = "out/talk_prepared_normalized.wav" /\
    info <> created.
Proof.
  exists (mk_AudioInfo "in/talk.mp3" "" 90 44100 2 "WAV" (2097152 # 1048576)).
  exists (mk_AudioInfo "in/talk.mp3" "out/talk_prepared_normalized.wav"
            90 44100 2 "WAV" (2097152 # 1048576)).
  split; [vm_compute; reflexivity|].
  split; [vm_compute; reflexivity|].
  split; [reflexivity|]. split; [reflexivity|]. discriminate.
Qed.

(** ** The exit status of the command line *)

Lemma for_each_log_result {W A} (msg : A -> string) (l : list A) (w : W) :
  result (for_each l tt (fun _ item => Main.log INFO (msg item)) w) = Return tt.
Proof.
  revert w. induction l as [|x r IH]; intros w; simpl; [reflexivity|].
  rewrite result_bind, result_log, world_log. apply IH.
Qed.

(** C5, as the code has it: [main] ends with status 1 when the input path
    does not exist, when building the generator fails, and, for a single
    file, when the result of [process_file] is a failure; it ends with
    status 0 when the single file succeeds and, in batch mode, whenever
    [batch_process] returns, whatever the number of files that succeeded
    (an exception that escapes ends the run with status 1). *)
Theorem exit_status_cases {W} (E : Env W) (AC : AudioComponent W)
    (args : Main.Args) (w : W) :
  let status := Main.exit_status (Main.main E AC args w) in
  match sys_path_exists E (Main.arg_input args) w with
  | (Raise _, _) => status = 1
  | (Return false, _) => status = 1
  | (Return true, w1) =>
      match Main.init E AC (Main.arg_config args) w1 with
      | (Raise _, _, _) => status = 1
      | (Return generator, w2, _) =>
          match (if Main.arg_batch args
                 then sys_isdir E (Main.arg_input args) w2
                 else (Return false, w2)) with
          | (Raise _, _) => status = 1
          | (Return is_dir, w3) =>
              if (Main.arg_batch args && is_dir)%bool then
                status =
                  if is_ok (result (Main.batch_process E AC generator
                                      (Main.arg_input args) (Main.arg_output args)
                                      None w3))
                  then 0 else 1
              else
                status =
                  match result (Main.process_file E AC generator
                                  (Main.arg_input args) (Main.arg_output args)
                                  (Main.arg_language args) (Main.arg_provider args)
                                  w3) with
                  | Return r => if success r then 0 else 1
                  | Raise _ => 1
                  end
          end
      end
  end.
Proof.
  unfold Main.main, Main.exit_status, Main.call, Main.log, try_except, bind, invoke,
    ret, result.
  destruct (sys_path_exists E (Main.arg_input args) w) as [[[|]|e] w1]; simpl;
    try reflexivity.
  destruct (Main.init E AC (Main.arg_config args) w1) as [[[g|e] w2] t]; simpl;
    try reflexivity.
  destruct (Main.arg_batch args); simpl.
  - destruct (sys_isdir E (Main.arg_input args) w2) as [[[|]|e] w3]; simpl;
      try reflexivity.
    + destruct (Main.batch_process E AC g _ _ None w3) as [[[rs|e] w4] t4];
        reflexivity.
    + destruct (Main.process_file E AC g _ _ _ _ w3) as [[[r|e] w4] t4]; simpl;
        [|reflexivity].
      destruct r as [f files rep a st q | err f]; simpl; [|reflexivity].
      match goal with
      | |- context [for_each files tt ?body w4] =>
          assert (Hf : result (for_each files tt body w4) = Return tt)
            by apply for_each_log_result
      end.
      unfold result in Hf.
      destruct (for_each files tt _ w4) as [[[u|e] w5] t5];
        [reflexivity | discriminate Hf].
  - destruct (Main.process_file E AC g _ _ _ _ w2) as [[[r|e] w4] t4]; simpl;
      [|reflexivity].
    destruct r as [f files rep a st q | err f]; simpl; [|reflexivity].
    match goal with
    | |- context [for_each files tt ?body w4] =>
        assert (Hf : result (for_each files tt body w4) = Return tt)
          by apply for_each_log_result
    end.
    unfold result in Hf.
    destruct (for_each files tt _ w4) as [[[u|e] w5] t5];
      [reflexivity | discriminate Hf].
Qed.

(** C5, as stated, fails on both sides.  With the input file and the
    configuration in place and a generator that is built, a single file
    whose processing fails ends the run with status 1; and a batch in which
    no file succeeds ends it with status 0. *)
Lemma exit_status_not_as_claimed :
  let E := Sim.env (Sim.failing_post "quota exhausted") in
  let AC := mapping_component Sim.libs in
  let w := Sim.machine true ["in/talk.mp3"; "in/more.wav"] in
  let single := Main.mk_Args "in/talk.mp3" "out" None "auto" false "config.yaml" in
  let batch := Main.mk_Args "in" "out" None "auto" true "config.yaml" in
  fst (sys_path_exists E "in/talk.mp3" w) = Return true /\
  result (Main.init E AC "config.yaml" w) = Return (Sim.generator Sim.full_config) /\
  Main.exit_status (Main.main E AC single w) = 1 /\
  result (Main.batch_process E AC (Sim.generator Sim.full_config) "in" "out" None
            (world (Main.init E AC "config.yaml" w)))
    = Return [Failed "quota exhausted" "in/talk.mp3";
              Failed "quota exhausted" "in/more.wav"] /\
  Main.exit_status (Main.main E AC batch w) = 0.
Proof.
  intros E AC w single batch.
  split; [reflexivity|].
  split; [reflexivity|].
  split; [vm_compute; reflexivity|].
  split; vm_compute; reflexivity.
Qed.

(** ** The built-in default configuration *)

Section Failing.
Context {W Ev : Type}.

Lemma fails_raise {A} e : fails (raise (W := W) (Ev := Ev) (A := A) e).
Proof. intros w. exists e. reflexivity. Qed.

Lemma fails_lift_res {A} e : fails (lift_res (W := W) (Ev := Ev) (A := A) (Raise e)).
Proof. intros w. exists e. reflexivity. Qed.

Lemma fails_bind_left {A B} (m : M W Ev A) (k : A -> M W Ev B) :
  fails m -> fails (bind m k).
Proof.
  intros H w. destruct (H w) as [e He]. exists e. now rewrite result_bind, He.
Qed.

Lemma fails_bind_right {A B} (m : M W Ev A) (k : A -> M W Ev B) :
  (forall a, fails (k a)) -> fails (bind m k).
Proof.
  intros H w. rewrite result_bind.
  destruct (result (m w)) as [a|e]; [apply H | eauto].
Qed.

(** A handler that raises again lets the failure through. *)
Lemma fails_try_except {A} (m : M W Ev A) c (h : exn -> M W Ev A) :
  fails m -> (forall e, fails (h e)) -> fails (try_except m c h).
Proof.
  intros Hm Hh w. rewrite result_try_except.
  destruct (Hm w) as [e He]. rewrite He.
  destruct (c e); [apply Hh | eauto].
Qed.

End Failing.

Section DefaultConfig.
Context {W : Type}.

Lemma process_file_try_fails (E : Env W) (AC : AudioComponent W) self
    input_path output_dir language provider :
  Main.config AC self = Main.get_default_config ->
  fails (Main.process_file_try E AC self input_path output_dir language provider).
Proof.
  intros Hc. unfold Main.process_file_try. rewrite Hc.
  repeat first
    [ solve [apply fails_bind_left; apply fails_lift_res]
    | apply fails_bind_right; intros ? ].
Qed.

Lemma preparation_fails (L : AEnv W) self path output_dir :
  Obrabotka.config self = Main.get_default_config ->
  fails (if Obrabotka.is_video_file path
         then Obrabotka.extract_audio_from_video L self path output_dir
         else Obrabotka.prepare_audio_file L self path output_dir).
Proof.
  intros Hc.
  destruct (Obrabotka.is_video_file path).
  - unfold Obrabotka.extract_audio_from_video, Obrabotka.cfg. rewrite Hc.
    apply fails_bind_right; intros _. cbv zeta.
    apply fails_try_except.
    + apply fails_bind_left. apply fails_lift_res.
    + intros e. repeat (apply fails_bind_right; intros ?). apply fails_raise.
  - unfold Obrabotka.prepare_audio_file, Obrabotka.cfg. rewrite Hc.
    apply fails_bind_right; intros _. cbv zeta.
    apply fails_try_except.
    + apply fails_bind_right; intros audio.
      apply fails_bind_left. apply fails_lift_res.
    + intros e. apply fails_bind_right; intros _. apply fails_raise.
Qed.

Lemma process_fails (L : AEnv W) self input_path output_dir :
  Obrabotka.config self = Main.get_default_config ->
  fails (Obrabotka.process L self input_path output_dir).
Proof.
  intros Hc. unfold Obrabotka.process.
  do 3 (apply fails_bind_right; intros ?).
  apply fails_bind_left. now apply preparation_fails.
Qed.

End DefaultConfig.
Lemma stage_reached_rendering evs : forall cur,
  stage_reached evs cur = Some Rendering ->
  cur = Some Rendering \/ existsb announces_rendering evs = true.
Proof.
  induction evs as [|ev r IH]; intros cur H; [now left|].
  change (existsb announces_rendering (ev :: r))
    with (announces_rendering ev || existsb announces_rendering r)%bool.
  rewrite orb_true_iff.
  destruct ev as [l msg | c ok | s q | a];
    try (destruct (IH _ H) as [Hc | Hr]; [now left | now right; right]).
  destruct l;
    try (destruct (IH _ H) as [Hc | Hr]; [now left | now right; right]).
  change (stage_reached r (match stage_of_log msg with
                           | Some s => Some s
                           | None => cur
                           end) = Some Rendering) in H.
  unfold announces_rendering.
  destruct (stage_of_log msg) as [st|] eqn:Hs.
  - destruct (IH _ H) as [Hc | Hr]; [| now right; right].
    injection Hc as ->. right. now left.
  - destruct (IH _ H) as [Hc | Hr]; [now left | now right; right].
Qed.

Section Rendering.
Context {W : Type} (E : Env W) (AC : AudioComponent W).

Lemma existsb_unannounced evs :
  Forall unannounced evs -> existsb announces_rendering evs = false.
Proof.
  induction 1 as [|ev r H _ IH]; simpl; [reflexivity|].
  unfold unannounced in H. now rewrite H.
Qed.

Lemma skip_unannounced {A B} (m : M W Event A) (k : A -> M W Event B) (w : W) e0 :
  emits unannounced m ->
  (forall a w', existsb announces_rendering (events (k a w')) = true ->
                result (k a w') = Raise e0) ->
  existsb announces_rendering (events (bind m k w)) = true ->
  result (bind m k w) = Raise e0.
Proof.
  intros Hm Hk. rewrite events_bind, existsb_app, result_bind.
  rewrite (existsb_unannounced _ (Hm w)). simpl.
  destruct (result (m w)); [apply Hk | discriminate].
Qed.

Lemma rendering_needs_formats self input_path output_dir language provider w :
  Main.config AC self = Main.get_default_config ->
  existsb announces_rendering
    (events (Main.process_file_try E AC self input_path output_dir language provider w))
    = true ->
  result (Main.process_file_try E AC self input_path output_dir language provider w)
    = Raise (key_error "output_formats").
Proof.
  intros Hc. unfold Main.process_file_try. rewrite Hc.
  repeat (apply skip_unannounced;
          [ solve [unfold Main.quality_stage, Main.call, unannounced; frame]
          | intros ? ? ]).
  intros _. rewrite result_bind, result_log. reflexivity.
Qed.
Lemma process_file_rendering_needs_formats self input_path output_dir language
    provider w :
  Main.config AC self = Main.get_default_config ->
  stage_reached
    (events (Main.process_file E AC self input_path output_dir language provider w))
    None = Some Rendering ->
  result (Main.process_file E AC self input_path output_dir language provider w)
    = Return (Failed "'output_formats'" input_path).
Proof.
  intros Hc Hs. apply stage_reached_rendering in Hs.
  destruct Hs as [Hs | Hs]; [discriminate|].
  unfold Main.process_file in Hs. rewrite events_try_except, existsb_app in Hs.
  assert (Ht : existsb announces_rendering
                 (events (Main.process_file_try E AC self input_path output_dir
                            language provider w)) = true).
  { apply orb_true_iff in Hs. destruct Hs as [Hs | Hs]; [exact Hs|].
    destruct (result _) as [r|e]; [discriminate|].
    unfold any_exception in Hs. rewrite events_bind in Hs. simpl in Hs. discriminate. }
  rewrite process_file_result, (rendering_needs_formats _ _ _ _ _ _ Hc Ht).
  reflexivity.
Qed.

End Rendering.

(** C8, as the code has it: the built-in default configuration holds the
    key 'subtitle_settings' only, with max_chars_per_line = 42,
    max_lines = 2, min_duration = 1.0 and max_duration = 4.0; the lookups of
    'audio_preprocessing' and of 'output_formats' raise a KeyError.
    Consequently, with the default configuration in effect, every call of
    [process_file] returns a failed result, whatever the components do: a
    run that reaches the rendering stage fails on the KeyError of
    'output_formats', and [process] of obrabotka.py never returns. *)
Theorem default_config_always_fails {W} (E : Env W) (AC : AudioComponent W)
    (L : AEnv W) self input_path output_dir language provider (w : W) :
  Main.config AC self = Main.get_default_config ->
  let run := Main.process_file E AC self input_path output_dir language provider w in
  match Main.get_default_config with
  | YDict d => map fst d = ["subtitle_settings"]
  | _ => False
  end /\
  subscript2 Main.get_default_config "subtitle_settings" "max_chars_per_line"
    = Return (YInt 42) /\
  subscript2 Main.get_default_config "subtitle_settings" "max_lines"
    = Return (YInt 2) /\
  subscript2 Main.get_default_config "subtitle_settings" "min_duration"
    = Return (YFloat 1) /\
  subscript2 Main.get_default_config "subtitle_settings" "max_duration"
    = Return (YFloat 4) /\
  subscript Main.get_default_config "audio_preprocessing"
    = Raise (key_error "audio_preprocessing") /\
  subscript Main.get_default_config "output_formats"
    = Raise (key_error "output_formats") /\
  (exists error, result run = Return (Failed error input_path)) /\
  (stage_reached (events run) None = Some Rendering ->
   result run = Return (Failed "'output_formats'" input_path)) /\
  (forall processor dir w',
     Obrabotka.config processor = Main.get_default_config ->
     exists e, result (Obrabotka.process L processor input_path dir w') = Raise e).
Proof.
  intros Hc run.
  do 7 (split; [reflexivity|]).
  split; [| split].
  - unfold run. rewrite process_file_result.
    destruct (process_file_try_fails E AC self input_path output_dir language
                provider Hc w) as [e He].
    rewrite He. eauto.
  - apply process_file_rendering_needs_formats. exact Hc.
  - intros processor dir w' Hp. now apply process_fails.
Qed.

Lemma default_config_always_fails_witness :
  exists error,
    result (Main.process_file (Sim.env Sim.calm) (mapping_component Sim.libs)
              (Sim.generator Main.get_default_config)
              "in/talk.mp3" "out" None "auto" (Sim.machine false ["in/talk.mp3"]))
      = Return (Failed error "in/talk.mp3").
Proof.
  destruct (default_config_always_fails (Sim.env Sim.calm)
              (mapping_component Sim.libs) Sim.libs
              (Sim.generator Main.get_default_config)
              "in/talk.mp3" "out" None "auto" (Sim.machine false ["in/talk.mp3"])
              eq_refl) as [_ [_ [_ [_ [_ [_ [_ [H _]]]]]]]].
  exact H.
Defined.

(** C8, as stated, fails: with the default configuration, a file whose
    format is not supported makes [process_file] fail on the [ValueError]
    that [process] raises before any configuration lookup, not on a
    [KeyError]. *)
Lemma default_config_failure_not_key_error :
  let run :=
    Main.process_file_try (Sim.env Sim.calm) (obrabotka_component Sim.libs)
      (Sim.linked_generator Main.get_default_config)
      "in/notes.txt" "out" None "auto" (Sim.machine false ["in/notes.txt"]) in
  result run
    = Raise (mk_exn ValueError "Неподдерживаемый формат файла: in/notes.txt") /\
  forall e, result run = Raise e -> exn_cls e <> KeyError.
Proof.
  intros run.
  assert (H : result run
              = Raise (mk_exn ValueError "Неподдерживаемый формат файла: in/notes.txt"))
    by (vm_compute; reflexivity).
  split; [exact H|].
  intros e He. rewrite H in He. injection He as <-. discriminate.
Qed.

(** ** Temporary files *)

Section Cleanup.
Context {W : Type} (L : AEnv W).

Lemma cleanup_temp_files_total self : total (Obrabotka.cleanup_temp_files L self).
Proof.
  intros w. unfold Obrabotka.cleanup_temp_files. rewrite result_try_except.
  destruct (result _) as [u|e]; [eauto|].
  unfold any_exception. exists tt. reflexivity.
Qed.

Lemma cleanup_temp_files_removes self w w1 :
  lib_exists L (Obrabotka.temp_dir self) w = (Return true, w1) ->
  In (ACalled (CRmtree (Obrabotka.temp_dir self))
              (is_ok (fst (lib_rmtree L (Obrabotka.temp_dir self) w1))))
     (events (Obrabotka.cleanup_temp_files L self w)).
Proof.
  intros H. unfold Obrabotka.cleanup_temp_files, Obrabotka.call.
  rewrite events_try_except, events_bind, events_invoke, result_invoke, world_invoke, H.
  simpl fst. simpl snd. cbv iota.
  rewrite events_bind, events_invoke.
  apply in_or_app. left. right. left. reflexivity.
Qed.

Lemma remove_if_temporary_tidy self path :
  emits (fun ev => tidy (Obrabotka.temp_dir self) ev = true)
        (if Py.startswith path (Obrabotka.temp_dir self)
         then Obrabotka.call (CRemove path) (lib_remove L path)
         else ret tt).
Proof.
  destruct (Py.startswith path (Obrabotka.temp_dir self)) eqn:Hp.
  - apply emits_invoke. intros r. exact Hp.
  - apply emits_ret.
Qed.

Lemma process_tidy self input_path output_dir :
  emits (fun ev => tidy (Obrabotka.temp_dir self) ev = true)
        (Obrabotka.process L self input_path output_dir).
Proof.
  unfold Obrabotka.process, Obrabotka.analyze_audio,
    Obrabotka.extract_audio_from_video, Obrabotka.prepare_audio_file,
    Obrabotka.normalize_audio, Obrabotka.normalize_audio_try,
    Obrabotka.reduce_noise, Obrabotka.reduce_noise_try, Obrabotka.cfg.
  repeat first
    [ apply remove_if_temporary_tidy
    | apply emits_ret
    | apply emits_raise
    | apply emits_lift_res
    | apply emits_log_audio; reflexivity
    | apply emits_invoke; intros; reflexivity
    | apply emits_bind; [| intros ?]
    | apply emits_try_except; [| intros ?]
    | progress cbv zeta
    | match goal with
      | |- emits _ (if ?b then _ else _) => destruct b
      end ].
Qed.
Lemma tidy_run_audio_events temp (evs : list Event) :
  Forall (tidy_run temp) evs ->
  count_events is_rmtree (audio_events evs) = 0%nat /\
  Forall (fun p => Py.startswith p temp = true) (removed (audio_events evs)).
Proof.
  induction 1 as [|ev r H _ [IHc IHr]]; [split; [reflexivity | constructor]|].
  destruct ev as [l msg | c ok | s q | a]; try (split; assumption).
  simpl in H. simpl audio_events.
  destruct a as [l msg | c ok]; [split; assumption|].
  destruct c; try (split; assumption); simpl in H; try discriminate.
  split; [exact IHc|]. simpl. constructor; assumption.
Qed.

Lemma process_file_tidy (E : Env W) self input_path output_dir language provider :
  emits (tidy_run (Obrabotka.temp_dir (Main.audio_processor (obrabotka_component L) self)))
        (Main.process_file E (obrabotka_component L) self input_path output_dir
           language provider).
Proof.
  unfold Main.process_file, Main.process_file_try.
  apply emits_try_except; [| intros e; frame].
  apply emits_bind; [frame | intros _].
  apply emits_bind; [unfold Main.call; frame | intros _].
  apply emits_bind; [frame | intros _].
  apply emits_bind.
  { apply (emits_within_audio
             (fun ev => tidy (Obrabotka.temp_dir
                                (Main.audio_processor (obrabotka_component L) self))
                             ev = true)).
    - intros a Ha. exact Ha.
    - simpl. apply emits_bind; [apply process_tidy | intros info; apply emits_ret]. }
  intros audio_info.
  unfold Main.quality_stage, Main.render_step, Main.generate_report, Main.call.
  frame.
Qed.
End Cleanup.

(** C7, as the code has it: the cleanup of the temporary directory is the
    work of the destructor of the audio processor, not of a file's
    pipeline.  [__del__] never raises and, when the temporary directory
    exists, calls [shutil.rmtree] on it.  A run of [process_file] with the
    audio processor of obrabotka.py removes no directory tree, and it
    deletes a file only if the path of the file starts, as a string, with
    the path of the temporary directory, which is the test that the code
    makes; a file whose path does not start so is never deleted. *)
Theorem cleanup_only_at_destruction {W} (L : AEnv W) (E : Env W)
    processor self input_path output_dir language provider (w : W) :
  (exists u, result (Obrabotka.del L processor w) = Return u) /\
  (forall w1,
     lib_exists L (Obrabotka.temp_dir processor) w = (Return true, w1) ->
     In (ACalled (CRmtree (Obrabotka.temp_dir processor))
                 (is_ok (fst (lib_rmtree L (Obrabotka.temp_dir processor) w1))))
        (events (Obrabotka.del L processor w))) /\
  let evs :=
    audio_events
      (events (Main.process_file E (obrabotka_component L) self input_path
                 output_dir language provider w)) in
  count_events is_rmtree evs = 0%nat /\
  Forall (fun p =>
            Py.startswith p
              (Obrabotka.temp_dir (Main.audio_processor (obrabotka_component L) self))
            = true)
         (removed evs) /\
  (forall p,
     Py.startswith p
       (Obrabotka.temp_dir (Main.audio_processor (obrabotka_component L) self))
     = false ->
     ~ In p (removed evs)).
Proof.
  split; [apply cleanup_temp_files_total|].
  split; [intros w1 H; now apply cleanup_temp_files_removes|].
  destruct (tidy_run_audio_events _ _
              (process_file_tidy L E self input_path output_dir language provider w))
    as [Hc Hr].
  cbv zeta. split; [exact Hc|]. split; [exact Hr|].
  intros p Hp Hin. rewrite Forall_forall in Hr. rewrite (Hr p Hin) in Hp.
  discriminate.
Qed.

(** C7, as stated, fails: after [process_file] has returned a failure, the
    intermediate audio written for the file and the temporary directory
    are still there.  The first run uses the audio processor of
    obrabotka.py and stops when main.py subscripts the [AudioInfo]; the
    second uses a processor that hands a mapping over and stops on a
    transcription error. *)
Lemma intermediate_audio_left_behind :
  let w0 := Sim.machine true ["in/talk.mp3"] in
  let started :=
    Main.init (Sim.env Sim.calm) (obrabotka_component Sim.libs) "config.yaml" w0 in
  let first :=
    Main.process_file (Sim.env Sim.calm) (obrabotka_component Sim.libs)
      (Sim.linked_generator Sim.full_config) "in/talk.mp3" "out" None "auto"
      (world started) in
  let second :=
    Main.process_file
      (Sim.env (Sim.failing_on "out/talk_prepared_normalized.wav" "quota exhausted"))
      (mapping_component Sim.libs) (Sim.generator Sim.full_config)
      "in/talk.mp3" "out" None "auto" (world started) in
  result started = Return (Sim.linked_generator Sim.full_config) /\
  Sim.has_file (world started) "out/talk_prepared.wav" = false /\
  result first
    = Return (Failed "'AudioInfo' object is not subscriptable" "in/talk.mp3") /\
  Sim.has_file (world first) "out/talk_prepared.wav" = true /\
  Sim.has_file (world first) "out/talk_prepared_normalized.wav" = true /\
  Sim.has_dir (world first) "/tmp/subtitle_audio_0001" = true /\
  result second = Return (Failed "quota exhausted" "in/talk.mp3") /\
  Sim.has_file (world second) "out/talk_prepared.wav" = true /\
  Sim.has_file (world second) "out/talk_prepared_normalized.wav" = true /\
  Sim.has_dir (world second) "/tmp/subtitle_audio_0001" = true.
Proof.
  intros w0 started first second.
  split; [reflexivity|].
  repeat split; vm_compute; reflexivity.
Qed.

(** The test is made on strings: an output directory whose path starts with
    the path of the temporary directory is taken for a part of it, and the
    prepared recording written there is deleted once it is normalised. *)
Example output_dir_sharing_the_prefix :
  let w := Sim.mk_World ["in"; "/tmp/subtitle_audio_0001_out"] ["in/talk.mp3"] in
  let self := Sim.processor Sim.full_config in
  let run := Obrabotka.process Sim.libs self "in/talk.mp3"
               (Some "/tmp/subtitle_audio_0001_out") w in
  Obrabotka.temp_dir self = "/tmp/subtitle_audio_0001" /\
  removed (events run) = ["/tmp/subtitle_audio_0001_out/talk_prepared.wav"] /\
  Sim.has_file (world run) "/tmp/subtitle_audio_0001_out/talk_prepared.wav" = false.
Proof. repeat split; vm_compute; reflexivity. Qed.

(** ** Batch processing and its aggregate report *)

Lemma collect_spec {A B} (f : A -> Res B) (l : list A) (ys : list B) :
  Main.collect f l = Return ys ->
  List.length ys = List.length l /\
  forall x, In x l -> exists y, f x = Return y /\ In y ys.
Proof.
  revert ys. induction l as [|x r IH]; intros ys H; simpl in H.
  - injection H as <-. split; [reflexivity | intros x []].
  - destruct (f x) as [y|e] eqn:Hx; [|discriminate].
    destruct (Main.collect f r) as [ys'|e]; [|discriminate].
    injection H as <-. destruct (IH ys' eq_refl) as [Hlen Hin].
    split; [simpl; now rewrite Hlen|].
    intros x' [<- | Hx']; [exists y; split; [exact Hx | now left]|].
    destruct (Hin x' Hx') as [y' [Hy' Hin']]. exists y'. split; [exact Hy' | now right].
Qed.

Section Report.
Context {W : Type} (E : Env W).

Lemma batch_report_lines results lines :
  Main.batch_report_content E results = Return lines ->
  In (nl ++ "Всего файлов: " ++ Py.str_of_Z (Py.len results)) lines /\
  In ("Успешно: " ++ Py.str_of_Z (Py.len (filter success results))) lines /\
  In ("С ошибками: "
      ++ Py.str_of_Z (Py.len (filter (fun r => negb (success r)) results))) lines /\
  forall error file,
    In (Failed error file) results ->
    In ("  • " ++ file ++ ": " ++ error) lines.
Proof.
  unfold Main.batch_report_content. cbv zeta.
  set (head := [_; _; _; _; _; _; _]).
  assert (Hhead : forall l,
             In (nl ++ "Всего файлов: " ++ Py.str_of_Z (Py.len results)) (head ++ l) /\
             In ("Успешно: " ++ Py.str_of_Z (Py.len (filter success results)))
                (head ++ l) /\
             In ("С ошибками: "
                 ++ Py.str_of_Z (Py.len (filter (fun r => negb (success r)) results)))
                (head ++ l)).
  { intros l. repeat split; apply in_or_app; left; unfold head; simpl; tauto. }
  match goal with
  | |- match ?stats with _ => _ end = _ -> _ =>
      assert (Hstats : match stats with
                       | Return c => exists l, c = (head ++ l)%list
                       | Raise _ => True
                       end)
  end.
  { destruct (Main.nonempty (filter success results)).
    - destruct (Main.collect Main.result_duration _); [|exact I].
      destruct (Main.collect Main.result_words _); [|exact I].
      destruct (truediv _ _); [|exact I].
      eexists. reflexivity.
    - exists []. now rewrite app_nil_r. }
  match goal with
  | |- match ?stats with _ => _ end = _ -> _ =>
      destruct stats as [content|e]; [|discriminate]
  end.
  destruct Hstats as [l ->].
  assert (Hfailed : forall error file,
             In (Failed error file) results ->
             In (Failed error file) (filter (fun r => negb (success r)) results)).
  { intros error file Hin. apply filter_In. split; [exact Hin | reflexivity]. }
  destruct (Main.nonempty (filter (fun r => negb (success r)) results)) eqn:Hne.
  - destruct (Main.collect Main.failure_line _) as [flines|e] eqn:Hc; [|discriminate].
    intros H.
    assert (Hl : lines = head +++ l +++ [nl ++ "--- ФАЙЛЫ С ОШИБКАМИ ---"] +++ flines).
    { rewrite app_assoc. congruence. }
    rewrite Hl.
    destruct (Hhead (l +++ [nl ++ "--- ФАЙЛЫ С ОШИБКАМИ ---"] +++ flines))
      as [H1 [H2 H3]].
    split; [exact H1|]. split; [exact H2|]. split; [exact H3|].
    intros error file Hin. apply Hfailed in Hin.
    destruct (collect_spec _ _ _ Hc) as [_ Hall].
    destruct (Hall _ Hin) as [line [Hline Hin']].
    cbv in Hline. injection Hline as <-.
    apply in_or_app. right. apply in_or_app. right. apply in_or_app. right. exact Hin'.
  - intros H.
    assert (Hl : lines = head +++ l) by congruence.
    rewrite Hl. destruct (Hhead l) as [H1 [H2 H3]].
    split; [exact H1|]. split; [exact H2|]. split; [exact H3|].
    intros error file Hin. apply Hfailed in Hin.
    destruct (filter (fun r => negb (success r)) results); [destruct Hin | discriminate].
Qed.
(** A file that fails does not stop the batch: a step of the loop raises
    only when [is_file] itself does. *)
Lemma batch_step_isolates (AC : AudioComponent W) self output_dir results
    file_path w e :
  result (Main.batch_step E AC self output_dir results file_path w) = Raise e ->
  fst (sys_is_file E file_path w) = Raise e.
Proof.
  unfold Main.batch_step, Main.call.
  rewrite result_bind, result_invoke.
  destruct (fst (sys_is_file E file_path w)) as [[|]|e']; [| discriminate | congruence].
  rewrite result_bind, result_log, world_log, result_bind.
  destruct (process_file_total E AC self file_path
              (Path.join output_dir (Path.stem file_path)) None "auto"
              (world (invoke (fun r => Called (CIsFile file_path) (is_ok r))
                             (sys_is_file E file_path) w)))
    as [r Hr].
  rewrite Hr. discriminate.
Qed.

End Report.

(** The scenario of three files of which the second fails in the
    transcription: two successes, one failure, and an aggregate report with
    exactly one failure line, that of the second file. *)
Example batch_of_three :
  let run :=
    Main.batch_process
      (Sim.env (Sim.failing_on "out/b/b_prepared_normalized.wav" "quota exhausted"))
      (mapping_component Sim.libs) (Sim.generator Sim.full_config)
      "in" "out" None (Sim.machine true ["in/a.mp3"; "in/b.mp3"; "in/c.mp3"]) in
  (exists results,
     result run = Return results /\
     map success results = [true; false; true] /\
     map result_input_file results = ["in/a.mp3"; "in/b.mp3"; "in/c.mp3"]) /\
  exists report,
    written "out/batch_report.txt" (events run) = [report] /\
    filter (fun line => Py.startswith line "  • ") (Py.split_on (ascii_of_nat 10) report)
      = ["  • in/b.mp3: quota exhausted"].
Proof.
  intros run. split.
  - destruct (result run) as [results|e] eqn:Hr.
    + exists results. split; [reflexivity|].
      assert (H : match result run with
                  | Return rs => (map success rs, map result_input_file rs)
                  | Raise _ => ([], [])
                  end = ([true; false; true], ["in/a.mp3"; "in/b.mp3"; "in/c.mp3"]))
        by (vm_compute; reflexivity).
      rewrite Hr in H. injection H as H1 H2. now split.
    + assert (H : is_ok (result run) = true) by (vm_compute; reflexivity).
      rewrite Hr in H. discriminate.
  - destruct (written "out/batch_report.txt" (events run)) as [|report rest] eqn:Hw.
    + assert (H : List.length (written "out/batch_report.txt" (events run)) = 1%nat)
        by (vm_compute; reflexivity).
      rewrite Hw in H. discriminate.
    + assert (H : (List.length (written "out/batch_report.txt" (events run)),
                   flat_map (fun report =>
                               filter (fun line => Py.startswith line "  • ")
                                      (Py.split_on (ascii_of_nat 10) report))
                            (written "out/batch_report.txt" (events run)))
                  = (1%nat, ["  • in/b.mp3: quota exhausted"]))
        by (vm_compute; reflexivity).
      rewrite Hw in H. injection H as H1 H2.
      destruct rest; [|discriminate].
      exists report. split; [reflexivity|].
      simpl in H2. now rewrite app_nil_r in H2.
Qed.

(** C2 at a failing input: a batch over a directory in which no file
    matches the patterns, with an output directory that does not exist
    yet.  [generate_batch_report] does not create the output directory (as
    [process_file] does for its own), the write of the report raises
    [FileNotFoundError], the exception leaves [batch_process], and no
    aggregate report exists afterwards; [main] ends with status 1. *)
Theorem empty_batch_writes_no_report :
  let E := Sim.env Sim.calm in
  let AC := mapping_component Sim.libs in
  let w := Sim.machine true ["in/notes.flac"] in
  let run := Main.batch_process E AC (Sim.generator Sim.full_config)
               "in" "out" None w in
  Sim.has_dir w "in" = true /\
  Sim.has_dir w "out" = false /\
  result run
    = Raise (mk_exn FileNotFoundError
               "[Errno 2] No such file or directory: 'out/batch_report.txt'") /\
  written "out/batch_report.txt" (events run) = [] /\
  Sim.has_file (world run) "out/batch_report.txt" = false /\
  Main.exit_status
    (Main.main E AC (Main.mk_Args "in" "out" None "auto" true "config.yaml") w) = 1.
Proof.
  intros E AC w run.
  repeat split; vm_compute; reflexivity.
Qed.

(** ** Runs on the simulated machine *)

(** A report with one warning and no error: the segment that is too short
    is rendered as it was checked, and no correction is run. *)
Lemma auto_correction_iff_errors_witness :
  let segments := [mk_Segment 0 (1 # 2) "a"] in
  let calls :=
    quality_calls
      (events (Sim.run_file (Sim.reporting Sim.short_report) "in/talk.mp3")) in
  In (QCheck segments (Return Sim.short_report)) calls /\
  ~ In (QAutoCorrect segments) calls /\
  forall s', In (QFormat s') calls -> s' = segments.
Proof.
  intros segments calls.
  assert (Hin : In (QCheck segments (Return Sim.short_report)) calls)
    by (vm_compute; left; reflexivity).
  pose proof (auto_correction_iff_errors (Sim.env (Sim.reporting Sim.short_report))
                (mapping_component Sim.libs) (Sim.generator Sim.full_config)
                "in/talk.mp3" "out" None "auto" (Sim.machine true ["in/talk.mp3"]))
    as [Hiff Hsame].
  split; [exact Hin|]. split.
  - intros Hauto. apply Hiff in Hauto. destruct Hauto as [r [Hr [_ Herr]]].
    assert (Hq : r = Sim.short_report).
    { vm_compute in Hr. destruct Hr as [Hr | [Hr | [Hr | []]]];
        [now injection Hr | discriminate | discriminate]. }
    subst r. apply Herr. reflexivity.
  - exact (Hsame segments Sim.short_report Hin eq_refl).
Defined.

(** A report with an error: the correction is run on the checked
    segments. *)
Example correction_on_overlap :
  quality_calls
    (events (Sim.run_file (Sim.reporting Sim.overlap_report) "in/talk.mp3"))
  = [QCheck [mk_Segment 0 (1 # 2) "a"] (Return Sim.overlap_report);
     QAutoCorrect [mk_Segment 0 (1 # 2) "a"];
     QFormat [mk_Segment 0 (1 # 2) "a"];
     QFormat [mk_Segment 0 (1 # 2) "a"]].
Proof. vm_compute. reflexivity. Qed.

(** Without a configuration file the default configuration is installed. *)
Lemma config_loaded_once_with_fallback_witness :
  sys_open_yaml (Sim.env Sim.calm) "config.yaml" (Sim.machine false [])
    = (Raise (Sim.no_such "config.yaml"), Sim.machine false []) /\
  result (Main.load_config (Sim.env Sim.calm) "config.yaml" (Sim.machine false []))
    = Return Main.get_default_config.
Proof.
  split; [reflexivity|].
  apply (proj1 (proj2 (config_loaded_once_with_fallback (Sim.env Sim.calm)
                         (mapping_component Sim.libs) "config.yaml"
                         (Sim.machine false [])))
           (Sim.no_such "config.yaml") (Sim.machine false [])).
  reflexivity.
Defined.

(** With the configuration file in place, its content is the configuration of
    the generator, and the file was opened once. *)
Example config_loaded_from_file :
  let run := Main.init (Sim.env Sim.calm) (mapping_component Sim.libs) "config.yaml"
               (Sim.machine true []) in
  result run = Return (Sim.generator Sim.full_config) /\
  opened (events run) = ["config.yaml"].
Proof. split; reflexivity. Qed.

(** Without noisereduce the path is returned unchanged. *)
Lemma enhancement_never_raises_witness :
  lib_import_noisereduce Sim.libs (Sim.mk_World ["out"] ["out/talk_prepared.wav"])
    = (Raise (mk_exn ImportError "No module named 'noisereduce'"),
       Sim.mk_World ["out"] ["out/talk_prepared.wav"]) /\
  result (Obrabotka.reduce_noise Sim.libs (Sim.processor Sim.full_config)
            "out/talk_prepared.wav" (Sim.mk_World ["out"] ["out/talk_prepared.wav"]))
    = Return "out/talk_prepared.wav".
Proof.
  split; [reflexivity|].
  apply (proj1 (proj2 (proj2 (proj2
           (enhancement_never_raises Sim.libs (Sim.processor Sim.full_config)
              "out/talk_prepared.wav"
              (Sim.mk_World ["out"] ["out/talk_prepared.wav"])))))
           (mk_exn ImportError "No module named 'noisereduce'")
           (Sim.mk_World ["out"] ["out/talk_prepared.wav"])).
  reflexivity.
Defined.

(** The parts of a recording of 90 seconds cut every 40 seconds. *)
Example split_in_three :
  exported
    (events (Obrabotka.split_large_file Sim.libs (Sim.processor Sim.full_config)
               "in/talk.mp3" 40 (Sim.machine false ["in/talk.mp3"])))
  = [(0, 40000); (40000, 80000); (80000, 90000)].
Proof. vm_compute. reflexivity. Qed.

Example path_stem_ex : Path.stem "in/talk.final.mp3" = "talk.final".
Proof. reflexivity. Qed.

Example path_suffix_ex : Path.suffix "in/Talk.MP3" = ".MP3".
Proof. reflexivity. Qed.

Example path_suffix_hidden : Path.suffix "in/.bashrc" = "".
Proof. reflexivity. Qed.

Example path_join_ex : Path.join "out/" "talk_prepared.wav" = "out/talk_prepared.wav".
Proof. reflexivity. Qed.

(** Exactly two leading slashes are kept, as pathlib keeps them. *)
Example path_double_slash :
  Path.str "//tmp/x" = "//tmp/x" /\
  Path.str "///tmp//x/" = "/tmp/x" /\
  Path.parent "//tmp" = "//" /\
  Path.join "//tmp/out" "talk_prepared.wav" = "//tmp/out/talk_prepared.wav" /\
  Path.join "out" "//srv/talk.srt" = "//srv/talk.srt".
Proof. repeat split. Qed.

Example supported_format_ex :
  Obrabotka.is_supported_format "in/Talk.MP3" = true /\
  Obrabotka.is_supported_format "in/notes.txt" = false /\
  Obrabotka.is_video_file "in/clip.mkv" = true.
Proof. repeat split. Qed.

(** The KELVIN SIGN is lowered to the letter k, so that an extension
    written with it is that of a Matroska file. *)
Example kelvin_sign_ex :
  let kelvin := String "226" (String "132" (String "170" EmptyString)) in
  Py.lower (".m" ++ kelvin ++ "v") = ".mkv" /\
  Obrabotka.is_supported_format ("in/clip.m" ++ kelvin ++ "v") = true /\
  Obrabotka.is_video_file ("in/clip.m" ++ kelvin ++ "v") = true.
Proof. repeat split. Qed.

(** The characters of a text, not its bytes, are what a loop visits and
    what [len] counts. *)
Example chars_ex :
  let ya := String "209" (String "143" EmptyString) in
  Py.chars ("s" ++ ya ++ "t") = ["s"; ya; "t"] /\
  Py.len_str ("s" ++ ya ++ "t") = 3.
Proof. repeat split. Qed.

(** * Further properties *)

(** ** obrabotka.py: rejecting and analysing *)

Section Preparing.
Context {W : Type} (L : AEnv W).

(** X1: [process] rejects a file whose extension is not among the
    supported formats before it touches anything: it raises the [ValueError]
    "Неподдерживаемый формат файла: <path>", calls no library, leaves the
    world as it was, and has logged its start only. *)
Theorem unsupported_format_rejected_untouched self input_path output_dir (w : W) :
  Obrabotka.is_supported_format input_path = false ->
  Obrabotka.process L self input_path output_dir w =
  (Raise (mk_exn ValueError ("Неподдерживаемый формат файла: " ++ input_path)),
   w,
   [ALog INFO ("Начало обработки аудио: " ++ input_path)]).
Proof.
  intros H. unfold Obrabotka.process, bind, Obrabotka.log, raise.
  rewrite H. reflexivity.
Qed.

Lemma analyze_audio_reads_only self path :
  emits (fun ev => reads_only ev = true) (Obrabotka.analyze_audio L self path).
Proof. unfold Obrabotka.analyze_audio, Obrabotka.call. frame. Qed.

(** X2: when the analysis of a supported file fails, [process] raises the
    exception of [analyze_audio], which has logged it as an error; up to
    there the run has only written to the log and read properties of the
    file: nothing was extracted, converted, exported or removed. *)
Theorem analysis_failure_prepares_nothing self input_path output_dir (w : W) e :
  Obrabotka.is_supported_format input_path = true ->
  result (Obrabotka.analyze_audio L self input_path w) = Raise e ->
  result (Obrabotka.process L self input_path output_dir w) = Raise e /\
  Forall (fun ev => reads_only ev = true)
         (events (Obrabotka.process L self input_path output_dir w)) /\
  In (ALog ERROR ("Ошибка анализа аудиофайла " ++ input_path ++ ": " ++ str_exn e))
     (events (Obrabotka.process L self input_path output_dir w)).
Proof.
  intros Hs Ha.
  assert (Hin : In (ALog ERROR ("Ошибка анализа аудиофайла " ++ input_path ++ ": "
                                 ++ str_exn e))
                   (events (Obrabotka.analyze_audio L self input_path w))).
  { revert Ha. unfold Obrabotka.analyze_audio.
    rewrite result_try_except, events_try_except.
    destruct (result _) as [a|e'] eqn:Hb; [discriminate|].
    unfold any_exception. rewrite result_bind, result_alog, world_alog.
    intros H. injection H as ->.
    apply in_or_app. right. rewrite events_bind. left. reflexivity. }
  pose proof (analyze_audio_reads_only self input_path w) as Hro.
  unfold Obrabotka.process.
  rewrite result_bind, result_alog, world_alog.
  rewrite events_bind, result_alog, world_alog.
  rewrite result_bind, events_bind, Hs.
  change (negb true) with false. cbv iota.
  rewrite result_ret, world_ret.
  rewrite result_bind, events_bind, Ha.
  split; [reflexivity|]. split.
  - simpl. rewrite app_nil_r. constructor; [reflexivity | exact Hro].
  - simpl. rewrite app_nil_r. right. exact Hin.
Qed.

Lemma prepare_audio_file_returns self audio_path output_dir (w : W) p :
  result (Obrabotka.prepare_audio_file L self audio_path output_dir w) = Return p ->
  p = Path.join (target_dir self output_dir) (Path.stem audio_path ++ "_prepared.wav") /\
  exists audio,
    In (ACalled (CExport audio p) true)
       (events (Obrabotka.prepare_audio_file L self audio_path output_dir w)).
Proof.
  unfold Obrabotka.prepare_audio_file, Obrabotka.cfg, Obrabotka.call, try_except, bind,
    invoke, lift_res, ret, raise, Obrabotka.log, result, events, target_dir.
  cbv zeta.
  destruct (lib_from_file L audio_path w) as [[audio|e] w1]; simpl; [|discriminate].
  destruct (subscript2 _ _ "target_sample_rate") as [rate|e]; simpl; [|discriminate].
  destruct (subscript2 _ _ "channels") as [chans|e]; simpl; [|discriminate].
  destruct (eq_int chans 1 && (1 <? a_channels audio))%bool.
  - destruct (lib_set_channels L audio 1 w1) as [[audio1|e] w2]; simpl; [|discriminate].
    destruct (negb (eq_int rate (a_frame_rate audio1))).
    + destruct (lib_set_frame_rate L audio1 rate w2) as [[audio2|e] w3]; simpl;
        [|discriminate].
      destruct (lib_export L audio2 _ w3) as [[[]|e] w4]; simpl; [|discriminate].
      intros H. injection H as <-. split; [reflexivity|].
      exists audio2. simpl. tauto.
    + simpl.
      destruct (lib_export L audio1 _ w2) as [[[]|e] w4]; simpl; [|discriminate].
      intros H. injection H as <-. split; [reflexivity|].
      exists audio1. simpl. tauto.
  - simpl. destruct (negb (eq_int rate (a_frame_rate audio))).
    + destruct (lib_set_frame_rate L audio rate w1) as [[audio2|e] w3]; simpl;
        [|discriminate].
      destruct (lib_export L audio2 _ w3) as [[[]|e] w4]; simpl; [|discriminate].
      intros H. injection H as <-. split; [reflexivity|].
      exists audio2. simpl. tauto.
    + simpl.
      destruct (lib_export L audio _ w1) as [[[]|e] w4]; simpl; [|discriminate].
      intros H. injection H as <-. split; [reflexivity|].
      exists audio. simpl. tauto.
Qed.

(** X3: the path that [prepare_audio_file] returns is
    [<stem>_prepared.wav] in the output directory (in the temporary
    directory when none is given), and the run exported audio to that path
    successfully. *)
Theorem prepare_audio_file_result_exported self audio_path output_dir (w : W) p :
  result (Obrabotka.prepare_audio_file L self audio_path output_dir w) = Return p ->
  p = Path.join (target_dir self output_dir) (Path.stem audio_path ++ "_prepared.wav") /\
  exists audio,
    In (ACalled (CExport audio p) true)
       (events (Obrabotka.prepare_audio_file L self audio_path output_dir w)).
Proof. exact (prepare_audio_file_returns self audio_path output_dir w p). Qed.

Lemma extract_audio_returns self video_path output_dir (w : W) p :
  result (Obrabotka.extract_audio_from_video L self video_path output_dir w) = Return p ->
  p = Path.join (target_dir self output_dir) (Path.stem video_path ++ "_audio.wav") /\
  exists ac ar,
    subscript2 (Obrabotka.config self) "audio_preprocessing" "channels" = Return ac /\
    subscript2 (Obrabotka.config self) "audio_preprocessing" "target_sample_rate"
      = Return ar /\
    In (ACalled (CFfmpegRun video_path p ac ar) true)
       (events (Obrabotka.extract_audio_from_video L self video_path output_dir w)).
Proof.
  unfold Obrabotka.extract_audio_from_video, Obrabotka.cfg, Obrabotka.call, try_except,
    bind, invoke, lift_res, ret, raise, Obrabotka.log, result, events, target_dir.
  cbv zeta.
  destruct (subscript2 _ _ "channels") as [ac|e]; simpl.
  2:{ destruct (is_FfmpegError e); simpl; [destruct (lib_stderr L e); simpl|];
      discriminate. }
  destruct (subscript2 _ _ "target_sample_rate") as [ar|e]; simpl.
  2:{ destruct (is_FfmpegError e); simpl; [destruct (lib_stderr L e); simpl|];
      discriminate. }
  destruct (lib_ffmpeg_run L video_path _ ac ar w) as [[[]|e] w1]; simpl.
  2:{ destruct (is_FfmpegError e); simpl; [destruct (lib_stderr L e); simpl|];
      discriminate. }
  intros H. injection H as <-. split; [reflexivity|].
  exists ac, ar. repeat split. simpl. tauto.
Qed.

(** X4: the path that [extract_audio_from_video] returns is
    [<stem>_audio.wav] in the output directory (in the temporary directory
    when none is given), and ffmpeg ran successfully from the video to that
    path with the channels and the sample rate of the configuration. *)
Theorem extract_audio_result_extracted self video_path output_dir (w : W) p :
  result (Obrabotka.extract_audio_from_video L self video_path output_dir w) = Return p ->
  p = Path.join (target_dir self output_dir) (Path.stem video_path ++ "_audio.wav") /\
  exists ac ar,
    subscript2 (Obrabotka.config self) "audio_preprocessing" "channels" = Return ac /\
    subscript2 (Obrabotka.config self) "audio_preprocessing" "target_sample_rate"
      = Return ar /\
    In (ACalled (CFfmpegRun video_path p ac ar) true)
       (events (Obrabotka.extract_audio_from_video L self video_path output_dir w)).
Proof. exact (extract_audio_returns self video_path output_dir w p). Qed.
End Preparing.

(** ** obrabotka.py: the files that the enhancement steps leave *)

Section Enhancing.
Context {W : Type} (L : AEnv W).

Lemma normalize_audio_cases self audio_path (w : W) :
  let run := Obrabotka.normalize_audio L self audio_path w in
  result run = Return audio_path \/
  (result run = Return (normalized_name audio_path) /\
   (exists audio, In (ACalled (CExport audio (normalized_name audio_path)) true)
                     (events run)) /\
   (Py.startswith audio_path (Obrabotka.temp_dir self) = true ->
    In (ACalled (CRemove audio_path) true) (events run))).
Proof.
  unfold Obrabotka.normalize_audio, Obrabotka.normalize_audio_try, Obrabotka.call,
    try_except, bind, invoke, ret, Obrabotka.log, result, events, normalized_name,
    any_exception.
  cbv zeta.
  destruct (lib_from_file L audio_path w) as [[audio|e] w1]; simpl; [|now left].
  destruct (lib_normalize L audio w1) as [[normalized|e] w2]; simpl; [|now left].
  destruct (lib_export L normalized _ w2) as [[[]|e] w3]; simpl; [|now left].
  destruct (Py.startswith audio_path (Obrabotka.temp_dir self)).
  - destruct (lib_remove L audio_path w3) as [[[]|e] w4]; simpl; [|now left].
    right. split; [reflexivity|]. split; [exists normalized; tauto | tauto].
  - simpl. right. split; [reflexivity|]. split; [exists normalized; tauto | discriminate].
Qed.

(** X5: [normalize_audio] returns the path it was given or the path of the
    normalised file, [<stem>_normalized.wav] beside its input.  In the
    second case the export to that path succeeded and, if the input path
    starts with the temporary directory, the input was removed. *)
Theorem normalize_audio_outcome self audio_path (w : W) :
  let run := Obrabotka.normalize_audio L self audio_path w in
  result run = Return audio_path \/
  (result run = Return (normalized_name audio_path) /\
   (exists audio, In (ACalled (CExport audio (normalized_name audio_path)) true)
                     (events run)) /\
   (Py.startswith audio_path (Obrabotka.temp_dir self) = true ->
    In (ACalled (CRemove audio_path) true) (events run))).
Proof. exact (normalize_audio_cases self audio_path w). Qed.

Lemma reduce_noise_cases self audio_path (w : W) :
  let run := Obrabotka.reduce_noise L self audio_path w in
  result run = Return audio_path \/
  (result run = Return (denoised_name audio_path) /\
   (exists sr, In (ACalled (CSfWrite (denoised_name audio_path) sr) true) (events run)) /\
   (Py.startswith audio_path (Obrabotka.temp_dir self) = true ->
    In (ACalled (CRemove audio_path) true) (events run))).
Proof.
  unfold Obrabotka.reduce_noise, Obrabotka.reduce_noise_try, Obrabotka.call,
    try_except, bind, invoke, ret, Obrabotka.log, result, events, denoised_name,
    any_exception.
  cbv zeta.
  destruct (lib_import_noisereduce L w) as [[[]|e] w1]; simpl.
  2:{ left. destruct (is_ImportError e); reflexivity. }
  destruct (lib_librosa_load L audio_path w1) as [[[audio sr]|e] w2]; simpl.
  2:{ left. destruct (is_ImportError e); reflexivity. }
  destruct (1 <? s_ndim audio).
  - destruct (lib_to_mono L audio w2) as [[mono|e] w3]; simpl.
    2:{ left. destruct (is_ImportError e); reflexivity. }
    destruct (lib_reduce_noise L mono sr _ _ w3) as [[reduced|e] w4]; simpl.
    2:{ left. destruct (is_ImportError e); reflexivity. }
    destruct (lib_sf_write L _ reduced sr w4) as [[[]|e] w5]; simpl.
    2:{ left. destruct (is_ImportError e); reflexivity. }
    destruct (Py.startswith audio_path (Obrabotka.temp_dir self)).
    + destruct (lib_remove L audio_path w5) as [[[]|e] w6]; simpl.
      2:{ left. destruct (is_ImportError e); reflexivity. }
      right. split; [reflexivity|]. split; [exists sr; tauto | tauto].
    + simpl. right. split; [reflexivity|]. split; [exists sr; tauto | discriminate].
  - simpl.
    destruct (lib_reduce_noise L audio sr _ _ w2) as [[reduced|e] w4]; simpl.
    2:{ left. destruct (is_ImportError e); reflexivity. }
    destruct (lib_sf_write L _ reduced sr w4) as [[[]|e] w5]; simpl.
    2:{ left. destruct (is_ImportError e); reflexivity. }
    destruct (Py.startswith audio_path (Obrabotka.temp_dir self)).
    + destruct (lib_remove L audio_path w5) as [[[]|e] w6]; simpl.
      2:{ left. destruct (is_ImportError e); reflexivity. }
      right. split; [reflexivity|]. split; [exists sr; tauto | tauto].
    + simpl. right. split; [reflexivity|]. split; [exists sr; tauto | discriminate].
Qed.

(** X6: [reduce_noise] returns the path it was given or the path of the
    denoised file, [<stem>_denoised.wav] beside its input.  In the second
    case the samples were written to that path and, if the input path starts
    with the temporary directory, the input was removed. *)
Theorem reduce_noise_outcome self audio_path (w : W) :
  let run := Obrabotka.reduce_noise L self audio_path w in
  result run = Return audio_path \/
  (result run = Return (denoised_name audio_path) /\
   (exists sr, In (ACalled (CSfWrite (denoised_name audio_path) sr) true) (events run)) /\
   (Py.startswith audio_path (Obrabotka.temp_dir self) = true ->
    In (ACalled (CRemove audio_path) true) (events run))).
Proof. exact (reduce_noise_cases self audio_path w). Qed.

Lemma preparation_result self input_path output_dir (w : W) p :
  result ((if Obrabotka.is_video_file input_path
           then Obrabotka.extract_audio_from_video L self input_path output_dir
           else Obrabotka.prepare_audio_file L self input_path output_dir) w)
    = Return p ->
  p = prepared_name self input_path output_dir.
Proof.
  unfold prepared_name. destruct (Obrabotka.is_video_file input_path); intros H.
  - now apply extract_audio_returns in H.
  - now apply prepare_audio_file_returns in H.
Qed.

(** X7: the processed path of the [AudioInfo] that [process] returns is
    derived from the input path alone: it is the prepared file, or its
    normalised version (only when 'normalize' is set), or the denoised
    version of one of these (only when 'noise_reduction' is set); both
    settings are present in the configuration. *)
Theorem processed_path_candidates self input_path output_dir (w : W) info :
  result (Obrabotka.process L self input_path output_dir w) = Return info ->
  let p0 := prepared_name self input_path output_dir in
  exists normalize noise_reduction,
    subscript2 (Obrabotka.config self) "audio_preprocessing" "normalize"
      = Return normalize /\
    subscript2 (Obrabotka.config self) "audio_preprocessing" "noise_reduction"
      = Return noise_reduction /\
    exists p1,
      (p1 = p0 \/ (truthy normalize = true /\ p1 = normalized_name p0)) /\
      (processed_path info = p1 \/
       (truthy noise_reduction = true /\ processed_path info = denoised_name p1)).
Proof.
  unfold Obrabotka.process.
  rewrite result_bind, result_alog, world_alog.
  rewrite result_bind.
  destruct (negb (Obrabotka.is_supported_format input_path)); [discriminate|].
  rewrite result_ret, world_ret, result_bind.
  destruct (result (Obrabotka.analyze_audio L self input_path w)) as [created|e];
    [|discriminate].
  generalize (world (Obrabotka.analyze_audio L self input_path w)). intros w1.
  rewrite result_bind.
  destruct (result ((if Obrabotka.is_video_file input_path
                     then Obrabotka.extract_audio_from_video L self input_path output_dir
                     else Obrabotka.prepare_audio_file L self input_path output_dir) w1))
    as [p0|e] eqn:Hp; [|discriminate].
  apply preparation_result in Hp. subst p0.
  generalize (world ((if Obrabotka.is_video_file input_path
                     then Obrabotka.extract_audio_from_video L self input_path output_dir
                     else Obrabotka.prepare_audio_file L self input_path output_dir) w1)).
  intros w2. unfold Obrabotka.cfg.
  rewrite result_bind, result_lift_res, world_lift_res.
  destruct (subscript2 _ _ "normalize") as [normalize|e]; [|discriminate].
  rewrite result_bind.
  match goal with
  | |- match result (?m ?w0) with _ => _ end = _ -> _ =>
      assert (Hn : match result (m w0) with
                   | Return r =>
                       snd r = set_processed_path
                                 (set_processed_path created
                                    (prepared_name self input_path output_dir))
                                 (fst r) /\
                       (fst r = prepared_name self input_path output_dir \/
                        (truthy normalize = true /\
                         fst r = normalized_name
                                   (prepared_name self input_path output_dir)))
                   | Raise _ => True
                   end)
  end.
  { destruct (truthy normalize).
    - rewrite result_bind.
      destruct (normalize_audio_cases self
                  (prepared_name self input_path output_dir) w2) as [Hr | [Hr _]];
        rewrite Hr, result_ret; simpl; split; auto.
    - rewrite result_ret. simpl. split; auto. }
  revert Hn.
  match goal with
  | |- match result (?m ?w0) with _ => _ end -> _ =>
      destruct (result (m w0)) as [[p1 info1]|]; [|discriminate];
      generalize (world (m w0)); intros w3
  end.
  simpl fst. simpl snd. intros [Hi1 Hp1].
  rewrite result_bind, result_lift_res, world_lift_res.
  destruct (subscript2 _ _ "noise_reduction") as [noise_reduction|e]; [|discriminate].
  rewrite result_bind.
  match goal with
  | |- match result (?m ?w0) with _ => _ end = _ -> _ =>
      assert (Hr : match result (m w0) with
                   | Return r =>
                       processed_path (snd r) = fst r /\
                       (fst r = p1 \/
                        (truthy noise_reduction = true /\ fst r = denoised_name p1))
                   | Raise _ => True
                   end)
  end.
  { destruct (truthy noise_reduction).
    - rewrite result_bind.
      destruct (reduce_noise_cases self p1 w3) as [Hr | [Hr _]];
        rewrite Hr, result_ret; simpl; split; auto.
    - rewrite result_ret. simpl. rewrite Hi1. split; auto. }
  revert Hr.
  match goal with
  | |- match result (?m ?w0) with _ => _ end -> _ =>
      destruct (result (m w0)) as [[p2 info2]|]; [|discriminate]
  end.
  simpl fst. simpl snd. intros [Hi2 Hp2].
  rewrite result_bind, result_alog, world_alog, result_ret.
  intros H. injection H as <-. cbv zeta.
  exists normalize, noise_reduction. split; [reflexivity|]. split; [reflexivity|].
  exists p1. split; [exact Hp1|]. rewrite Hi2. exact Hp2.
Qed.
End Enhancing.

(** ** obrabotka.py: parts of a long recording and the temporary directory *)

Section Cutting.
Context {W : Type} (L : AEnv W).

(** X8: with a [max_duration] that is not positive [split_large_file]
    exports nothing.  For 0 the [range] of the loop raises the [ValueError]
    "range() arg 3 must not be zero", which leaves the method; for a
    negative value the loop is empty and the list returned is empty. *)
Theorem split_nonpositive_duration self path m (w : W) audio w1 :
  lib_from_file L path w = (Return audio, w1) ->
  m <= 0 -> 0 <= audio_len audio ->
  let run := Obrabotka.split_large_file L self path m w in
  result run = (if m =? 0
                then Raise (mk_exn ValueError "range() arg 3 must not be zero")
                else Return []) /\
  count_events is_export (events run) = 0%nat.
Proof.
  intros Hfrom Hm Hd.
  unfold Obrabotka.split_large_file, Obrabotka.call, try_except, bind, invoke,
    Obrabotka.log, lift_res, ret, raise, result, events, count_events.
  cbv zeta. rewrite Hfrom. unfold range.
  destruct (m =? 0) eqn:Hz.
  - apply Z.eqb_eq in Hz. subst m. simpl. split; reflexivity.
  - apply Z.eqb_neq in Hz.
    replace (m * 1000 =? 0) with false by (symmetry; apply Z.eqb_neq; lia).
    replace (0 <? m * 1000) with false by (symmetry; apply Z.ltb_ge; lia).
    replace (Z.to_nat (0 - audio_len audio)) with 0%nat by lia.
    simpl. split; reflexivity.
Qed.

Lemma split_loop_names audio path d step : forall starts acc (w : W),
  let o := for_each starts acc (Obrabotka.split_step L audio path d step) w in
  existsb failed_export (events o) = false ->
  result o = Return (acc ++ map (fun i => part_name path (i / step)) starts)%list.
Proof.
  induction starts as [|i r IH]; intros acc w o Hok; subst o.
  - simpl. now rewrite app_nil_r.
  - simpl for_each in *.
    rewrite events_bind, existsb_app in Hok.
    apply orb_false_iff in Hok. destruct Hok as [Hstep Hrest].
    assert (Hr : result (Obrabotka.split_step L audio path d step acc i w)
                 = Return (acc ++ [part_name path (i / step)])%list).
    { revert Hstep.
      unfold Obrabotka.split_step, Obrabotka.call, Obrabotka.log, bind, invoke, ret,
        result, events, part_name.
      cbv zeta.
      destruct (lib_export L _ _ w) as [[[]|e] w1]; simpl; [reflexivity | discriminate]. }
    rewrite Hr in Hrest. rewrite result_bind, Hr.
    rewrite (IH _ _ Hrest). rewrite <- app_assoc. reflexivity.
Qed.

(** X9: when no export fails, the parts that [split_large_file] returns for
    a positive [max_duration] are the files [<stem>_part0.wav], ...,
    [<stem>_part(n-1).wav] beside the input, in this order, with
    [n = ceil(duration / (max_duration * 1000))]. *)
Theorem split_large_file_part_names self path m (w : W) audio w1 :
  0 < m ->
  lib_from_file L path w = (Return audio, w1) ->
  0 <= audio_len audio ->
  existsb failed_export (events (Obrabotka.split_large_file L self path m w)) = false ->
  result (Obrabotka.split_large_file L self path m w)
  = Return (map (part_name path) (indices (ceil_div (audio_len audio) (m * 1000)))).
Proof.
  intros Hm Hfrom Hd Hok.
  assert (Hs : 0 < m * 1000) by lia.
  pose proof (split_loop_names audio path (audio_len audio) (m * 1000)
                (map (fun k => k * (m * 1000))
                     (indices (ceil_div (audio_len audio) (m * 1000))))
                [] w1) as Hl.
  revert Hok Hl.
  unfold Obrabotka.split_large_file, Obrabotka.call, try_except, bind, invoke,
    Obrabotka.log, lift_res, ret, raise, result, events.
  cbv zeta; rewrite Hfrom.
  rewrite (range_spec (audio_len audio) (m * 1000) Hs Hd).
  destruct (for_each _ _ _ w1) as [[[parts|e] w2] t]; simpl.
  all: rewrite ?app_nil_r, existsb_app; intros Hok Hl.
  all: apply orb_false_iff in Hok; destruct Hok as [Hok _].
  all: specialize (Hl Hok); try discriminate.
  injection Hl as ->. f_equal. rewrite map_map.
  apply map_ext. intros k. now rewrite Z.div_mul by lia.
Qed.

Lemma split_loop_prefix audio path d step : forall starts acc (w : W),
  let o := for_each starts acc (Obrabotka.split_step L audio path d step) w in
  exists k,
    (k <= List.length starts)%nat /\
    exported (events o) = firstn k (map (slice_bounds audio d step) starts) /\
    (existsb failed_export (events o) = true -> exists e, result o = Raise e).
Proof.
  induction starts as [|i r IH]; intros acc w o; subst o.
  - exists 0%nat. simpl. split; [lia|]. split; [reflexivity | discriminate].
  - simpl for_each.
    destruct (split_step_run L audio path d step acc i w) as [Hres Hexp].
    cbv zeta in Hres, Hexp.
    rewrite events_bind, exported_app, existsb_app, result_bind, Hexp.
    destruct (existsb failed_export
                (events (Obrabotka.split_step L audio path d step acc i w))) eqn:Hf.
    + exists 0%nat. split; [simpl; lia|].
      assert (Hraise : exists e, result (Obrabotka.split_step L audio path d step acc i w)
                                 = Raise e).
      { revert Hf.
        unfold Obrabotka.split_step, Obrabotka.call, Obrabotka.log, bind, invoke, ret,
          result, events.
        cbv zeta.
        destruct (lib_export L _ _ w) as [[[]|e] w1]; simpl; [discriminate | eauto]. }
      destruct Hraise as [e He]. rewrite He. split; [reflexivity | eauto].
    + destruct (Hres eq_refl) as [parts' [Hr _]]. rewrite Hr.
      destruct (IH parts'
                  (world (Obrabotka.split_step L audio path d step acc i w)))
        as [k [Hk [He Hfail]]].
      exists (S k). split; [simpl; lia|]. split.
      * simpl. f_equal. exact He.
      * simpl. exact Hfail.
Qed.

(** X10: whatever the exports do, the stretches that [split_large_file]
    exported successfully are the first [k] cuts of the recording, in order,
    for some [k]; an export that fails ends the method with an exception. *)
Theorem split_exports_prefix self path m (w : W) audio w1 :
  0 < m ->
  lib_from_file L path w = (Return audio, w1) ->
  0 <= audio_len audio ->
  let run := Obrabotka.split_large_file L self path m w in
  exists k,
    exported (events run)
    = firstn k (map (fun b => (a_from audio + fst b, a_from audio + snd b))
                    (parts_of (m * 1000) (audio_len audio))) /\
    (existsb failed_export (events run) = true -> exists e, result run = Raise e).
Proof.
  intros Hm Hfrom Hd.
  assert (Hs : 0 < m * 1000) by lia.
  destruct (split_loop_prefix audio path (audio_len audio) (m * 1000)
              (map (fun k => k * (m * 1000))
                   (indices (ceil_div (audio_len audio) (m * 1000))))
              [] w1) as [k [_ Hl]].
  revert Hl.
  unfold Obrabotka.split_large_file, Obrabotka.call, try_except, bind, invoke,
    Obrabotka.log, lift_res, ret, raise, result, events.
  cbv zeta; rewrite Hfrom.
  rewrite (range_spec (audio_len audio) (m * 1000) Hs Hd).
  assert (Hmap : map (slice_bounds audio (audio_len audio) (m * 1000))
                     (map (fun k => k * (m * 1000))
                          (indices (ceil_div (audio_len audio) (m * 1000))))
                 = map (fun b => (a_from audio + fst b, a_from audio + snd b))
                       (parts_of (m * 1000) (audio_len audio))).
  { unfold parts_of. rewrite !map_map.
    apply map_ext_in. intros i Hi. apply In_indices in Hi.
    pose proof (ceil_div_mul_lt (audio_len audio) (m * 1000) i Hs Hi) as Hlt.
    unfold slice_bounds, Obrabotka.part_bounds, part_interval, audio_slice. simpl.
    assert (0 <= i * (m * 1000)) by nia.
    assert ((i + 1) * (m * 1000) = i * (m * 1000) + m * 1000) by ring.
    f_equal; lia. }
  rewrite Hmap.
  destruct (for_each _ _ _ w1) as [[[parts|e] w2] t]; simpl; intros [He Hf];
    exists k; rewrite exported_app, He; simpl; rewrite app_nil_r.
  - split; [reflexivity|]. rewrite existsb_app. simpl. rewrite orb_false_r.
    intros H. destruct (Hf H) as [e He']. discriminate.
  - split; [reflexivity|]. intros _. eauto.
Qed.

(** X11: [cleanup_temp_files] returns in every case; it calls
    [shutil.rmtree] once when the temporary directory exists and not at all
    otherwise, also when the test of existence raises; when [rmtree] raises,
    the failure is logged as a warning. *)
Theorem cleanup_removes_only_existing self (w : W) :
  let temp := Obrabotka.temp_dir self in
  let run := Obrabotka.cleanup_temp_files L self w in
  result run = Return tt /\
  (count_events is_rmtree (events run) = 1%nat <->
   fst (lib_exists L temp w) = Return true) /\
  (fst (lib_exists L temp w) <> Return true ->
   count_events is_rmtree (events run) = 0%nat) /\
  (forall e,
     fst (lib_exists L temp w) = Return true ->
     fst (lib_rmtree L temp (snd (lib_exists L temp w))) = Raise e ->
     In (ALog WARNING ("Не удалось очистить временные файлы: " ++ str_exn e))
        (events run)).
Proof.
  unfold Obrabotka.cleanup_temp_files, Obrabotka.call, try_except, bind, invoke,
    Obrabotka.log, ret, result, events, count_events, any_exception.
  cbv zeta.
  destruct (lib_exists L (Obrabotka.temp_dir self) w) as [[[|]|e] w1]; simpl.
  - destruct (lib_rmtree L (Obrabotka.temp_dir self) w1) as [[[]|e] w2]; simpl.
    + split; [reflexivity|]. split; [tauto|]. split; [congruence | discriminate].
    + split; [reflexivity|]. split; [tauto|]. split; [congruence|].
      intros e' _ H. injection H as <-. tauto.
  - split; [reflexivity|]. split; [split; discriminate|].
    split; [reflexivity | discriminate].
  - split; [reflexivity|]. split; [split; discriminate|].
    split; [reflexivity | discriminate].
Qed.
End Cutting.

(** ** main.py: where a file's pipeline writes and what it asks for *)

Section Confinement.
Context {W : Type} (E : Env W) (AC : AudioComponent W).

Lemma emits_bind_ret {Ev A B} (P : Ev -> Prop) (a : A) (k : A -> M W Ev B) :
  emits P (k a) -> emits P (bind (ret a) k).
Proof.
  intros H w. rewrite events_bind, result_ret, world_ret. simpl. apply H.
Qed.

Ltac frame_with tac :=
  repeat first
    [ apply emits_ret
    | apply emits_bind_ret
    | apply emits_raise
    | apply emits_lift_res
    | apply emits_log; exact I
    | apply emits_invoke; intros; simpl; solve [tac]
    | apply emits_bind; [| intros ?]
    | apply emits_try_except; [| intros ?]
    | apply emits_for_each; intros ? ?
    | apply emits_within; intros; exact I
    | progress cbv zeta
    | match goal with
      | |- emits _ (if ?b then _ else _) => destruct b
      | |- emits _ (match ?x with _ => _ end) => destruct x
      end ].

Lemma emits_bind_lift_res {Ev A B} (P : Ev -> Prop) (r : Res A) (k : A -> M W Ev B) :
  (forall a, r = Return a -> emits P (k a)) -> emits P (bind (lift_res r) k).
Proof.
  intros H w. rewrite events_bind, result_lift_res, world_lift_res.
  destruct r as [a|e]; simpl; [apply (H a eq_refl) | constructor].
Qed.

Lemma emits_for_each_in {Ev A S} (P : Ev -> Prop) (body : S -> A -> M W Ev S) :
  forall (l : list A),
    (forall acc x, In x l -> emits P (body acc x)) ->
    forall acc, emits P (for_each l acc body).
Proof.
  induction l as [|x r IH]; intros Hb acc; simpl.
  - apply emits_ret.
  - apply emits_bind; [apply Hb; now left | intros a; apply IH].
    intros acc' y Hy. apply Hb. now right.
Qed.

Lemma process_file_stays_in self input_path output_dir language provider :
  emits (stays_in (Main.config AC self) output_dir input_path)
        (Main.process_file E AC self input_path output_dir language provider).
Proof.
  unfold Main.process_file, Main.process_file_try.
  apply emits_try_except;
    [| intros ?; frame_with ltac:(first [exact I | reflexivity]) ].
  do 13 (apply emits_bind;
         [ solve [unfold Main.quality_stage, Main.call;
                  frame_with ltac:(first [exact I | reflexivity])]
         | intros ? ]).
  cbv zeta.
  apply emits_bind_lift_res. intros enabled He.
  apply emits_bind_lift_res. intros names Hn.
  apply emits_bind.
  - apply emits_for_each_in. intros acc fmt Hin.
    unfold Main.render_step, Main.call.
    frame_with ltac:(first [ exact I
                           | right; exists names, fmt; unfold enabled_formats;
                             rewrite He; auto ]).
  - intros files. unfold Main.generate_report, Main.call.
    frame_with ltac:(first [exact I | left; reflexivity]).
Qed.

(** X12: whatever the components answer, the only text files that
    [process_file] writes are the report [<stem>_report.txt] and subtitle
    files [<stem>.<format>] for enabled formats, all in [output_dir], and
    [output_dir] is the only path it calls [mkdir] on. *)
Theorem process_file_writes_in_output_dir self input_path output_dir language provider :
  emits (stays_in (Main.config AC self) output_dir input_path)
        (Main.process_file E AC self input_path output_dir language provider).
Proof. exact (process_file_stays_in self input_path output_dir language provider). Qed.

Lemma process_file_transcribes_with self input_path output_dir language provider :
  emits (transcribes_with
           (if String.eqb provider "auto" then None else Some provider) language)
        (Main.process_file E AC self input_path output_dir language provider).
Proof.
  unfold Main.process_file, Main.process_file_try, Main.quality_stage,
    Main.render_step, Main.generate_report, Main.call.
  destruct (String.eqb provider "auto"); cbv iota;
    frame_with ltac:(first [exact I | reflexivity | split; [reflexivity | exact I]
                           | split; reflexivity]).
Qed.

(** X13: [process_file] asks for the best provider only when [provider] is
    "auto"; every transcription is requested in the language passed in and,
    when [provider] is not "auto", from that provider. *)
Theorem process_file_transcribes_as_asked self input_path output_dir language provider :
  emits (transcribes_with
           (if String.eqb provider "auto" then None else Some provider) language)
        (Main.process_file E AC self input_path output_dir language provider).
Proof. exact (process_file_transcribes_with self input_path output_dir language provider). Qed.

(** X14: [batch_process] forces neither a language nor a provider: every
    transcription of a batch is requested without a language. *)
Theorem batch_process_transcribes_automatically self input_dir output_dir patterns :
  emits (transcribes_with None None)
        (Main.batch_process E AC self input_dir output_dir patterns).
Proof.
  unfold Main.batch_process, Main.batch_step, Main.generate_batch_report.
  repeat first
    [ apply (process_file_transcribes_with self _ _ None "auto")
    | apply emits_bind; [| intros ?]
    | apply emits_for_each; intros ? ?
    | progress cbv zeta
    | match goal with
      | |- emits _ (if ?b then _ else _) => destruct b
      end
    | solve [unfold Main.call;
             frame_with ltac:(first [exact I | reflexivity])] ].
Qed.
End Confinement.

(** ** main.py: runs of [process_file] that return a success *)

Lemma dict_set_in {A} k v (d : list (string * A)) k' v' :
  In (k, v) (dict_set k' v' d) -> (k, v) = (k', v') \/ In (k, v) d.
Proof.
  induction d as [|[k0 v0] r IH]; simpl.
  - intros [H | []]. left. now symmetry.
  - destruct (String.eqb k' k0).
    + intros [H | H]; [left; now symmetry | right; now right].
    + intros [H | H]; [right; now left|].
      destruct (IH H) as [Hk | Hk]; [now left | right; now right].
Qed.

Lemma dict_set_keeps {A} k v (d : list (string * A)) k' v' :
  In (k, v) d -> (k = k' -> v = v') -> In (k, v) (dict_set k' v' d).
Proof.
  induction d as [|[k0 v0] r IH]; simpl; [intros []|].
  intros [H | H] Hsame.
  - injection H as -> ->. destruct (String.eqb k' k) eqn:Hk.
    + apply String.eqb_eq in Hk. subst k'. left. now rewrite (Hsame eq_refl).
    + now left.
  - destruct (String.eqb k' k0); [right; exact H | right; now apply IH].
Qed.

Lemma dict_set_sets {A} k v (d : list (string * A)) : In (k, v) (dict_set k v d).
Proof.
  induction d as [|[k0 v0] r IH]; simpl; [now left|].
  destruct (String.eqb k k0); [now left | now right].
Qed.

Section Written.
Context {W : Type} (E : Env W) (AC : AudioComponent W).

Lemma bind_return_inv {Ev A B} (top : list Ev) (m : M W Ev A) (k : A -> M W Ev B) w b :
  incl (events (bind m k w)) top ->
  result (bind m k w) = Return b ->
  exists a,
    result (m w) = Return a /\ incl (events (m w)) top /\
    result (k a (world (m w))) = Return b /\
    incl (events (k a (world (m w)))) top.
Proof.
  rewrite events_bind, result_bind.
  destruct (result (m w)) as [a|e]; [|discriminate].
  intros Hi Hr. exists a. split; [reflexivity|].
  split; [intros ev Hev; apply Hi, in_or_app; now left|].
  split; [exact Hr|]. intros ev Hev. apply Hi, in_or_app. now right.
Qed.

Lemma bind_return_self {Ev A B} (m : M W Ev A) (k : A -> M W Ev B) w b :
  result (bind m k w) = Return b ->
  exists a,
    result (m w) = Return a /\ incl (events (m w)) (events (bind m k w)) /\
    result (k a (world (m w))) = Return b /\
    incl (events (k a (world (m w)))) (events (bind m k w)).
Proof. apply bind_return_inv. apply incl_refl. Qed.

Lemma render_step_run input_path output_dir segments files name w files' :
  result (Main.render_step E input_path output_dir segments files name w)
    = Return files' ->
  files' = dict_set name (output_path output_dir input_path name) files /\
  was_written (output_path output_dir input_path name)
    (events (Main.render_step E input_path output_dir segments files name w)).
Proof.
  unfold Main.render_step, Main.call, Main.log, bind, invoke, ret, result, events,
    was_written, output_path.
  cbv zeta.
  destruct (fm_format E segments name w) as [[content|e] w1]; simpl; [|discriminate].
  destruct (sys_write_text E _ content w1) as [[[]|e] w2]; simpl; [|discriminate].
  intros H. injection H as <-. split; [reflexivity|].
  exists content. simpl. tauto.
Qed.

Lemma render_loop_inv input_path output_dir segments : forall names acc w files,
  let run := for_each names acc (Main.render_step E input_path output_dir segments) w in
  result run = Return files ->
  (forall fmt p, In (fmt, p) files ->
     In (fmt, p) acc \/
     (In fmt names /\ p = output_path output_dir input_path fmt /\
      was_written p (events run))) /\
  (forall fmt, In fmt names -> In (fmt, output_path output_dir input_path fmt) files) /\
  (forall fmt, In (fmt, output_path output_dir input_path fmt) acc ->
               In (fmt, output_path output_dir input_path fmt) files).
Proof.
  induction names as [|x r IH]; intros acc w files run Hr; subst run.
  - simpl in Hr. injection Hr as <-. split; [intros; now left|].
    split; [intros fmt [] | auto].
  - simpl for_each in *.
    apply bind_return_self in Hr.
    destruct Hr as [acc' [Hs [Hi1 [Hr Hi2]]]].
    apply render_step_run in Hs. destruct Hs as [-> Hw].
    destruct (IH _ _ _ Hr) as [H1 [H2 H3]].
    split; [| split].
    + intros fmt p Hin. destruct (H1 fmt p Hin) as [Ha | [Hn [Hp [c Hc]]]].
      * apply dict_set_in in Ha. destruct Ha as [Ha | Ha]; [|now left].
        injection Ha as -> ->. right. split; [now left|]. split; [reflexivity|].
        destruct Hw as [c Hc]. exists c. apply Hi1, Hc.
      * right. split; [now right|]. split; [exact Hp|]. exists c. apply Hi2, Hc.
    + intros fmt [<- | Hin]; [apply H3, dict_set_sets | now apply H2].
    + intros fmt Hin. apply H3. apply dict_set_keeps; [exact Hin|].
      now intros ->.
Qed.

Lemma generate_report_returns path a t d q f w :
  result (Main.generate_report E path a t d q f w) = Return tt ->
  (exists info, a = AsDict info /\ Qeq_bool (duration info) 0 = false) /\
  was_written path (events (Main.generate_report E path a t d q f w)).
Proof.
  unfold Main.generate_report, Main.call, bind, invoke, lift_res, ret, result, events,
    was_written, truediv.
  cbv zeta.
  destruct a as [info | info]; simpl; [|discriminate].
  destruct (Qeq_bool (duration info) 0) eqn:Hd; simpl; [discriminate|].
  destruct (Main.nonempty (get_words d)); simpl.
  - destruct (Qeq_bool (duration info / 60) 0); simpl; [discriminate|].
    destruct (sys_now E w) as [[now|e] w1]; simpl; [|discriminate].
    destruct (sys_write_text E path _ w1) as [[[]|e] w2] eqn:Hw; simpl; [|discriminate].
    intros _. split; [eauto|]. eexists. simpl. right. left. reflexivity.
  - destruct (sys_now E w) as [[now|e] w1]; simpl; [|discriminate].
    destruct (sys_write_text E path _ w1) as [[[]|e] w2] eqn:Hw; simpl; [|discriminate].
    intros _. split; [eauto|]. eexists. simpl. right. left. reflexivity.
Qed.
End Written.

Section Success.
Context {W : Type} (E : Env W) (AC : AudioComponent W).

Ltac open_bind Ht Hi :=
  cbv zeta in Ht, Hi;
  let a := fresh "a" in
  let Ha := fresh "Ha" in
  let Hia := fresh "Hia" in
  let Ht2 := fresh "Ht" in
  let Hi2 := fresh "Hi" in
  destruct (bind_return_inv _ _ _ _ _ Hi Ht) as (a & Ha & Hia & Ht2 & Hi2);
  clear Ht Hi; rename Ht2 into Ht; rename Hi2 into Hi.

Lemma process_file_success_inv self input_path output_dir language provider w
    file files report audio_info stats quality_report :
  result (Main.process_file E AC self input_path output_dir language provider w)
    = Return (Succeeded file files report audio_info stats quality_report) ->
  let evs :=
    events (Main.process_file E AC self input_path output_dir language provider w) in
  file = input_path /\
  report = report_path output_dir input_path /\
  was_written report evs /\
  (exists info,
     audio_info = AsDict info /\ Qeq_bool (duration info) 0 = false /\
     In (Called (CTranscribe (processed_path info) (st_provider stats) language) true)
        evs) /\
  (exists w', result (ac_process AC (Main.audio_processor AC self) input_path
                        output_dir w') = Return audio_info) /\
  (String.eqb provider "auto" = false -> st_provider stats = provider) /\
  exists enabled names,
    subscript2 (Main.config AC self) "output_formats" "enabled" = Return enabled /\
    iterate enabled = Return names /\
    (forall fmt p, In (fmt, p) files ->
       In fmt names /\ p = output_path output_dir input_path fmt /\ was_written p evs) /\
    (forall fmt, In fmt names ->
       In (fmt, output_path output_dir input_path fmt) files).
Proof.
  unfold Main.process_file. rewrite result_try_except, events_try_except.
  destruct (result (Main.process_file_try E AC self input_path output_dir language
                      provider w)) as [r|e] eqn:Ht.
  2:{ unfold any_exception. rewrite result_bind, result_log, world_log, result_ret.
      discriminate. }
  intros H. injection H as ->. rewrite app_nil_r.
  pose proof (incl_refl (events (Main.process_file_try E AC self input_path output_dir
                                   language provider w))) as Hi.
  set (top := events (Main.process_file_try E AC self input_path output_dir
                        language provider w)) in Hi at 2 |- *.
  clearbody top.
  unfold Main.process_file_try in Ht, Hi.
  do 18 open_bind Ht Hi.
  rewrite result_lift_res in Ha12. rewrite result_lift_res in Ha13.
  apply render_loop_inv in Ha14. destruct Ha14 as [Hf1 [Hf2 _]].
  destruct a15. apply generate_report_returns in Ha15.
  destruct Ha15 as [Hinfo [c Hc]].
  cbv beta zeta in Ht. rewrite result_ret in Ht. injection Ht as <- <- <- <- <- <-.
  cbv zeta.
  split; [reflexivity|]. split; [reflexivity|].
  split; [exists c; apply Hia15, Hc|].
  split.
  { destruct Hinfo as [info [-> Hd]]. exists info.
    split; [reflexivity|]. split; [exact Hd|].
    simpl in Ha6. rewrite result_lift_res in Ha6. injection Ha6 as <-.
    apply Hia7. revert Ha7. unfold Main.call, invoke, result, events.
    destruct (tm_transcribe E _ _ _ _) as [[t|e] w1]; simpl; [tauto | discriminate]. }
  split.
  { match type of Ha2 with
    | result (within _ ?w0) = _ => exists w0
    end.
    revert Ha2. unfold within, result.
    destruct (ac_process AC _ _ _ _) as [[r w1] t]. simpl. intros H. exact H. }
  split.
  { intros Hp. rewrite Hp in Ha3. rewrite result_ret in Ha3. now injection Ha3. }
  exists a12, a13. split; [exact Ha12|]. split; [exact Ha13|]. split.
  - intros fmt p Hin. destruct (Hf1 fmt p Hin) as [[] | [Hn [Hp [c' Hc']]]].
    split; [exact Hn|]. split; [exact Hp|]. exists c'. apply Hia14, Hc'.
  - exact Hf2.
Qed.
End Success.

Section InputFile.
Context {W : Type} (E : Env W) (AC : AudioComponent W).

Lemma process_file_input_file self input_path output_dir language provider w r :
  result (Main.process_file E AC self input_path output_dir language provider w)
    = Return r ->
  result_input_file r = input_path.
Proof.
  intros H. destruct r as [file files report a st q | error file].
  - apply process_file_success_inv in H. simpl. tauto.
  - rewrite process_file_result in H.
    destruct (result (Main.process_file_try _ _ _ _ _ _ _ _)) as [r|e] eqn:Ht.
    + subst. (* a failed dict is never returned by the try block *)
      exfalso. injection H as ->.
      pose proof (incl_refl (events (Main.process_file_try E AC self input_path
                                       output_dir language provider w))) as Hi.
      unfold Main.process_file_try in Ht, Hi at 1.
      do 18 (cbv zeta in Ht, Hi;
             let a := fresh "a" in
             let Ha := fresh "Ha" in
             let Hia := fresh "Hia" in
             let Ht2 := fresh "Ht" in
             let Hi2 := fresh "Hi" in
             destruct (bind_return_inv _ _ _ _ _ Hi Ht) as (a & Ha & Hia & Ht2 & Hi2);
             clear Ht Hi Ha Hia; rename Ht2 into Ht; rename Hi2 into Hi).
      cbv beta zeta in Ht. rewrite result_ret in Ht. discriminate.
    + now injection H as _ ->.
Qed.

End InputFile.

Section Successful.
Context {W : Type} (E : Env W) (AC : AudioComponent W).

(** X15: a successful result of [process_file] is about the file passed
    in; its report is [<stem>_report.txt] in [output_dir] and was written;
    its output files are exactly one per enabled format, each
    [<stem>.<format>] in [output_dir], and each was written. *)
Theorem successful_result_files_written self input_path output_dir language provider
    (w : W) file files report audio_info stats quality_report :
  let run := Main.process_file E AC self input_path output_dir language provider w in
  result run = Return (Succeeded file files report audio_info stats quality_report) ->
  file = input_path /\
  report = report_path output_dir input_path /\
  was_written report (events run) /\
  exists names,
    enabled_formats (Main.config AC self) = Return names /\
    (forall fmt p, In (fmt, p) files ->
       In fmt names /\ p = output_path output_dir input_path fmt /\
       was_written p (events run)) /\
    (forall fmt, In fmt names ->
       In (fmt, output_path output_dir input_path fmt) files).
Proof.
  intros run H. subst run.
  destruct (process_file_success_inv E AC _ _ _ _ _ _ _ _ _ _ _ _ H)
    as (Hf & Hr & Hw & _ & _ & _ & enabled & names & He & Hn & Hfiles & Hall).
  split; [exact Hf|]. split; [exact Hr|]. split; [exact Hw|].
  exists names. unfold enabled_formats. rewrite He.
  split; [exact Hn|]. split; [exact Hfiles | exact Hall].
Qed.

(** X16: the audio information of a successful result is the value that the
    audio processor returned for the file, it is a mapping, and its
    duration is not zero (the report divides by it). *)
Theorem successful_result_has_duration self input_path output_dir language provider
    (w : W) file files report audio_info stats quality_report :
  result (Main.process_file E AC self input_path output_dir language provider w)
    = Return (Succeeded file files report audio_info stats quality_report) ->
  exists info,
    audio_info = AsDict info /\ ~ (duration info == 0)%Q /\
    exists w', result (ac_process AC (Main.audio_processor AC self) input_path
                         output_dir w') = Return (AsDict info).
Proof.
  intros H.
  destruct (process_file_success_inv E AC _ _ _ _ _ _ _ _ _ _ _ _ H)
    as (_ & _ & _ & (info & -> & Hd & _) & (w' & Hw') & _).
  exists info. split; [reflexivity|]. split.
  - intros Hz. apply Qeq_bool_iff in Hz. congruence.
  - exists w'. exact Hw'.
Qed.

(** X17: in a successful result the provider of the statistics is the one
    that was asked to transcribe the processed path of the audio
    information, in the language passed in, and that call succeeded; a
    provider other than "auto" is recorded as passed in. *)
Theorem successful_result_transcription self input_path output_dir language provider
    (w : W) file files report audio_info stats quality_report :
  let run := Main.process_file E AC self input_path output_dir language provider w in
  result run = Return (Succeeded file files report audio_info stats quality_report) ->
  (exists info,
     audio_info = AsDict info /\
     In (Called (CTranscribe (processed_path info) (st_provider stats) language) true)
        (events run)) /\
  (String.eqb provider "auto" = false -> st_provider stats = provider).
Proof.
  intros run H. subst run.
  destruct (process_file_success_inv E AC _ _ _ _ _ _ _ _ _ _ _ _ H)
    as (_ & _ & _ & (info & -> & _ & Ht) & _ & Hp & _).
  split; [exists info; split; [reflexivity | exact Ht] | exact Hp].
Qed.
End Successful.

(** X18: with the class of obrabotka.py as the audio processor,
    [process_file] returns a failed result for every file: [process] hands
    an [AudioInfo] object over and main.py subscripts it. *)
Theorem obrabotka_processor_never_succeeds {W} (E : Env W) (L : AEnv W)
    self input_path output_dir language provider (w : W) :
  exists error,
    result (Main.process_file E (obrabotka_component L) self input_path output_dir
              language provider w)
    = Return (Failed error input_path).
Proof.
  destruct (process_file_total E (obrabotka_component L) self input_path output_dir
              language provider w) as [r Hr].
  destruct r as [file files report a st q | error file].
  - exfalso.
    destruct (process_file_success_inv E _ _ _ _ _ _ _ _ _ _ _ _ _ Hr)
      as (_ & _ & _ & (info & -> & _) & (w' & Hw') & _).
    revert Hw'. unfold obrabotka_component. cbn [ac_process].
    rewrite result_bind.
    match goal with
    | |- match result ?o with _ => _ end = _ -> _ => destruct (result o)
    end; [|discriminate].
    rewrite result_ret. discriminate.
  - pose proof (process_file_input_file E _ _ _ _ _ _ _ _ Hr) as Hf.
    simpl in Hf. subst file. exists error. exact Hr.
Qed.

(** X19: with the class of obrabotka.py as the audio processor and an
    output directory that can be created, a file of an unsupported format
    gives the failed result whose error is the text of the [ValueError] of
    [process], and the audio module has done nothing but log its start. *)
Theorem unsupported_format_fails_file {W} (E : Env W) (L : AEnv W)
    self input_path output_dir language provider (w : W) :
  Obrabotka.is_supported_format input_path = false ->
  fst (sys_mkdir E output_dir w) = Return tt ->
  let run := Main.process_file E (obrabotka_component L) self input_path output_dir
               language provider w in
  result run
    = Return (Failed ("Неподдерживаемый формат файла: " ++ input_path) input_path) /\
  audio_events (events run) = [ALog INFO ("Начало обработки аудио: " ++ input_path)].
Proof.
  intros Hs Hm. cbv zeta.
  assert (Hp : forall w1,
             ac_process (obrabotka_component L)
               (Main.audio_processor (obrabotka_component L) self)
               input_path output_dir w1
             = (Raise (mk_exn ValueError ("Неподдерживаемый формат файла: " ++ input_path)),
                w1, [ALog INFO ("Начало обработки аудио: " ++ input_path)])).
  { intros w1. unfold obrabotka_component. cbn [ac_process]. unfold bind.
    unfold Obrabotka.process, bind, Obrabotka.log, raise. now rewrite Hs. }
  unfold Main.process_file, Main.process_file_try, try_except, Main.log, Main.call,
    bind, invoke, within, result, events, any_exception, ret.
  destruct (sys_mkdir E output_dir w) as [[[]|e] w1]; simpl in Hm; [|discriminate].
  rewrite Hp. split; reflexivity.
Qed.

(** ** main.py: output formats that cannot be read *)

Section Formats.
Context {W : Type} (E : Env W) (AC : AudioComponent W).

Lemma inert_bind_left {A B} P (m : M W Event A) (k : A -> M W Event B) :
  inert P m -> inert P (bind m k).
Proof.
  intros [He Hf]. split; [| now apply fails_bind_left].
  intros w. rewrite events_bind. destruct (Hf w) as [e Hr]. rewrite Hr, app_nil_r.
  apply He.
Qed.

Lemma inert_bind_right {A B} P (m : M W Event A) (k : A -> M W Event B) :
  emits P m -> (forall a, inert P (k a)) -> inert P (bind m k).
Proof.
  intros He Hk. split.
  - apply emits_bind; [exact He | intros a; apply Hk].
  - apply fails_bind_right. intros a. apply Hk.
Qed.

Lemma inert_lift_res {A} P e : inert P (lift_res (W := W) (A := A) (Raise e)).
Proof. split; [apply emits_lift_res | apply fails_lift_res]. Qed.

Lemma inert_bind_ret {A B} P (a : A) (k : A -> M W Event B) :
  inert P (k a) -> inert P (bind (ret a) k).
Proof.
  intros [He Hf]. split.
  - intros w. rewrite events_bind, result_ret, world_ret. simpl. apply He.
  - intros w. rewrite result_bind, result_ret, world_ret. apply Hf.
Qed.

Lemma formats_lookup_fails {B} (config : yaml) (k : list string -> M W Event B) e :
  enabled_formats config = Raise e ->
  forall w,
    result (bind (lift_res (subscript2 config "output_formats" "enabled"))
                 (fun enabled => bind (lift_res (iterate enabled)) k) w) = Raise e /\
    events (bind (lift_res (subscript2 config "output_formats" "enabled"))
                 (fun enabled => bind (lift_res (iterate enabled)) k) w) = [].
Proof.
  unfold enabled_formats. intros Hc w.
  unfold bind, lift_res, result, events.
  destruct (subscript2 config "output_formats" "enabled") as [enabled|e'].
  - rewrite Hc. split; reflexivity.
  - injection Hc as ->. split; reflexivity.
Qed.

Lemma unusable_formats_inert self input_path output_dir language provider e :
  enabled_formats (Main.config AC self) = Raise e ->
  inert renders_nothing
        (Main.process_file_try E AC self input_path output_dir language provider).
Proof.
  intros Hc. unfold Main.process_file_try.
  do 12 (apply inert_bind_right;
         [ solve [unfold Main.quality_stage, Main.call; frame] | intros ? ]).
  cbv zeta. apply inert_bind_right; [frame | intros _].
  split.
  - intros w. rewrite (proj2 (formats_lookup_fails _ _ e Hc w)). constructor.
  - intros w. exists e. apply (formats_lookup_fails _ _ e Hc w).
Qed.

Lemma unusable_formats_at_rendering self input_path output_dir language provider w e :
  enabled_formats (Main.config AC self) = Raise e ->
  existsb announces_rendering
    (events (Main.process_file_try E AC self input_path output_dir language provider w))
    = true ->
  result (Main.process_file_try E AC self input_path output_dir language provider w)
    = Raise e.
Proof.
  intros Hc. unfold Main.process_file_try.
  do 12 (apply skip_unannounced;
         [ solve [unfold Main.quality_stage, Main.call, unannounced; frame]
         | intros ? ? ]).
  cbv zeta. intros _. rewrite result_bind, result_log, world_log.
  apply (formats_lookup_fails _ _ e Hc).
Qed.

(** X20: when [config['output_formats']['enabled']] cannot be read or
    iterated, [process_file] returns a failed result for the file, renders
    no subtitles and writes no text file; a run that reached the rendering
    stage fails with the text of that exception. *)
Theorem unusable_formats_render_nothing self input_path output_dir language provider
    (w : W) e :
  enabled_formats (Main.config AC self) = Raise e ->
  let run := Main.process_file E AC self input_path output_dir language provider w in
  (exists error, result run = Return (Failed error input_path)) /\
  Forall renders_nothing (events run) /\
  (stage_reached (events run) None = Some Rendering ->
   result run = Return (Failed (str_exn e) input_path)).
Proof.
  intros Hc run. subst run.
  destruct (unusable_formats_inert self input_path output_dir language provider e Hc)
    as [He Hf].
  split; [| split].
  - rewrite process_file_result. destruct (Hf w) as [e' Hr]. rewrite Hr. eauto.
  - unfold Main.process_file. rewrite events_try_except.
    apply Forall_app. split; [apply He|].
    destruct (result _); [constructor|].
    unfold any_exception. rewrite events_bind. simpl. repeat constructor.
  - intros Hs. apply stage_reached_rendering in Hs.
    destruct Hs as [Hs | Hs]; [discriminate|].
    unfold Main.process_file in Hs. rewrite events_try_except, existsb_app in Hs.
    assert (Ht : existsb announces_rendering
                   (events (Main.process_file_try E AC self input_path output_dir
                              language provider w)) = true).
    { apply orb_true_iff in Hs. destruct Hs as [Hs | Hs]; [exact Hs|].
      destruct (result _) as [r|e']; [discriminate|].
      unfold any_exception in Hs. rewrite events_bind in Hs. simpl in Hs.
      discriminate. }
    rewrite process_file_result,
      (unusable_formats_at_rendering _ _ _ _ _ _ _ Hc Ht).
    reflexivity.
Qed.

End Formats.

(** ** main.py: batches and the start of the command line *)

Section Batch.
Context {W : Type} (E : Env W) (AC : AudioComponent W).

Lemma init_import_failure config_path e :
  (forall w, fst (sys_import E "audio_processor" w) = Raise e) ->
  forall w, result (Main.init E AC config_path w) = Raise e.
Proof.
  intros Himp w. unfold Main.init. rewrite result_bind.
  destruct (result (Main.load_config E config_path w)) as [c|e'] eqn:Hl.
  - unfold Main.setup_components, Main.call.
    rewrite result_bind, result_bind, result_invoke, Himp. reflexivity.
  - rewrite load_config_result in Hl.
    destruct (fst (sys_open_yaml E config_path w)); discriminate.
Qed.

Lemma init_before_processing_on_failure config_path e :
  (forall w, fst (sys_import E "audio_processor" w) = Raise e) ->
  forall w, Forall before_processing (events (Main.init E AC config_path w)).
Proof.
  intros Himp w. unfold Main.init. rewrite events_bind.
  apply Forall_app. split.
  - apply (run_emits before_processing). unfold Main.load_config, Main.call. frame.
  - destruct (result (Main.load_config E config_path w)) as [c|e']; [|constructor].
    unfold Main.setup_components, Main.call.
    rewrite events_bind, events_bind, events_invoke, result_bind, result_invoke, Himp.
    simpl. repeat constructor.
Qed.

(** X21: when the input exists and the module of the audio processor cannot
    be imported, the exception leaves [setup_components] and [__init__],
    [main] logs "Ошибка инициализации: <text>" and ends with status 1; no
    component is built, no directory created or listed, nothing transcribed
    or written. *)
Theorem missing_component_stops_main args (w : W) e :
  fst (sys_path_exists E (Main.arg_input args) w) = Return true ->
  (forall w', fst (sys_import E "audio_processor" w') = Raise e) ->
  let run := Main.main E AC args w in
  Main.exit_status run = 1 /\
  In (Log ERROR ("Ошибка инициализации: " ++ str_exn e)) (events run) /\
  Forall before_processing (events run).
Proof.
  intros Hex Himp.
  pose proof (init_import_failure (Main.arg_config args) e Himp) as Hinit.
  pose proof (init_before_processing_on_failure (Main.arg_config args) e Himp) as Hev.
  cbv zeta. revert Hex.
  unfold Main.main, Main.exit_status, Main.call, Main.log, try_except, bind, invoke,
    ret, result, events, any_exception in *.
  destruct (sys_path_exists E (Main.arg_input args) w) as [[[|]|e0] w1]; simpl;
    try discriminate.
  intros _. specialize (Hinit w1). specialize (Hev w1).
  destruct (Main.init E AC (Main.arg_config args) w1) as [[[g|e1] w2] t]; simpl in *;
    [discriminate|].
  injection Hinit as ->.
  split; [reflexivity|]. split.
  - rewrite ?app_nil_r. right. apply in_or_app. right. left. reflexivity.
  - constructor; [exact I|].
    rewrite !app_nil_r. apply Forall_app. split; [exact Hev | repeat constructor].
Qed.

Lemma collect_failure_lines (results : list FileResult) :
  (forall r, In r results -> success r = false) ->
  Main.collect Main.failure_line results = Return (map failure_text results).
Proof.
  induction results as [|r rest IH]; intros Hall; [reflexivity|].
  simpl. assert (Hr : success r = false) by (apply Hall; now left).
  destruct r as [? ? ? ? ? ? | error file]; [discriminate|].
  simpl. rewrite IH; [reflexivity|]. intros r' Hr'. apply Hall. now right.
Qed.

(** X22: when no result of a batch is a success (an empty batch included),
    composing the aggregate report does not fail: it holds the heading, the
    three counts with "Успешно: 0", the heading of the statistics without
    figures and, when there are results, one line per file with its error,
    in the order of the results. *)
Theorem all_failed_batch_report (results : list FileResult) :
  (forall r, In r results -> success r = false) ->
  Main.batch_report_content E results =
  Return ([ Py.repeat "=" 60;
            "СВОДНЫЙ ОТЧЕТ ПАКЕТНОЙ ОБРАБОТКИ";
            Py.repeat "=" 60;
            nl ++ "Всего файлов: " ++ Py.str_of_Z (Py.len results);
            "Успешно: 0";
            "С ошибками: " ++ Py.str_of_Z (Py.len results);
            nl ++ "--- СТАТИСТИКА ---" ]
          +++ match results with
              | [] => []
              | _ => (nl ++ "--- ФАЙЛЫ С ОШИБКАМИ ---") :: map failure_text results
              end).
Proof.
  intros Hall.
  assert (Hs : filter success results = []).
  { induction results as [|r rest IH]; [reflexivity|].
    simpl. rewrite (Hall r (or_introl eq_refl)). apply IH.
    intros r' Hr'. apply Hall. now right. }
  assert (Hf : filter (fun r => negb (success r)) results = results).
  { clear Hs. induction results as [|r rest IH]; [reflexivity|].
    simpl. rewrite (Hall r (or_introl eq_refl)). simpl. f_equal. apply IH.
    intros r' Hr'. apply Hall. now right. }
  unfold Main.batch_report_content. cbv zeta. rewrite Hs, Hf.
  cbn [Main.nonempty].
  destruct results as [|r rest]; [reflexivity|].
  cbn [Main.nonempty].
  rewrite (collect_failure_lines _ Hall). reflexivity.
Qed.

(** X23: the text files that a run of [batch_process] writes are the
    aggregate report [output_dir/batch_report.txt] and, in the directory
    [output_dir/<stem>] of some file, the report of that file and its
    subtitle files for enabled formats; the paths it calls [mkdir] on are
    of that form, so [output_dir] itself is created only as a parent. *)
Theorem batch_process_layout self input_dir output_dir patterns :
  emits (batch_layout (Main.config AC self) output_dir)
        (Main.batch_process E AC self input_dir output_dir patterns).
Proof.
  unfold Main.batch_process, Main.batch_step, Main.generate_batch_report.
  repeat first
    [ (eapply emits_weaken;
       [| apply (process_file_stays_in E AC)];
       let ev := fresh "ev" in
       intros ev; destruct ev as [? ? | [] ? | ? ? | ?]; simpl;
       first [ exact (fun _ => I)
             | intros H; right; eexists; exact H
             | intros H; eexists; exact H ])
    | apply emits_bind; [| intros ?]
    | apply emits_for_each; intros ? ?
    | progress cbv zeta
    | match goal with
      | |- emits _ (if ?b then _ else _) => destruct b
      end
    | apply emits_ret
    | apply emits_lift_res
    | apply emits_log; exact I
    | apply emits_invoke; intros; simpl; first [exact I | left; reflexivity] ].
Qed.
End Batch.

Section Steps.
Context {W : Type} (E : Env W) (AC : AudioComponent W).

Lemma batch_step_cases self output_dir results file_path (w : W) :
  let run := Main.batch_step E AC self output_dir results file_path w in
  match sys_is_file E file_path w with
  | (Return true, _) =>
      exists r, result run = Return (results ++ [r])%list /\
                result_input_file r = file_path
  | (Return false, w1) =>
      run = (Return results, w1, [Called (CIsFile file_path) true])
  | (Raise e, w1) =>
      run = (Raise e, w1, [Called (CIsFile file_path) false])
  end.
Proof.
  cbv zeta. unfold Main.batch_step, Main.call.
  destruct (sys_is_file E file_path w) as [[[|]|e] w1] eqn:Hf.
  - rewrite result_bind, result_invoke, world_invoke, Hf. simpl fst. simpl snd.
    cbv iota. rewrite result_bind, result_log, world_log, result_bind.
    destruct (process_file_total E AC self file_path
                (Path.join output_dir (Path.stem file_path)) None "auto" w1) as [r Hr].
    rewrite Hr, result_ret. exists r. split; [reflexivity|].
    now apply process_file_input_file in Hr.
  - unfold bind, invoke, ret. rewrite Hf. reflexivity.
  - unfold bind, invoke. rewrite Hf. reflexivity.
Qed.

(** X24: one step of the inner loop of [batch_process].  For a path that
    [is_file] accepts, one result is appended, and it is the result of that
    path; a path that is not a file is skipped, with no other event than the
    test; an exception of [is_file] leaves the loop. *)
Theorem batch_step_outcome self output_dir results file_path (w : W) :
  let run := Main.batch_step E AC self output_dir results file_path w in
  match sys_is_file E file_path w with
  | (Return true, _) =>
      exists r, result run = Return (results ++ [r])%list /\
                result_input_file r = file_path
  | (Return false, w1) =>
      run = (Return results, w1, [Called (CIsFile file_path) true])
  | (Raise e, w1) =>
      run = (Raise e, w1, [Called (CIsFile file_path) false])
  end.
Proof. exact (batch_step_cases self output_dir results file_path w). Qed.

End Steps.

Lemma events_ret {W Ev A} (a : A) (w : W) : events (ret (Ev := Ev) a w) = [].
Proof. reflexivity. Qed.

Section BatchResults.
Context {W : Type} (E : Env W) (AC : AudioComponent W).

Lemma batch_step_returns self output_dir acc file_path (w : W) acc' :
  let run := Main.batch_step E AC self output_dir acc file_path w in
  result run = Return acc' ->
  (acc' = acc \/ exists r, acc' = (acc ++ [r])%list /\ result_input_file r = file_path) /\
  In (Called (CIsFile file_path) true) (events run).
Proof.
  cbv zeta. pose proof (batch_step_cases E AC self output_dir acc file_path w) as Ho.
  cbv zeta in Ho.
  assert (Hin : result (Main.batch_step E AC self output_dir acc file_path w)
                = Return acc' ->
                In (Called (CIsFile file_path) true)
                   (events (Main.batch_step E AC self output_dir acc file_path w))).
  { unfold Main.batch_step, Main.call. rewrite result_bind, events_bind, result_invoke,
      events_invoke.
    destruct (fst (sys_is_file E file_path w)); [|discriminate].
    intros _. left. reflexivity. }
  destruct (sys_is_file E file_path w) as [[[|]|e] w1].
  - destruct Ho as [r [Hr Hf]]. intros H. split; [|now apply Hin].
    right. exists r. split; [congruence | exact Hf].
  - intros H. split; [|now apply Hin]. left. rewrite Ho in H. now injection H.
  - rewrite Ho. discriminate.
Qed.

Lemma batch_files_inv self output_dir : forall files acc (w : W) results,
  let run := for_each files acc (Main.batch_step E AC self output_dir) w in
  result run = Return results ->
  exists new,
    results = (acc ++ new)%list /\
    Forall (looked_at (events run)) new /\
    (List.length new <= count_events is_file_check (events run))%nat.
Proof.
  induction files as [|f r IH]; intros acc w results run Hr; subst run.
  - simpl in Hr. injection Hr as <-. exists []. rewrite app_nil_r.
    split; [reflexivity|]. split; [constructor | simpl; lia].
  - simpl for_each in *.
    apply bind_return_self in Hr. destruct Hr as [acc' [Hs [Hi1 [Hr Hi2]]]].
    pose proof (batch_step_returns _ _ _ _ _ _ Hs) as [Hacc Hin]. cbv zeta in Hin.
    destruct (IH _ _ _ Hr) as [new [-> [Hl Hc]]].
    rewrite events_bind, Hs, count_events_app.
    assert (H1 : (1 <= count_events is_file_check
                        (events (Main.batch_step E AC self output_dir acc f w)))%nat).
    { clear - Hin. induction (events _) as [|ev t IHt]; [destruct Hin|].
      destruct Hin as [-> | Hin]; unfold count_events in *; simpl.
      - lia.
      - specialize (IHt Hin). destruct (is_file_check ev); simpl; lia. }
    assert (Hl' : Forall (looked_at
                            (events (Main.batch_step E AC self output_dir acc f w) ++
                             events (for_each r acc' (Main.batch_step E AC self output_dir)
                                       (world (Main.batch_step E AC self output_dir
                                                 acc f w))))%list) new).
    { eapply Forall_impl; [|exact Hl]. intros x Hx. apply in_or_app. now right. }
    destruct Hacc as [-> | [x [-> Hx]]].
    + exists new. split; [reflexivity|]. split; [exact Hl' | lia].
    + exists (x :: new). rewrite <- app_assoc. split; [reflexivity|]. split.
      * constructor; [|exact Hl']. unfold looked_at. rewrite Hx.
        apply in_or_app. now left.
      * simpl. lia.
Qed.

Lemma batch_patterns_inv self input_dir output_dir : forall patterns acc (w : W) results,
  let run :=
    for_each patterns acc
      (fun results pattern =>
         bind (Main.call (CGlob input_dir pattern) (sys_glob E input_dir pattern))
              (fun files => for_each files results (Main.batch_step E AC self output_dir)))
      w in
  result run = Return results ->
  exists new,
    results = (acc ++ new)%list /\
    Forall (looked_at (events run)) new /\
    (List.length new <= count_events is_file_check (events run))%nat.
Proof.
  induction patterns as [|p r IH]; intros acc w results run Hr; subst run.
  - simpl in Hr. injection Hr as <-. exists []. rewrite app_nil_r.
    split; [reflexivity|]. split; [constructor | simpl; lia].
  - simpl for_each in *.
    apply bind_return_self in Hr. destruct Hr as [acc' [Hs [_ [Hr _]]]].
    rewrite events_bind, Hs.
    apply bind_return_self in Hs. destruct Hs as [files [Hg [_ [Hs _]]]].
    rewrite events_bind, Hg.
    destruct (batch_files_inv _ _ _ _ _ _ Hs) as [new1 [-> [Hl1 Hc1]]].
    destruct (IH _ _ _ Hr) as [new2 [-> [Hl2 Hc2]]].
    exists (new1 ++ new2)%list. rewrite app_assoc. split; [reflexivity|]. split.
    + apply Forall_app. split.
      * eapply Forall_impl; [|exact Hl1]. intros x Hx. unfold looked_at in *.
        apply in_or_app. left. apply in_or_app. now right.
      * eapply Forall_impl; [|exact Hl2]. intros x Hx. unfold looked_at in *.
        apply in_or_app. now right.
    + rewrite length_app, !count_events_app. lia.
Qed.

(** X25: when [batch_process] returns, the aggregate report was written to
    [output_dir/batch_report.txt], every result belongs to a path that
    [is_file] was asked about, and there are at most as many results as such
    tests. *)
Theorem batch_process_results self input_dir output_dir patterns (w : W) results :
  let run := Main.batch_process E AC self input_dir output_dir patterns w in
  result run = Return results ->
  Forall (looked_at (events run)) results /\
  (List.length results <= count_events is_file_check (events run))%nat /\
  was_written (Path.join output_dir "batch_report.txt") (events run).
Proof.
  intros run Hr. subst run. unfold Main.batch_process in *. cbv zeta in *.
  apply bind_return_self in Hr. destruct Hr as [rs [Hl [_ [Hr _]]]].
  rewrite events_bind, Hl.
  apply bind_return_self in Hr. destruct Hr as [[] [Hg [_ [Hr _]]]].
  rewrite result_ret in Hr. injection Hr as <-.
  destruct (batch_patterns_inv _ _ _ _ _ _ _ Hl) as [new [-> [Hf Hc]]].
  simpl app in *. split; [| split].
  - eapply Forall_impl; [|exact Hf]. intros x Hx. unfold looked_at in *.
    apply in_or_app. now left.
  - rewrite count_events_app. lia.
  - rewrite events_bind, Hg, events_ret, app_nil_r.
    revert Hg. unfold Main.generate_batch_report, Main.call, Main.log, bind, invoke,
      lift_res, result, events, was_written.
    cbv zeta.
    destruct (Main.batch_report_content E new) as [content|e]; [|discriminate].
    destruct (sys_write_text E _ _ _) as [[[]|e] w1]; simpl; [|discriminate].
    intros _. eexists. apply in_or_app. right. left. reflexivity.
Qed.
End BatchResults.

(** ** The further properties on the simulated machine *)

(** A text file is rejected. *)
Lemma unsupported_format_rejected_untouched_witness :
  Obrabotka.process Sim.libs (Sim.processor Sim.full_config) "in/notes.txt" None
    (Sim.machine false ["in/notes.txt"])
  = (Raise (mk_exn ValueError "Неподдерживаемый формат файла: in/notes.txt"),
     Sim.machine false ["in/notes.txt"],
     [ALog INFO "Начало обработки аудио: in/notes.txt"]).
Proof.
  apply (unsupported_format_rejected_untouched Sim.libs (Sim.processor Sim.full_config)
           "in/notes.txt" None (Sim.machine false ["in/notes.txt"])).
  reflexivity.
Defined.

(** A recording that does not exist. *)
Lemma analysis_failure_prepares_nothing_witness :
  result (Obrabotka.process Sim.libs (Sim.processor Sim.full_config) "in/missing.mp3"
            (Some "out") (Sim.mk_World ["in"; "out"] []))
  = Raise (Sim.no_such "in/missing.mp3").
Proof.
  refine (proj1 (analysis_failure_prepares_nothing Sim.libs
                   (Sim.processor Sim.full_config) "in/missing.mp3" (Some "out")
                   (Sim.mk_World ["in"; "out"] []) (Sim.no_such "in/missing.mp3") _ _)).
  - reflexivity.
  - vm_compute. reflexivity.
Defined.

(** A recording prepared into [out]. *)
Lemma prepare_audio_file_result_exported_witness :
  exists audio,
    In (ACalled (CExport audio "out/talk_prepared.wav") true)
       (events (Obrabotka.prepare_audio_file Sim.libs (Sim.processor Sim.full_config)
                  "in/talk.mp3" (Some "out")
                  (Sim.mk_World ["in"; "out"] ["in/talk.mp3"]))).
Proof.
  refine (proj2 (prepare_audio_file_result_exported Sim.libs
                   (Sim.processor Sim.full_config) "in/talk.mp3" (Some "out")
                   (Sim.mk_World ["in"; "out"] ["in/talk.mp3"])
                   "out/talk_prepared.wav" _)).
  vm_compute. reflexivity.
Defined.

(** A video whose audio is extracted into [out]. *)
Lemma extract_audio_result_extracted_witness :
  exists ac ar,
    subscript2 Sim.full_config "audio_preprocessing" "channels" = Return ac /\
    subscript2 Sim.full_config "audio_preprocessing" "target_sample_rate" = Return ar /\
    In (ACalled (CFfmpegRun "in/clip.mp4" "out/clip_audio.wav" ac ar) true)
       (events (Obrabotka.extract_audio_from_video Sim.libs
                  (Sim.processor Sim.full_config) "in/clip.mp4" (Some "out")
                  (Sim.mk_World ["in"; "out"] ["in/clip.mp4"]))).
Proof.
  refine (proj2 (extract_audio_result_extracted Sim.libs
                   (Sim.processor Sim.full_config) "in/clip.mp4" (Some "out")
                   (Sim.mk_World ["in"; "out"] ["in/clip.mp4"])
                   "out/clip_audio.wav" _)).
  vm_compute. reflexivity.
Defined.

(** A recording, normalised and, for want of noisereduce, not denoised. *)
Lemma processed_path_candidates_witness :
  exists normalize noise_reduction,
    subscript2 Sim.full_config "audio_preprocessing" "normalize" = Return normalize /\
    subscript2 Sim.full_config "audio_preprocessing" "noise_reduction"
      = Return noise_reduction /\
    exists p1,
      (p1 = "out/talk_prepared.wav" \/
       (truthy normalize = true /\ p1 = normalized_name "out/talk_prepared.wav")) /\
      ("out/talk_prepared_normalized.wav" = p1 \/
       (truthy noise_reduction = true /\
        "out/talk_prepared_normalized.wav" = denoised_name p1)).
Proof.
  exact (processed_path_candidates Sim.libs (Sim.processor Sim.full_config)
           "in/talk.wav" (Some "out") (Sim.mk_World ["in"; "out"] ["in/talk.wav"])
           (mk_AudioInfo "in/talk.wav" "out/talk_prepared_normalized.wav"
              90 44100 2 "WAV" (2097152 # 1048576))
           eq_refl).
Defined.

(** Parts of zero seconds. *)
Lemma split_nonpositive_duration_witness :
  result (Obrabotka.split_large_file Sim.libs (Sim.processor Sim.full_config)
            "in/talk.mp3" 0 (Sim.machine false ["in/talk.mp3"]))
  = Raise (mk_exn ValueError "range() arg 3 must not be zero").
Proof.
  refine (proj1 (split_nonpositive_duration Sim.libs (Sim.processor Sim.full_config)
                   "in/talk.mp3" 0 (Sim.machine false ["in/talk.mp3"])
                   (mk_AudioSegment "in/talk.mp3" 0 90000 2 44100)
                   (Sim.machine false ["in/talk.mp3"]) _ _ _)).
  - reflexivity.
  - lia.
  - unfold audio_len. simpl. lia.
Defined.

(** The three parts of 90 seconds cut every 40 seconds. *)
Lemma split_large_file_part_names_witness :
  result (Obrabotka.split_large_file Sim.libs (Sim.processor Sim.full_config)
            "in/talk.mp3" 40 (Sim.machine false ["in/talk.mp3"]))
  = Return ["in/talk_part0.wav"; "in/talk_part1.wav"; "in/talk_part2.wav"].
Proof.
  refine (split_large_file_part_names Sim.libs (Sim.processor Sim.full_config)
            "in/talk.mp3" 40 (Sim.machine false ["in/talk.mp3"])
            (mk_AudioSegment "in/talk.mp3" 0 90000 2 44100)
            (Sim.machine false ["in/talk.mp3"]) _ _ _ _).
  - lia.
  - reflexivity.
  - unfold audio_len. simpl. lia.
  - vm_compute. reflexivity.
Defined.

(** A machine without the directory of the input: the first export fails. *)
Lemma split_exports_prefix_witness :
  let run := Obrabotka.split_large_file Sim.libs (Sim.processor Sim.full_config)
               "in/talk.mp3" 40 (Sim.mk_World [] ["in/talk.mp3"]) in
  exists k,
    exported (events run)
    = firstn k [(0, 40000); (40000, 80000); (80000, 90000)] /\
    (existsb failed_export (events run) = true -> exists e, result run = Raise e).
Proof.
  refine (split_exports_prefix Sim.libs (Sim.processor Sim.full_config)
            "in/talk.mp3" 40 (Sim.mk_World [] ["in/talk.mp3"])
            (mk_AudioSegment "in/talk.mp3" 0 90000 2 44100)
            (Sim.mk_World [] ["in/talk.mp3"]) _ _ _).
  - lia.
  - reflexivity.
  - unfold audio_len. simpl. lia.
Defined.

(** A configuration without output formats. *)
Lemma unusable_formats_render_nothing_witness :
  let run := Main.process_file (Sim.env Sim.calm) (mapping_component Sim.libs)
               (Sim.generator no_formats_config) "in/talk.mp3" "out" None "auto"
               (Sim.machine false ["in/talk.mp3"]) in
  (exists error, result run = Return (Failed error "in/talk.mp3")) /\
  Forall renders_nothing (events run) /\
  (stage_reached (events run) None = Some Rendering ->
   result run = Return (Failed "'output_formats'" "in/talk.mp3")).
Proof.
  exact (unusable_formats_render_nothing (Sim.env Sim.calm) (mapping_component Sim.libs)
           (Sim.generator no_formats_config) "in/talk.mp3" "out" None "auto"
           (Sim.machine false ["in/talk.mp3"]) (key_error "output_formats") eq_refl).
Defined.

(** The report of a batch of one failed file. *)
Lemma all_failed_batch_report_witness :
  Main.batch_report_content (Sim.env Sim.calm) [Failed "quota exhausted" "in/talk.mp3"]
  = Return [ Py.repeat "=" 60;
             "СВОДНЫЙ ОТЧЕТ ПАКЕТНОЙ ОБРАБОТКИ";
             Py.repeat "=" 60;
             nl ++ "Всего файлов: 1";
             "Успешно: 0";
             "С ошибками: 1";
             nl ++ "--- СТАТИСТИКА ---";
             nl ++ "--- ФАЙЛЫ С ОШИБКАМИ ---";
             "  • in/talk.mp3: quota exhausted" ].
Proof.
  refine (all_failed_batch_report (Sim.env Sim.calm)
            [Failed "quota exhausted" "in/talk.mp3"] _).
  intros r [<- | []]. reflexivity.
Defined.

(** The files of a successful run. *)
Lemma successful_result_files_written_witness :
  was_written "out/talk_report.txt" (events (Sim.run_file Sim.calm "in/talk.mp3")) /\
  was_written "out/talk.srt" (events (Sim.run_file Sim.calm "in/talk.mp3")).
Proof.
  destruct (successful_result_files_written (Sim.env Sim.calm)
              (mapping_component Sim.libs) (Sim.generator Sim.full_config)
              "in/talk.mp3" "out" None "auto" (Sim.machine true ["in/talk.mp3"])
              "in/talk.mp3" [("srt", "out/talk.srt"); ("vtt", "out/talk.vtt")]
              "out/talk_report.txt"
              (AsDict (mk_AudioInfo "in/talk.mp3" "out/talk_prepared_normalized.wav"
                         90 44100 2 "WAV" (2097152 # 1048576)))
              (mk_Stats 0 1 "nexara" "ru") Sim.clean_report)
    as (_ & _ & Hw & names & _ & Hfiles & _).
  - vm_compute. reflexivity.
  - split; [exact Hw|].
    exact (proj2 (proj2 (Hfiles "srt" "out/talk.srt" (or_introl eq_refl)))).
Defined.

(** The audio information of a successful run. *)
Lemma successful_result_has_duration_witness :
  exists info,
    AsDict (mk_AudioInfo "in/talk.mp3" "out/talk_prepared_normalized.wav"
              90 44100 2 "WAV" (2097152 # 1048576)) = AsDict info /\
    ~ (duration info == 0)%Q.
Proof.
  destruct (successful_result_has_duration (Sim.env Sim.calm)
              (mapping_component Sim.libs) (Sim.generator Sim.full_config)
              "in/talk.mp3" "out" None "auto" (Sim.machine true ["in/talk.mp3"])
              "in/talk.mp3" [("srt", "out/talk.srt"); ("vtt", "out/talk.vtt")]
              "out/talk_report.txt"
              (AsDict (mk_AudioInfo "in/talk.mp3" "out/talk_prepared_normalized.wav"
                         90 44100 2 "WAV" (2097152 # 1048576)))
              (mk_Stats 0 1 "nexara" "ru") Sim.clean_report)
    as (info & Hi & Hd & _).
  - vm_compute. reflexivity.
  - exists info. split; [exact Hi | exact Hd].
Defined.

(** The transcription of a successful run. *)
Lemma successful_result_transcription_witness :
  exists info,
    AsDict (mk_AudioInfo "in/talk.mp3" "out/talk_prepared_normalized.wav"
              90 44100 2 "WAV" (2097152 # 1048576)) = AsDict info /\
    In (Called (CTranscribe (processed_path info) "nexara" None) true)
       (events (Sim.run_file Sim.calm "in/talk.mp3")).
Proof.
  refine (proj1 (successful_result_transcription (Sim.env Sim.calm)
              (mapping_component Sim.libs) (Sim.generator Sim.full_config)
              "in/talk.mp3" "out" None "auto" (Sim.machine true ["in/talk.mp3"])
              "in/talk.mp3" [("srt", "out/talk.srt"); ("vtt", "out/talk.vtt")]
              "out/talk_report.txt"
              (AsDict (mk_AudioInfo "in/talk.mp3" "out/talk_prepared_normalized.wav"
                         90 44100 2 "WAV" (2097152 # 1048576)))
              (mk_Stats 0 1 "nexara" "ru") Sim.clean_report _)).
  vm_compute. reflexivity.
Defined.

(** A text file given to the command line's pipeline. *)
Lemma unsupported_format_fails_file_witness :
  result (Main.process_file (Sim.env Sim.calm) (obrabotka_component Sim.libs)
            (Sim.linked_generator Sim.full_config) "in/notes.txt" "out" None "auto"
            (Sim.machine true ["in/notes.txt"]))
  = Return (Failed "Неподдерживаемый формат файла: in/notes.txt" "in/notes.txt").
Proof.
  refine (proj1 (unsupported_format_fails_file (Sim.env Sim.calm) Sim.libs
                   (Sim.linked_generator Sim.full_config) "in/notes.txt" "out" None
                   "auto" (Sim.machine true ["in/notes.txt"]) _ _)).
  - reflexivity.
  - reflexivity.
Defined.

(** A batch of one file whose post-processing fails. *)
Lemma batch_process_results_witness :
  let run := Main.batch_process (Sim.env (Sim.failing_post "quota exhausted"))
               (mapping_component Sim.libs) (Sim.generator Sim.full_config)
               "in" "out" None (Sim.machine true ["in/a.mp3"]) in
  Forall (looked_at (events run)) [Failed "quota exhausted" "in/a.mp3"] /\
  (1 <= count_events is_file_check (events run))%nat /\
  was_written "out/batch_report.txt" (events run).
Proof.
  refine (batch_process_results (Sim.env (Sim.failing_post "quota exhausted"))
            (mapping_component Sim.libs) (Sim.generator Sim.full_config)
            "in" "out" None (Sim.machine true ["in/a.mp3"])
            [Failed "quota exhausted" "in/a.mp3"] _).
  vm_compute. reflexivity.
Defined.

(** The command line on a machine without the components. *)
Lemma missing_component_stops_main_witness :
  Main.exit_status
    (Main.main (without_components Sim.calm) (mapping_component Sim.libs)
       (Main.mk_Args "in/talk.mp3" "out" None "auto" false "config.yaml")
       (Sim.machine true ["in/talk.mp3"])) = 1.
Proof.
  refine (proj1 (missing_component_stops_main (without_components Sim.calm)
                   (mapping_component Sim.libs)
                   (Main.mk_Args "in/talk.mp3" "out" None "auto" false "config.yaml")
                   (Sim.machine true ["in/talk.mp3"])
                   (mk_exn ImportError "No module named 'audio_processor'") _ _)).
  - reflexivity.
  - intros w'. reflexivity.
Defined.
